(** * COLLADAMaya geometry importer: topology reconstruction

    A shallow embedding of [COLLADAMaya/src/COLLADAMayaGeometryImporter.cpp]:
    the edge lookup, the polygon / triangle-fan / triangle-strip face
    decoders, the hole orientation test, the UV / colour index slicer, the
    object-group partition and the instancing logic of [importMesh]. *)

From Stdlib Require Import ZArith Lia.
From stdpp Require Import base option list strings gmap.

Local Open Scope Z_scope.

(** ** Machine integers

    The importer mixes [int] (32 bit, signed), [unsigned int] (32 bit) and
    [size_t] (64 bit).  Values are kept in [Z]; every C++ operation is
    followed by the conversion to the type of its result. *)

Definition to_uint (z : Z) : Z := z mod 2 ^ 32.
Definition to_size_t (z : Z) : Z := z mod 2 ^ 64.
Definition to_int (z : Z) : Z := (z + 2 ^ 31) mod 2 ^ 32 - 2 ^ 31.

Definition is_int (z : Z) : Prop := - 2 ^ 31 <= z < 2 ^ 31.
Definition is_size_t (z : Z) : Prop := 0 <= z < 2 ^ 64.

(** ** Failing computations

    A failed [assert] ends the conversion; so does, in this model, every
    step whose behaviour is undefined in C++: a read outside an array, a
    null pointer that is dereferenced, a value that is used before it is
    set, a division by zero. *)

Inductive Failure : Type :=
  | AssertionFailed
  | OutOfBounds
  | NullPointer
  | Uninitialised
  | DivisionByZero.

Inductive Run (A : Type) : Type :=
  | Done (a : A)
  | Abort (e : Failure).
Arguments Done {A} a.
Arguments Abort {A} e.

#[global] Instance Run_ret : MRet Run := fun A a => Done a.
#[global] Instance Run_bind : MBind Run := fun A B f m =>
  match m with
  | Done a => f a
  | Abort e => Abort e
  end.

(** [arr[i]] on a C array or [std::vector]: no bounds check in the source, a
    read outside the array is undefined and modelled as [OutOfBounds]. *)
Definition read {A : Type} (arr : list A) (i : Z) : Run A :=
  if decide (0 <= i < Z.of_nat (length arr)) then
    match arr !! Z.to_nat i with
    | Some v => Done v
    | None => Abort OutOfBounds
    end
  else Abort OutOfBounds.

(** A counted [for] loop, [for (i = 0; i < n; ++i) body], on a fallible body. *)
Fixpoint for_loop {St : Type} (n : nat) (i : Z) (body : Z -> St -> Run St) (s : St)
  : Run St :=
  match n with
  | O => Done s
  | S n' => s' ← body i s; for_loop n' (i + 1) body s'
  end.

(** ** MayaDM::polyFaces *)

Record MU : Type := mkMU {
  uvSet : Z;
  faceUVCount : Z;
  uvIdValue : list Z }.

Record MC : Type := mkMC {
  colorSet : Z;
  faceColorCount : Z;
  colorIdValue : list Z }.

(** [polyFaces]: [f] (outer boundary), [h] (hole), [mu] and [mc] (one entry
    per UV set / colour set). *)
Record polyFaces : Type := mkPolyFaces {
  f_faceEdgeCount : Z;
  f_edgeIdValue : list Z;
  h_holeEdgeCount : Z;
  h_edgeIdValue : list Z;
  mu : list MU;
  muCount : Z;
  mc : list MC;
  mcCount : Z }.

(** Modelled from the spec: the default constructor of [MayaDM::polyFaces]
    (MayaDMTypes.h is not among the sources); a fresh face has no edges,
    hole or attribute entries. *)
Definition polyFaces_new : polyFaces :=
  mkPolyFaces 0 [] 0 [] [] 0 [] 0.

Definition set_f (pf : polyFaces) (n : Z) (ids : list Z) : polyFaces :=
  mkPolyFaces n ids (h_holeEdgeCount pf) (h_edgeIdValue pf)
              (mu pf) (muCount pf) (mc pf) (mcCount pf).
Definition set_f_edgeIdValue (pf : polyFaces) (ids : list Z) : polyFaces :=
  set_f pf (f_faceEdgeCount pf) ids.
Definition set_h (pf : polyFaces) (n : Z) (ids : list Z) : polyFaces :=
  mkPolyFaces (f_faceEdgeCount pf) (f_edgeIdValue pf) n ids
              (mu pf) (muCount pf) (mc pf) (mcCount pf).
Definition set_h_edgeIdValue (pf : polyFaces) (ids : list Z) : polyFaces :=
  set_h pf (h_holeEdgeCount pf) ids.
Definition set_mu (pf : polyFaces) (l : list MU) (n : Z) : polyFaces :=
  mkPolyFaces (f_faceEdgeCount pf) (f_edgeIdValue pf)
              (h_holeEdgeCount pf) (h_edgeIdValue pf) l n (mc pf) (mcCount pf).
Definition set_mc (pf : polyFaces) (l : list MC) (n : Z) : polyFaces :=
  mkPolyFaces (f_faceEdgeCount pf) (f_edgeIdValue pf)
              (h_holeEdgeCount pf) (h_edgeIdValue pf) (mu pf) (muCount pf) l n.

(** [new int[n]]: the cells are written before they are read. *)
Definition new_int_array (n : Z) : list Z := replicate (Z.to_nat n) 0.

(** ** Hole flipping: [changePolyFaceHoleOrientation] *)

(** [edgeIndexValue = ( edgeIndexValue + 1 ) * (-1)] on [int]. *)
Definition toggle (edgeIndexValue : Z) : Z :=
  to_int (to_int (edgeIndexValue + 1) * (-1)).

(** First loop: [edgeIndex] runs from [numEdges-1] down to [0]; the argument
    is [edgeIndex + 1]. *)
Fixpoint collect_reversed (ids : list Z) (n : nat) (valueVec : list Z)
  : Run (list Z) :=
  match n with
  | O => Done valueVec
  | S edgeIndex =>
      edgeIndexValue ← read ids (Z.of_nat edgeIndex);
      collect_reversed ids edgeIndex (valueVec ++ [toggle edgeIndexValue])
  end.

(** Second loop: [edgeIdValue[edgeIndex] = valueVec[edgeIndex]] for every
    index of [valueVec]. *)
Fixpoint write_back (ids : list Z) (edgeIndex : nat) (rest : list Z) : list Z :=
  match rest with
  | [] => ids
  | v :: rest' => write_back (<[edgeIndex := v]> ids) (S edgeIndex) rest'
  end.

Definition changePolyFaceHoleOrientation (polyFace : polyFaces) : Run polyFaces :=
  let numEdges := h_holeEdgeCount polyFace in
  valueVec ← collect_reversed (h_edgeIdValue polyFace) (Z.to_nat numEdges) [];
  Done (set_h_edgeIdValue polyFace (write_back (h_edgeIdValue polyFace) 0 valueVec)).

(** ** COLLADAFW::Edge and the edge-index map *)

(** Modelled from the spec: [COLLADAFW::Edge] (COLLADAFWEdge.h is not among
    the sources).  An edge is an unordered pair kept in canonical order
    ([a < b]); the flag records that it was built from the opposite
    direction.  [std::map<Edge,size_t>] compares the vertex pair only. *)
Record Edge : Type := mkEdge {
  mVertexIndices : Z * Z;
  mReverse : bool }.

Definition Edge_new (index1 index2 : Z) : Edge :=
  if decide (index1 < index2)
  then mkEdge (index1, index2) false
  else mkEdge (index2, index1) true.

Definition isReverse (edge : Edge) : bool := mReverse edge.

Abbreviation EdgeIndicesMap := (gmap (Z * Z) Z).

(** [getEdgeIndex]: the [assert] on a miss ends the run; otherwise the
    stored [size_t] is cast to [int] and negated past zero for a reversed
    edge.  The C++ function always returns [true]; the result here is the
    out-parameter [edgeIndex]. *)
Definition getEdgeIndex (edge : Edge) (edgeIndicesMap : EdgeIndicesMap) : Run Z :=
  match edgeIndicesMap !! mVertexIndices edge with
  | None => Abort AssertionFailed
  | Some second =>
      let edgeIndex := to_int second in
      Done (if isReverse edge then to_int (- to_int (edgeIndex + 1)) else edgeIndex)
  end.

(** ** The mesh descriptor (COLLADAFW) *)

Inductive PrimitiveType : Type :=
  | POLYGONS | POLYLIST | TRIANGLES | TRIANGLE_FANS | TRIANGLE_STRIPS
  | OTHER_PRIMITIVE_TYPE.

#[global] Instance PrimitiveType_eq_dec : EqDecision PrimitiveType.
Proof. solve_decision. Defined.

(** [COLLADAFW::IndexList]: one UV or colour index stream of a primitive. *)
Record IndexList : Type := mkIndexList {
  getName : string;
  getIndices : list Z;
  getInitialIndex : Z }.

(** [COLLADAFW::MeshPrimitive].  [getGroupedVerticesVertexCountArray] holds
    one vertex count per face / hole / fan / strip (negative for a hole);
    [appendEdgeIndices] is the primitive's own (virtual) edge enumeration. *)
Record MeshPrimitive : Type := mkMeshPrimitive {
  getPrimitiveType : PrimitiveType;
  getPositionIndices : list Z;
  getNormalIndices : list Z;
  getUVCoordIndicesArray : list IndexList;
  getColorIndicesArray : list IndexList;
  getGroupedVerticesVertexCountArray : list Z;
  getMaterialId : Z;
  appendEdgeIndices : list Edge * EdgeIndicesMap -> list Edge * EdgeIndicesMap }.

(** Modelled from the spec: the accessors of [COLLADAFW::MeshPrimitive]
    (COLLADAFWMeshPrimitive.h is not among the sources) count and read the
    grouped vertex elements. *)
Definition getGroupedVertexElementsCount (p : MeshPrimitive) : Z :=
  Z.of_nat (length (getGroupedVerticesVertexCountArray p)).
Definition getGroupedVerticesVertexCount (p : MeshPrimitive) (i : Z) : Run Z :=
  read (getGroupedVerticesVertexCountArray p) i.

(** Arithmetic of [COLLADABU::Math::Real] (a [double] in the source), kept
    abstract: [real_gt x y] is the C++ test [x > y]. *)
Class Scalar (real : Type) : Type := {
  real_zero : real;
  real_add : real -> real -> real;
  real_sub : real -> real -> real;
  real_mul : real -> real -> real;
  real_gt : real -> real -> bool }.

#[global] Instance Z_Scalar : Scalar Z := {
  real_zero := 0;
  real_add := Z.add;
  real_sub := Z.sub;
  real_mul := Z.mul;
  real_gt := fun x y => bool_decide (x > y) }.

Record Vector3 (real : Type) : Type := mkVector3 {
  vx : real; vy : real; vz : real }.
Arguments mkVector3 {real} _ _ _.
Arguments vx {real} _.
Arguments vy {real} _.
Arguments vz {real} _.

(** Modelled from the spec: [operator-], [crossProduct] and [dotProduct] of
    [COLLADABU::Math::Vector3] (COLLADABUMathVector3.h is not among the
    sources). *)
Definition Vector3_sub `{Scalar real} (a b : Vector3 real) : Vector3 real :=
  mkVector3 (real_sub (vx a) (vx b)) (real_sub (vy a) (vy b))
            (real_sub (vz a) (vz b)).
Definition crossProduct `{Scalar real} (a b : Vector3 real) : Vector3 real :=
  mkVector3 (real_sub (real_mul (vy a) (vz b)) (real_mul (vz a) (vy b)))
            (real_sub (real_mul (vz a) (vx b)) (real_mul (vx a) (vz b)))
            (real_sub (real_mul (vx a) (vy b)) (real_mul (vy a) (vx b))).
Definition dotProduct `{Scalar real} (a b : Vector3 real) : real :=
  real_add (real_add (real_mul (vx a) (vx b)) (real_mul (vy a) (vy b)))
           (real_mul (vz a) (vz b)).

Inductive DataType : Type :=
  | DATA_TYPE_FLOAT | DATA_TYPE_DOUBLE | DATA_TYPE_UNKNOWN.

(** Modelled from the spec: [COLLADAFW::MeshVertexData]
    (COLLADAFWMeshVertexData.h is not among the sources): the values of all
    inputs in one array, and for every input its name, its stride and the
    number of its values. *)
Record InputInfos : Type := mkInputInfos {
  mName : string;
  mStride : Z;
  mLength : Z }.
Record MeshVertexData (real : Type) : Type := mkMeshVertexData {
  getType : DataType;
  getValues : list real;
  mInputInfosArray : list InputInfos }.
Arguments mkMeshVertexData {real} _ _ _.
Arguments getType {real} _.
Arguments getValues {real} _.
Arguments mInputInfosArray {real} _.

Definition getValuesCount {real} (d : MeshVertexData real) : Z :=
  Z.of_nat (length (getValues d)).
Definition getNumInputInfos {real} (d : MeshVertexData real) : Z :=
  Z.of_nat (length (mInputInfosArray d)).

(** [COLLADAFW::Mesh]: identifier, name, primitives, the position values with
    their data type, the total face count, the name tables behind
    [getUVSetIndexByName] / [getColorIndexByName], and the normals, UV
    coordinates and colours with the number of normals. *)
Record Mesh (real : Type) : Type := mkMesh {
  getUniqueId : Z;
  getMeshName : string;
  getMeshPrimitives : list MeshPrimitive;
  getPositionsType : DataType;
  getPositionValues : list real;
  getFacesCount : Z;
  getUVSetIndexByName : string -> Z;
  getColorIndexByName : string -> Z;
  getNormalsCount : Z;
  getNormals : MeshVertexData real;
  getUVCoords : MeshVertexData real;
  getColors : MeshVertexData real }.
Arguments mkMesh {real} _ _ _ _ _ _ _ _ _ _ _ _.
Arguments getNormalsCount {real} _.
Arguments getNormals {real} _.
Arguments getUVCoords {real} _.
Arguments getColors {real} _.
Arguments getUniqueId {real} _.
Arguments getMeshName {real} _.
Arguments getMeshPrimitives {real} _.
Arguments getPositionsType {real} _.
Arguments getPositionValues {real} _.
Arguments getFacesCount {real} _.
Arguments getUVSetIndexByName {real} _ _.
Arguments getColorIndexByName {real} _ _.

(** ** Hole orientation: [getVertexPosition], [changeHoleOrientation] *)

(** With an unknown data type the source only reports the error (the
    [assert] is on a string literal) and returns uninitialised values. *)
Definition getVertexPosition {real} (mesh : Mesh real) (vertexIndex : Z)
  : Run (Vector3 real) :=
  match getPositionsType mesh with
  | DATA_TYPE_UNKNOWN => Abort Uninitialised
  | _ =>
      dx ← read (getPositionValues mesh) (to_size_t (vertexIndex * 3));
      dy ← read (getPositionValues mesh) (to_size_t (vertexIndex * 3 + 1));
      dz ← read (getPositionValues mesh) (to_size_t (vertexIndex * 3 + 2));
      Done (mkVector3 dx dy dz)
  end.

Definition changeHoleOrientation `{Scalar real}
    (polygonPoints holePoints : list (Vector3 real)) : Run bool :=
  pp0 ← read polygonPoints 0;
  pp1 ← read polygonPoints 1;
  pp2 ← read polygonPoints 2;
  let p1 := Vector3_sub pp1 pp0 in
  let p2 := Vector3_sub pp2 pp0 in
  let polyCrossProduct := crossProduct p1 p2 in
  hp0 ← read holePoints 0;
  hp1 ← read holePoints 1;
  hp2 ← read holePoints 2;
  let h1 := Vector3_sub hp1 hp0 in
  let h2 := Vector3_sub hp2 hp0 in
  let holeCrossProduct := crossProduct h1 h2 in
  Done (if real_gt (dotProduct polyCrossProduct holeCrossProduct) real_zero
        then true else false).

(** ** Attribute slicer: [setUVSetInfos], [setColorInfos] *)

(** The inner loop of both functions: cell [j] of a fresh [int] array of
    [numEdges] cells receives [getIndex (j + cursor) - getInitialIndex]
    ([unsigned int] minus [size_t], stored into an [int]). *)
Definition slice_indices (indexList : IndexList) (cursor numEdges : Z)
  : Run (list Z) :=
  for_loop (Z.to_nat numEdges) 0
    (fun j idValue =>
       let currentIndexPosition := to_size_t (j + cursor) in
       currentIndex ← read (getIndices indexList) currentIndexPosition;
       let initialIndex := getInitialIndex indexList in
       Done (<[Z.to_nat j := to_int (to_size_t (currentIndex - initialIndex))]> idValue))
    (new_int_array numEdges).

Definition setUVSetInfos {real} (mesh : Mesh real) (primitiveElement : MeshPrimitive)
    (polyFace : polyFaces) (uvSetIndicesIndex : Z) (numEdges : Z)
  : Run (polyFaces * Z) :=
  let uvSetIndicesArray := getUVCoordIndicesArray primitiveElement in
  let numUVSets := Z.of_nat (length uvSetIndicesArray) in
  mus ← mapM (fun indexList =>
                let uvSetName := getName indexList in
                let index := getUVSetIndexByName mesh uvSetName in
                ids ← slice_indices indexList uvSetIndicesIndex numEdges;
                Done (mkMU (to_int index) numEdges ids))
             uvSetIndicesArray;
  Done (set_mu polyFace mus numUVSets, to_size_t (uvSetIndicesIndex + numEdges)).

Definition setColorInfos {real} (mesh : Mesh real) (primitiveElement : MeshPrimitive)
    (polyFace : polyFaces) (colorIndicesIndex : Z) (numEdges : Z)
  : Run (polyFaces * Z) :=
  let colorIndicesArray := getColorIndicesArray primitiveElement in
  let numColorInputs := Z.of_nat (length colorIndicesArray) in
  mcs ← mapM (fun indexList =>
                let colorInputName := getName indexList in
                let index := getColorIndexByName mesh colorInputName in
                ids ← slice_indices indexList colorIndicesIndex numEdges;
                Done (mkMC (to_int index) numEdges ids))
             colorIndicesArray;
  Done (set_mc polyFace mcs numColorInputs, to_size_t (colorIndicesIndex + numEdges)).

(** ** Triangle fans and strips *)

(** The local variables of [appendTrifansPolyFaces] and
    [appendTristripsPolyFaces], with the faces appended to [meshNode]. *)
Record TriState : Type := mkTriState {
  st_polyFace : polyFaces;
  st_triangleEdgeCounter : Z;
  st_initialPositionIndex : Z;
  st_positionIndex : Z;
  st_uvSetIndicesIndex : Z;
  st_colorIndicesIndex : Z;
  st_meshNode : list polyFaces }.

(** A loop over the elements of an array, in order. *)
Fixpoint for_each {A St : Type} (body : St -> A -> Run St) (s : St) (l : list A)
  : Run St :=
  match l with
  | [] => Done s
  | a :: l' => s' ← body s a; for_each body s' l'
  end.

(** Body of the edge loop of [appendTrifansPolyFaces]. *)
Definition appendTrifansPolyFaces_edge {real} (mesh : Mesh real)
    (primitiveElement : MeshPrimitive) (edgeIndicesMap : EdgeIndicesMap)
    (st : TriState) : Run TriState :=
  let positionIndices := getPositionIndices primitiveElement in
  let polyFace :=
    if decide (st_triangleEdgeCounter st = 0)
    then set_f (st_polyFace st) 3 (new_int_array 3)
    else st_polyFace st in
  let triangleEdgeCounter := to_size_t (st_triangleEdgeCounter st + 1) in
  edgeStartVtxIndex ←
    (if decide (triangleEdgeCounter > 1)
     then read positionIndices (st_positionIndex st)
     else read positionIndices (st_initialPositionIndex st));
  '(edgeEndVtxIndex, positionIndex) ←
    (if decide (triangleEdgeCounter < 3)
     then let positionIndex := to_size_t (st_positionIndex st + 1) in
          v ← read positionIndices positionIndex; Done (v, positionIndex)
     else v ← read positionIndices (st_initialPositionIndex st);
          Done (v, st_positionIndex st));
  let edge := Edge_new (to_int edgeStartVtxIndex) (to_int edgeEndVtxIndex) in
  edgeIndexValue ← getEdgeIndex edge edgeIndicesMap;
  let polyFace :=
    set_f_edgeIdValue polyFace
      (<[Z.to_nat (triangleEdgeCounter - 1) := edgeIndexValue]> (f_edgeIdValue polyFace)) in
  if decide (triangleEdgeCounter = 3) then
    let triangleEdgeCounter := 0 in
    let positionIndex := to_size_t (positionIndex - 1) in
    '(polyFace, uvSetIndicesIndex) ←
      setUVSetInfos mesh primitiveElement polyFace (st_uvSetIndicesIndex st) 3;
    let uvSetIndicesIndex := to_size_t (uvSetIndicesIndex - 2) in
    '(polyFace, colorIndicesIndex) ←
      setColorInfos mesh primitiveElement polyFace (st_colorIndicesIndex st) 3;
    let colorIndicesIndex := to_size_t (colorIndicesIndex - 2) in
    Done (mkTriState polyFace triangleEdgeCounter (st_initialPositionIndex st)
            positionIndex uvSetIndicesIndex colorIndicesIndex
            (st_meshNode st ++ [polyFace]))
  else
    Done (mkTriState polyFace triangleEdgeCounter (st_initialPositionIndex st)
            positionIndex (st_uvSetIndicesIndex st) (st_colorIndicesIndex st)
            (st_meshNode st)).

(** Body of the loop of [appendTrifansPolyFaces] over the grouped vertices:
    a fresh [polyFace] and edge counter, [numEdges = (vertexCount - 3) * 3
    + 3] edge steps (in [unsigned int]), then the updates that close the
    fan. *)
Definition appendTrifansPolyFaces_group {real} (mesh : Mesh real)
    (primitiveElement : MeshPrimitive) (edgeIndicesMap : EdgeIndicesMap)
    (st : TriState) (vertexCount : Z) : Run TriState :=
  let st0 := mkTriState polyFaces_new 0 (st_initialPositionIndex st)
               (st_positionIndex st) (st_uvSetIndicesIndex st)
               (st_colorIndicesIndex st) (st_meshNode st) in
  let numEdges := to_uint ((vertexCount - 3) * 3 + 3) in
  st1 ← for_loop (Z.to_nat numEdges) 0
          (fun _ => appendTrifansPolyFaces_edge mesh primitiveElement edgeIndicesMap) st0;
  let positionIndex := to_size_t (st_positionIndex st1 + 2) in
  Done (mkTriState (st_polyFace st1) (st_triangleEdgeCounter st1)
          (to_size_t (st_initialPositionIndex st1 + vertexCount))
          positionIndex
          (to_size_t (st_uvSetIndicesIndex st1 + 2))
          (to_size_t (st_colorIndicesIndex st1 + 2))
          (st_meshNode st1)).

(** Body of the edge loop of [appendTristripsPolyFaces]: every edge starts
    at [positionIndices[positionIndex]], and [initialPositionIndex] follows
    the position cursor after each triangle. *)
Definition appendTristripsPolyFaces_edge {real} (mesh : Mesh real)
    (primitiveElement : MeshPrimitive) (edgeIndicesMap : EdgeIndicesMap)
    (st : TriState) : Run TriState :=
  let positionIndices := getPositionIndices primitiveElement in
  let polyFace :=
    if decide (st_triangleEdgeCounter st = 0)
    then set_f (st_polyFace st) 3 (new_int_array 3)
    else st_polyFace st in
  let triangleEdgeCounter := to_size_t (st_triangleEdgeCounter st + 1) in
  edgeStartVtxIndex ← read positionIndices (st_positionIndex st);
  '(edgeEndVtxIndex, positionIndex) ←
    (if decide (triangleEdgeCounter < 3)
     then let positionIndex := to_size_t (st_positionIndex st + 1) in
          v ← read positionIndices positionIndex; Done (v, positionIndex)
     else v ← read positionIndices (st_initialPositionIndex st);
          Done (v, st_positionIndex st));
  let edge := Edge_new (to_int edgeStartVtxIndex) (to_int edgeEndVtxIndex) in
  edgeIndexValue ← getEdgeIndex edge edgeIndicesMap;
  let polyFace :=
    set_f_edgeIdValue polyFace
      (<[Z.to_nat (triangleEdgeCounter - 1) := edgeIndexValue]> (f_edgeIdValue polyFace)) in
  if decide (triangleEdgeCounter = 3) then
    let triangleEdgeCounter := 0 in
    let positionIndex := to_size_t (positionIndex - 1) in
    let initialPositionIndex := positionIndex in
    '(polyFace, uvSetIndicesIndex) ←
      setUVSetInfos mesh primitiveElement polyFace (st_uvSetIndicesIndex st) 3;
    let uvSetIndicesIndex := to_size_t (uvSetIndicesIndex - 2) in
    '(polyFace, colorIndicesIndex) ←
      setColorInfos mesh primitiveElement polyFace (st_colorIndicesIndex st) 3;
    let colorIndicesIndex := to_size_t (colorIndicesIndex - 2) in
    Done (mkTriState polyFace triangleEdgeCounter initialPositionIndex positionIndex
            uvSetIndicesIndex colorIndicesIndex (st_meshNode st ++ [polyFace]))
  else
    Done (mkTriState polyFace triangleEdgeCounter (st_initialPositionIndex st)
            positionIndex (st_uvSetIndicesIndex st) (st_colorIndicesIndex st)
            (st_meshNode st)).

(** Body of the loop of [appendTristripsPolyFaces] over the grouped
    vertices.  After the edge steps [initialPositionIndex] is set to the
    position cursor and both attribute cursors are moved back by two. *)
Definition appendTristripsPolyFaces_group {real} (mesh : Mesh real)
    (primitiveElement : MeshPrimitive) (edgeIndicesMap : EdgeIndicesMap)
    (st : TriState) (vertexCount : Z) : Run TriState :=
  let st0 := mkTriState polyFaces_new 0 (st_initialPositionIndex st)
               (st_positionIndex st) (st_uvSetIndicesIndex st)
               (st_colorIndicesIndex st) (st_meshNode st) in
  let numEdges := to_uint ((vertexCount - 3) * 3 + 3) in
  st1 ← for_loop (Z.to_nat numEdges) 0
          (fun _ => appendTristripsPolyFaces_edge mesh primitiveElement edgeIndicesMap) st0;
  let positionIndex := to_size_t (st_positionIndex st1 + 2) in
  Done (mkTriState (st_polyFace st1) (st_triangleEdgeCounter st1)
          positionIndex
          positionIndex
          (to_size_t (st_uvSetIndicesIndex st1 - 2))
          (to_size_t (st_colorIndicesIndex st1 - 2))
          (st_meshNode st1)).

(** The local variables at the start of both functions. *)
Definition tri_start (meshNode : list polyFaces) : TriState :=
  mkTriState polyFaces_new 0 0 0 0 0 meshNode.

Definition appendTrifansPolyFaces {real} (mesh : Mesh real)
    (primitiveElement : MeshPrimitive) (edgeIndicesMap : EdgeIndicesMap)
    (meshNode : list polyFaces) : Run (list polyFaces) :=
  st ← for_each (appendTrifansPolyFaces_group mesh primitiveElement edgeIndicesMap)
         (tri_start meshNode)
         (getGroupedVerticesVertexCountArray primitiveElement);
  Done (st_meshNode st).

Definition appendTristripsPolyFaces {real} (mesh : Mesh real)
    (primitiveElement : MeshPrimitive) (edgeIndicesMap : EdgeIndicesMap)
    (meshNode : list polyFaces) : Run (list polyFaces) :=
  st ← for_each (appendTristripsPolyFaces_group mesh primitiveElement edgeIndicesMap)
         (tri_start meshNode)
         (getGroupedVerticesVertexCountArray primitiveElement);
  Done (st_meshNode st).

(** ** Polygons, polylists and triangles *)

(** State of the edge loops of [setPolygonFaceInfos] and
    [setPolygonHoleInfos]: the id array being filled, the position cursor
    and the collected points (polygon points for a face, hole points for a
    hole). *)
Record EdgeLoop (real : Type) : Type := mkEdgeLoop {
  el_edgeIdValue : list Z;
  el_positionIndex : Z;
  el_points : list (Vector3 real) }.
Arguments mkEdgeLoop {real} _ _ _.
Arguments el_edgeIdValue {real} _.
Arguments el_positionIndex {real} _.
Arguments el_points {real} _.

(** The start and end vertex of edge [edgeIndex], and the cursor after it. *)
Definition polygon_edge_vertices (positionIndices : list Z)
    (numEdges edgeIndex positionIndex : Z) : Run (Z * Z * Z) :=
  edgeStartVtxIndex ← read positionIndices positionIndex;
  if decide (edgeIndex < to_int (numEdges - 1)) then
    let positionIndex := to_size_t (positionIndex + 1) in
    edgeEndVtxIndex ← read positionIndices positionIndex;
    Done (to_int edgeStartVtxIndex, to_int edgeEndVtxIndex, positionIndex)
  else
    edgeEndVtxIndex ← read positionIndices (to_size_t (positionIndex - numEdges + 1));
    Done (to_int edgeStartVtxIndex, to_int edgeEndVtxIndex, positionIndex).

Definition setPolygonFaceInfos {real} (mesh : Mesh real)
    (primitiveElement : MeshPrimitive) (edgeIndicesMap : EdgeIndicesMap)
    (polyFace : polyFaces) (numEdges : Z) (positionIndex : Z)
    (polygonPoints : list (Vector3 real))
  : Run (polyFaces * Z * list (Vector3 real)) :=
  let positionIndices := getPositionIndices primitiveElement in
  el ← for_loop (Z.to_nat numEdges) 0
         (fun edgeIndex el =>
            '(edgeStartVtxIndex, edgeEndVtxIndex, positionIndex) ←
              polygon_edge_vertices positionIndices numEdges edgeIndex
                (el_positionIndex el);
            let edge := Edge_new edgeStartVtxIndex edgeEndVtxIndex in
            let primitiveType := getPrimitiveType primitiveElement in
            polygonPoints ←
              (if decide (primitiveType = POLYGONS ∧ edgeIndex < 3) then
                 let polygonPoints :=
                   if decide (edgeIndex = 0 ∧ Z.of_nat (length (el_points el)) > 0)
                   then [] else el_points el in
                 p ← getVertexPosition mesh (to_size_t edgeStartVtxIndex);
                 Done (polygonPoints ++ [p])
               else Done (el_points el));
            edgeIndexValue ← getEdgeIndex edge edgeIndicesMap;
            Done (mkEdgeLoop (<[Z.to_nat edgeIndex := edgeIndexValue]> (el_edgeIdValue el))
                    positionIndex polygonPoints))
         (mkEdgeLoop (new_int_array numEdges) positionIndex polygonPoints);
  Done (set_f polyFace numEdges (el_edgeIdValue el),
        to_size_t (el_positionIndex el + 1), el_points el).

(** [numEdges] is passed by reference and negated; the new value is
    returned with the face and the cursor. *)
Definition setPolygonHoleInfos `{Scalar real} (mesh : Mesh real)
    (primitiveElement : MeshPrimitive) (edgeIndicesMap : EdgeIndicesMap)
    (polyFace : polyFaces) (numEdges : Z) (positionIndex : Z)
    (polygonPoints : list (Vector3 real))
  : Run (polyFaces * Z * Z) :=
  let positionIndices := getPositionIndices primitiveElement in
  let numEdges := to_int (numEdges * (-1)) in
  el ← for_loop (Z.to_nat numEdges) 0
         (fun edgeIndex el =>
            '(edgeStartVtxIndex, edgeEndVtxIndex, positionIndex) ←
              polygon_edge_vertices positionIndices numEdges edgeIndex
                (el_positionIndex el);
            let edge := Edge_new edgeStartVtxIndex edgeEndVtxIndex in
            holePoints ←
              (if decide (edgeIndex < 3) then
                 p ← getVertexPosition mesh (to_size_t edgeStartVtxIndex);
                 Done (el_points el ++ [p])
               else Done (el_points el));
            edgeIndexValue ← getEdgeIndex edge edgeIndicesMap;
            Done (mkEdgeLoop (<[Z.to_nat edgeIndex := edgeIndexValue]> (el_edgeIdValue el))
                    positionIndex holePoints))
         (mkEdgeLoop (new_int_array numEdges) positionIndex []);
  let polyFace := set_h polyFace numEdges (el_edgeIdValue el) in
  change ← changeHoleOrientation polygonPoints (el_points el);
  polyFace ← (if change : bool then changePolyFaceHoleOrientation polyFace
              else Done polyFace);
  Done (polyFace, numEdges, to_size_t (el_positionIndex el + 1)).

(** The local variables of [appendPolygonPolyFaces]. *)
Record PolyState (real : Type) : Type := mkPolyState {
  ps_positionIndex : Z;
  ps_uvSetIndicesIndex : Z;
  ps_colorIndicesIndex : Z;
  ps_polygonPoints : list (Vector3 real);
  ps_meshNode : list polyFaces }.
Arguments mkPolyState {real} _ _ _ _ _.
Arguments ps_positionIndex {real} _.
Arguments ps_uvSetIndicesIndex {real} _.
Arguments ps_colorIndicesIndex {real} _.
Arguments ps_polygonPoints {real} _.
Arguments ps_meshNode {real} _.

(** Body of the loop over the grouped vertex elements. *)
Definition polygon_group `{Scalar real} (mesh : Mesh real)
    (primitiveElement : MeshPrimitive) (edgeIndicesMap : EdgeIndicesMap)
    (groupedVtxIndex : Z) (st : PolyState real) : Run (PolyState real) :=
  numVertices ← getGroupedVerticesVertexCount primitiveElement (to_size_t groupedVtxIndex);
  let numEdges := to_int numVertices in
  let polyFace := polyFaces_new in
  '(polyFace, numEdges, positionIndex, polygonPoints) ←
    (if decide (numEdges >= 0) then
       '(polyFace, positionIndex, polygonPoints) ←
         setPolygonFaceInfos mesh primitiveElement edgeIndicesMap polyFace
           numEdges (ps_positionIndex st) (ps_polygonPoints st);
       Done (polyFace, numEdges, positionIndex, polygonPoints)
     else
       '(polyFace, numEdges, positionIndex) ←
         setPolygonHoleInfos mesh primitiveElement edgeIndicesMap polyFace
           numEdges (ps_positionIndex st) (ps_polygonPoints st);
       Done (polyFace, numEdges, positionIndex, ps_polygonPoints st));
  '(polyFace, uvSetIndicesIndex) ←
    setUVSetInfos mesh primitiveElement polyFace (ps_uvSetIndicesIndex st) numEdges;
  '(polyFace, colorIndicesIndex) ←
    setColorInfos mesh primitiveElement polyFace (ps_colorIndicesIndex st) numEdges;
  Done (mkPolyState positionIndex uvSetIndicesIndex colorIndicesIndex polygonPoints
          (ps_meshNode st ++ [polyFace])).

Definition appendPolygonPolyFaces `{Scalar real} (mesh : Mesh real)
    (primitiveElement : MeshPrimitive) (edgeIndicesMap : EdgeIndicesMap)
    (meshNode : list polyFaces) : Run (list polyFaces) :=
  let groupedVerticesCount := to_int (getGroupedVertexElementsCount primitiveElement) in
  let groupedVerticesCount :=
    if decide (groupedVerticesCount < 0) then to_int (groupedVerticesCount * (-1))
    else groupedVerticesCount in
  st ← for_loop (Z.to_nat groupedVerticesCount) 0
         (polygon_group mesh primitiveElement edgeIndicesMap)
         (mkPolyState 0 0 0 [] meshNode);
  Done (ps_meshNode st).

(** ** [writeFaces] *)

(** Nothing is written for a mesh without faces; a primitive of another
    type is reported and skipped (the [assert] is on a string literal). *)
Definition writeFaces `{Scalar real} (mesh : Mesh real)
    (edgeIndicesMap : EdgeIndicesMap) : Run (list polyFaces) :=
  let numFaces := getFacesCount mesh in
  if decide (numFaces <= 0) then Done []
  else
    for_each
      (fun meshNode primitiveElement =>
         match getPrimitiveType primitiveElement with
         | TRIANGLE_FANS =>
             appendTrifansPolyFaces mesh primitiveElement edgeIndicesMap meshNode
         | TRIANGLE_STRIPS =>
             appendTristripsPolyFaces mesh primitiveElement edgeIndicesMap meshNode
         | POLYGONS | POLYLIST | TRIANGLES =>
             appendPolygonPolyFaces mesh primitiveElement edgeIndicesMap meshNode
         | OTHER_PRIMITIVE_TYPE => Done meshNode
         end)
      [] (getMeshPrimitives mesh).


(** ** The value streams of the mesh node *)

(** The calls on the [MayaDM::Mesh] node that write the value streams, in
    the order in which they are made. *)
Inductive MeshCommand (real : Type) : Type :=
  | startVrts (first last : Z)
  | appendVrts (v : real)
  | endVrts
  | startNormals (first last : Z)
  | appendNormals (v : real)
  | endNormals
  | setUvSize (n : Z)
  | setUvSetName (i : Z) (name : string)
  | startUvSetPoints (i first last : Z)
  | appendUvSetPoints (v : real)
  | endUvSetPoints
  | setColorName (i : Z) (name : string)
  | setRepresentation (i representation : Z)
  | startColorSetPoints (i first last : Z)
  | appendColorSetPoints (v : real)
  | endColorSetPoints
  | startEdge (first last : Z)
  | appendEdge (v : Z)
  | endEdge.
Arguments startVrts {real} _ _.
Arguments appendVrts {real} _.
Arguments endVrts {real}.
Arguments startNormals {real} _ _.
Arguments appendNormals {real} _.
Arguments endNormals {real}.
Arguments setUvSize {real} _.
Arguments setUvSetName {real} _ _.
Arguments startUvSetPoints {real} _ _ _.
Arguments appendUvSetPoints {real} _.
Arguments endUvSetPoints {real}.
Arguments setColorName {real} _ _.
Arguments setRepresentation {real} _ _.
Arguments startColorSetPoints {real} _ _ _.
Arguments appendColorSetPoints {real} _.
Arguments endColorSetPoints {real}.
Arguments startEdge {real} _ _.
Arguments appendEdge {real} _.
Arguments endEdge {real}.

(** The unit conversion of the importer ([toLinearUnit], declared outside
    the sources) and the cast [(float)], both kept abstract. *)
Class Units (real : Type) : Type := {
  toLinearUnit : real -> real -> real -> Vector3 real;
  to_float : real -> real }.

(** [for (size_t i = 0; i < count; i += stride) body].  With [stride >= 1]
    the loop makes at most [count] rounds, which is the fuel its callers
    give it; the callers never reach it with a stride of 0. *)
Fixpoint for_stride {St : Type} (fuel : nat) (i count stride : Z)
    (body : Z -> St -> Run St) (s : St) : Run St :=
  match fuel with
  | O => Done s
  | S fuel =>
      if decide (i < count) then
        s' ← body i s;
        for_stride fuel (to_size_t (i + stride)) count stride body s'
      else Done s
  end.

(** [writeVertexPositions]: with an unknown data type the source only
    reports the error. *)
Definition writeVertexPositions `{Units real} (mesh : Mesh real)
    (meshNode : list (MeshCommand real)) : Run (list (MeshCommand real)) :=
  let stride := 3 in
  match getPositionsType mesh with
  | DATA_TYPE_UNKNOWN => Done meshNode
  | _ =>
      let values := getPositionValues mesh in
      let count := Z.of_nat (length values) in
      let meshNode := meshNode ++ [startVrts 0 (to_size_t (count / stride - 1))] in
      meshNode ← for_stride (Z.to_nat count) 0 count stride
        (fun i meshNode =>
           x ← read values i;
           y ← read values (to_size_t (i + 1));
           z ← read values (to_size_t (i + 2));
           let converted := toLinearUnit x y z in
           Done (meshNode ++ [appendVrts (to_float (vx converted));
                              appendVrts (to_float (vy converted));
                              appendVrts (to_float (vz converted))]))
        meshNode;
      Done (meshNode ++ [endVrts])
  end.

(** The cast applied to a value of the array: the [float] values are
    written as they are, the [double] values are cast to [float]. *)
Definition cast_value `{Units real} (type : DataType) (v : real) : real :=
  match type with
  | DATA_TYPE_DOUBLE => to_float v
  | _ => v
  end.

(** The body of the loop of [writeUVSets] over the inputs, the same for
    both data types but for the cast.  The state of the loop is the mesh
    node and [initialIndex]; of every element the first two values are
    written. *)
Definition writeUVSets_input `{Units real} (uvCoords : MeshVertexData real)
    (i : Z) (st : list (MeshCommand real) * Z) : Run (list (MeshCommand real) * Z) :=
  let type := getType uvCoords in
  let values := getValues uvCoords in
  let '(meshNode, initialIndex) := st in
  info ← read (mInputInfosArray uvCoords) i;
  let meshNode := meshNode ++ [setUvSetName i (mName info)] in
  let stride := mStride info in
  if decide (stride > 1 /\ stride <= 4) then
    let indicesCount := mLength info in
    let meshNode :=
      meshNode ++ [startUvSetPoints i 0 (to_size_t (indicesCount / stride - 1))] in
    meshNode ← for_stride (Z.to_nat indicesCount) 0 indicesCount stride
      (fun i meshNode =>
         u ← read values (to_size_t (initialIndex + i));
         v ← read values (to_size_t (initialIndex + i + 1));
         Done (meshNode ++ [appendUvSetPoints (cast_value type u);
                            appendUvSetPoints (cast_value type v)]))
      meshNode;
    let meshNode := meshNode ++ [endUvSetPoints] in
    Done (meshNode, to_size_t (initialIndex + indicesCount))
  else Abort AssertionFailed.

(** [writeUVSets]. *)
Definition writeUVSets `{Units real} (mesh : Mesh real)
    (meshNode : list (MeshCommand real)) : Run (list (MeshCommand real)) :=
  let uvCoords := getUVCoords mesh in
  let sumUVSetPoints := getNumInputInfos uvCoords in
  if decide (sumUVSetPoints = 0) then Done meshNode
  else
    let meshNode := meshNode ++ [setUvSize sumUVSetPoints] in
    match getType uvCoords with
    | DATA_TYPE_UNKNOWN => Done meshNode
    | _ =>
        st ← for_loop (Z.to_nat sumUVSetPoints) 0 (writeUVSets_input uvCoords)
               (meshNode, 0);
        Done (fst st)
    end.

(** The body of the loop of [writeColorSets] over the inputs.  The
    [assert] lets every stride up to 4 pass; the division by a stride of 0
    is undefined. *)
Definition writeColorSets_input `{Units real} (colors : MeshVertexData real)
    (i : Z) (st : list (MeshCommand real) * Z) : Run (list (MeshCommand real) * Z) :=
  let type := getType colors in
  let values := getValues colors in
  let '(meshNode, initialIndex) := st in
  info ← read (mInputInfosArray colors) i;
  let meshNode := meshNode ++ [setColorName i (mName info)] in
  let stride := mStride info in
  if decide (stride = 1 \/ stride = 3 \/ stride <= 4) then
    let representation :=
      if decide (stride = 1) then 1
      else if decide (stride = 3) then 3 else 2 in
    let meshNode := meshNode ++ [setRepresentation i representation] in
    let indicesCount := mLength info in
    if decide (stride = 0) then Abort DivisionByZero
    else
      let meshNode :=
        meshNode ++
        [startColorSetPoints i 0 (to_size_t (indicesCount / stride - 1))] in
      meshNode ← for_stride (Z.to_nat indicesCount) 0 indicesCount stride
        (fun i meshNode =>
           for_loop (Z.to_nat stride) 0
             (fun j meshNode =>
                c ← read values (to_size_t (initialIndex + i + j));
                Done (meshNode ++ [appendColorSetPoints (cast_value type c)]))
             meshNode)
        meshNode;
      let meshNode := meshNode ++ [endColorSetPoints] in
      Done (meshNode, to_size_t (initialIndex + indicesCount))
  else Abort AssertionFailed.

(** [writeColorSets]. *)
Definition writeColorSets `{Units real} (mesh : Mesh real)
    (meshNode : list (MeshCommand real)) : Run (list (MeshCommand real)) :=
  let colors := getColors mesh in
  let sumColorSetPoints := getNumInputInfos colors in
  if decide (sumColorSetPoints = 0) then Done meshNode
  else
    match getType colors with
    | DATA_TYPE_UNKNOWN => Done meshNode
    | _ =>
        st ← for_loop (Z.to_nat sumColorSetPoints) 0 (writeColorSets_input colors)
               (meshNode, 0);
        Done (fst st)
    end.

(** Modelled from the spec: [Edge::operator[]] gives the two vertex indices
    of the edge as it is stored. *)
Definition Edge_at (edge : Edge) (i : Z) : Z :=
  if decide (i = 0) then fst (mVertexIndices edge) else snd (mVertexIndices edge).

(** [writeEdges]: every edge is written as hard. *)
Definition writeEdges {real} (edgeIndices : list Edge)
    (meshNode : list (MeshCommand real)) : list (MeshCommand real) :=
  let numEdges := Z.of_nat (length edgeIndices) in
  if decide (numEdges > 0) then
    let edgh := 0 in
    let meshNode := meshNode ++ [startEdge 0 (to_size_t (numEdges - 1))] in
    let meshNode :=
      foldl (fun meshNode edge =>
               meshNode ++ [appendEdge (Edge_at edge 0); appendEdge (Edge_at edge 1);
                            appendEdge edgh])
            meshNode edgeIndices in
    meshNode ++ [endEdge]
  else meshNode.

(** [appendNormalValues] and [writeNormals].  [pos] is an [unsigned int]. *)
Definition appendNormalValues `{Units real} (mesh : Mesh real)
    (meshNode : list (MeshCommand real)) : Run (list (MeshCommand real)) :=
  let normals := getNormals mesh in
  let stride := 3 in
  for_each
    (fun meshNode meshPrimitive =>
       let normalIndices := getNormalIndices meshPrimitive in
       for_each
         (fun meshNode normalIndex =>
            let pos := to_uint (normalIndex * stride) in
            let type := getType normals in
            match type with
            | DATA_TYPE_UNKNOWN => Done meshNode
            | _ =>
                let values := getValues normals in
                a ← read values pos;
                b ← read values (to_uint (pos + 1));
                c ← read values (to_uint (pos + 2));
                Done (meshNode ++ [appendNormals (cast_value type a);
                                   appendNormals (cast_value type b);
                                   appendNormals (cast_value type c)])
            end)
         meshNode normalIndices)
    meshNode (getMeshPrimitives mesh).

Definition writeNormals `{Units real} (mesh : Mesh real)
    (meshNode : list (MeshCommand real)) : Run (list (MeshCommand real)) :=
  let numNormals := getNormalsCount mesh in
  if decide (numNormals > 0) then
    let meshNode := meshNode ++ [startNormals 0 (to_size_t (numNormals - 1))] in
    meshNode ← appendNormalValues mesh meshNode;
    Done (meshNode ++ [endNormals])
  else Done meshNode.

(** ** Mesh assembly and instancing *)

(** One [setObjectGrpCompList ( j, i, "f[first:last]" )] written for
    instance [j] and primitive [i]; the two numbers are the [size_t] values
    printed into the component string. *)
Record ObjectGrpCompList : Type := mkObjectGrpCompList {
  og_instance : Z;
  og_group : Z;
  og_first : Z;
  og_last : Z }.

(** Inner loop of [writeObjectGroups], over the primitives from index [i]. *)
Fixpoint objectGroups_from (j i initialFaceIndex : Z)
    (meshPrimitives : list MeshPrimitive) : list ObjectGrpCompList :=
  match meshPrimitives with
  | [] => []
  | meshPrimitive :: rest =>
      let numFaces := to_size_t (getGroupedVertexElementsCount meshPrimitive) in
      let val := mkObjectGrpCompList j i initialFaceIndex
                   (to_size_t (numFaces - 1 + initialFaceIndex)) in
      let initialFaceIndex := to_size_t (initialFaceIndex + numFaces) in
      val :: objectGroups_from j (i + 1) initialFaceIndex rest
  end.

Definition writeObjectGroups {real} (mesh : Mesh real) (numNodeInstances : Z)
  : list ObjectGrpCompList :=
  let meshPrimitives := getMeshPrimitives mesh in
  let meshPrimitivesCount := Z.of_nat (length meshPrimitives) in
  if decide (meshPrimitivesCount <= 1) then []
  else
    mjoin ((fun j => objectGroups_from j 0 0 meshPrimitives)
             <$> seqZ 0 numNodeInstances).

(** [MayaNode]: identifier, name and parent node (the pointer to the parent
    is kept as the parent's identifier). *)
Record MayaNode : Type := mkMayaNode {
  node_uniqueId : Z;
  node_name : string;
  node_parent : option Z }.

(** [GroupIdAssignment ( groupId, geometryId, geometryInstanceIndex,
    primitiveIndex )]; the generated group name is left out. *)
Record GroupIdAssignment : Type := mkGroupIdAssignment {
  ga_geometryId : Z;
  ga_geometryInstanceIndex : Z;
  ga_primitiveIndex : Z }.

(** What [createMesh] writes for the primary instance: the object groups,
    the value streams (vertex positions, normals, UV sets, colour sets and
    edges, as the calls made on the mesh node) and the faces. *)
Record MeshData (real : Type) : Type := mkMeshData {
  md_geometryId : Z;
  md_transformNode : MayaNode;
  md_objectGroups : list ObjectGrpCompList;
  md_values : list (MeshCommand real);
  md_faces : list polyFaces }.
Arguments mkMeshData {real} _ _ _ _ _.
Arguments md_geometryId {real} _.
Arguments md_transformNode {real} _.
Arguments md_objectGroups {real} _.
Arguments md_values {real} _.
Arguments md_faces {real} _.

(** The items written to the Maya file. *)
Inductive Emission (real : Type) : Type :=
  | CreateMesh (data : MeshData real)
  | ParentShape (mayaMeshNode : MayaNode) (mayaTransformNode : MayaNode)
  | CreateGroupId (assignment : GroupIdAssignment).
Arguments CreateMesh {real} _.
Arguments ParentShape {real} _ _.
Arguments CreateGroupId {real} _.

(** The members of [GeometryImporter] and the output file. *)
Record GeometryImporter (real : Type) : Type := mkGeometryImporter {
  mMayaMeshNodesMap : gmap Z MayaNode;
  mGroupIdAssignments : list GroupIdAssignment;
  mShadingEnginePrimitivesMap : gmap (Z * Z) (list Z);
  file : list (Emission real) }.
Arguments mkGeometryImporter {real} _ _ _ _.
Arguments mMayaMeshNodesMap {real} _.
Arguments mGroupIdAssignments {real} _.
Arguments mShadingEnginePrimitivesMap {real} _.
Arguments file {real} _.

(** The two lookups of [VisualSceneImporter] used by [importMesh]. *)
Record VisualSceneImporter : Type := mkVisualSceneImporter {
  geometryTransformIds : gmap Z (list Z);
  mayaTransformNodes : gmap Z MayaNode }.

Definition findGeometryTransformIds (v : VisualSceneImporter) (geometryId : Z)
  : Run (list Z) :=
  match geometryTransformIds v !! geometryId with
  | Some ids => Done ids
  | None => Abort NullPointer
  end.

Definition findMayaTransformNode (v : VisualSceneImporter) (transformNodeId : Z)
  : Run MayaNode :=
  match mayaTransformNodes v !! transformNodeId with
  | Some node => Done node
  | None => Abort NullPointer
  end.

Definition findMayaMeshNode {real} (g : GeometryImporter real) (uniqueId : Z)
  : option MayaNode :=
  mMayaMeshNodesMap g !! uniqueId.

Definition emit {real} (g : GeometryImporter real) (e : Emission real)
  : GeometryImporter real :=
  mkGeometryImporter (mMayaMeshNodesMap g) (mGroupIdAssignments g)
    (mShadingEnginePrimitivesMap g) (file g ++ [e]).

Definition createGroupNodes {real} (mesh : Mesh real) (geometryInstanceIndex : Z)
    (g : GeometryImporter real) : GeometryImporter real :=
  let geometryId := getUniqueId mesh in
  let meshPrimitivesCount := Z.of_nat (length (getMeshPrimitives mesh)) in
  if decide (meshPrimitivesCount <= 1) then g
  else
    foldl (fun g primitiveIndex =>
             let groupIdAssignment :=
               mkGroupIdAssignment geometryId geometryInstanceIndex primitiveIndex in
             let g := emit g (CreateGroupId groupIdAssignment) in
             mkGeometryImporter (mMayaMeshNodesMap g)
               (mGroupIdAssignments g ++ [groupIdAssignment])
               (mShadingEnginePrimitivesMap g) (file g))
          g (seqZ 0 meshPrimitivesCount).

Definition getEdgeIndices {real} (mesh : Mesh real) : list Edge * EdgeIndicesMap :=
  foldl (fun acc primitiveElement => appendEdgeIndices primitiveElement acc)
        ([], ∅) (getMeshPrimitives mesh).

Definition setShadingEnginePrimitiveIndex (geometryId shadingEngineId primitiveIndex : Z)
    (m : gmap (Z * Z) (list Z)) : gmap (Z * Z) (list Z) :=
  let combinedId := (geometryId, shadingEngineId) in
  <[combinedId := default [] (m !! combinedId) ++ [primitiveIndex]]> m.

Fixpoint setMeshPrimitiveShadingEngines_from (geometryId primitiveIndex : Z)
    (meshPrimitives : list MeshPrimitive) (m : gmap (Z * Z) (list Z))
  : gmap (Z * Z) (list Z) :=
  match meshPrimitives with
  | [] => m
  | meshPrimitive :: rest =>
      setMeshPrimitiveShadingEngines_from geometryId (primitiveIndex + 1) rest
        (setShadingEnginePrimitiveIndex geometryId (getMaterialId meshPrimitive)
           primitiveIndex m)
  end.

(** [createMesh]: registers the mesh node, then writes the object groups,
    the vertex positions, the normals, the UV sets, the colour sets, the
    edges and the faces, and fills the shading-engine map.  [importMesh]
    has already dereferenced the transform node, so its [NULL] branch is
    not reached.  Node names are not made unique here. *)
Definition createMesh `{Scalar real} `{Units real} (mesh : Mesh real)
    (mayaTransformNode : MayaNode) (numNodeInstances : Z) (g : GeometryImporter real)
  : Run (GeometryImporter real) :=
  let meshName := if decide (getMeshName mesh = "") then "Geometry" else getMeshName mesh in
  let uniqueId := getUniqueId mesh in
  let mayaMeshNode :=
    mkMayaNode uniqueId meshName (Some (node_uniqueId mayaTransformNode)) in
  let nodes := <[uniqueId := mayaMeshNode]> (mMayaMeshNodesMap g) in
  let objectGroups := writeObjectGroups mesh numNodeInstances in
  meshNode ← writeVertexPositions mesh [];
  meshNode ← writeNormals mesh meshNode;
  meshNode ← writeUVSets mesh meshNode;
  meshNode ← writeColorSets mesh meshNode;
  let '(edgeIndices, edgeIndicesMap) := getEdgeIndices mesh in
  let meshNode := writeEdges edgeIndices meshNode in
  faces ← writeFaces mesh edgeIndicesMap;
  let data := mkMeshData uniqueId mayaTransformNode objectGroups meshNode faces in
  Done (mkGeometryImporter nodes (mGroupIdAssignments g)
          (setMeshPrimitiveShadingEngines_from uniqueId 0 (getMeshPrimitives mesh)
             (mShadingEnginePrimitivesMap g))
          (file g ++ [CreateMesh data])).

(** Body of the [while] loop of [importMesh].  [geometryInstanceIndex] is
    incremented together with [nodesIter], so [nodesIter ==
    transformNodes->begin()] is the test [geometryInstanceIndex = 0]. *)
Definition importMesh_node `{Scalar real} `{Units real} (v : VisualSceneImporter)
    (mesh : Mesh real) (numNodeInstances : Z) (st : GeometryImporter real * Z)
    (transformNodeId : Z) : Run (GeometryImporter real * Z) :=
  let '(g, geometryInstanceIndex) := st in
  let geometryId := getUniqueId mesh in
  mayaTransformNode ← findMayaTransformNode v transformNodeId;
  g ← (if decide (geometryInstanceIndex = 0) then
         createMesh mesh mayaTransformNode numNodeInstances g
       else
         match findMayaMeshNode g geometryId with
         | Some mayaMeshNode => Done (emit g (ParentShape mayaMeshNode mayaTransformNode))
         | None => Abort NullPointer
         end);
  let g := createGroupNodes mesh geometryInstanceIndex g in
  Done (g, to_size_t (geometryInstanceIndex + 1)).

Definition importMesh `{Scalar real} `{Units real} (v : VisualSceneImporter)
    (mesh : Mesh real) (g : GeometryImporter real) : Run (GeometryImporter real) :=
  let geometryId := getUniqueId mesh in
  transformNodes ← findGeometryTransformIds v geometryId;
  let numNodeInstances := Z.of_nat (length transformNodes) in
  st ← for_each (importMesh_node v mesh numNodeInstances) (g, 0) transformNodes;
  Done (fst st).

(** [COLLADAFW::Geometry]: a mesh, or a geometry of another type. *)
Inductive Geometry (real : Type) : Type :=
  | GEO_TYPE_MESH (mesh : Mesh real)
  | GEO_TYPE_SPLINE (uniqueId : Z)
  | GEO_TYPE_CONVEX_MESH (uniqueId : Z)
  | GEO_TYPE_UNKNOWN (uniqueId : Z).
Arguments GEO_TYPE_MESH {real} _.
Arguments GEO_TYPE_SPLINE {real} _.
Arguments GEO_TYPE_CONVEX_MESH {real} _.
Arguments GEO_TYPE_UNKNOWN {real} _.

Definition Geometry_getUniqueId {real} (geometry : Geometry real) : Z :=
  match geometry with
  | GEO_TYPE_MESH mesh => getUniqueId mesh
  | GEO_TYPE_SPLINE uniqueId
  | GEO_TYPE_CONVEX_MESH uniqueId
  | GEO_TYPE_UNKNOWN uniqueId => uniqueId
  end.

(** [importGeometry]: a null pointer and an already imported geometry are
    ignored; only meshes are imported. *)
Definition importGeometry `{Scalar real} `{Units real} (v : VisualSceneImporter)
    (geometry : option (Geometry real)) (g : GeometryImporter real)
  : Run (GeometryImporter real) :=
  match geometry with
  | None => Done g
  | Some geometry =>
      let geometryId := Geometry_getUniqueId geometry in
      if decide (findMayaMeshNode g geometryId ≠ None) then Done g
      else
        match geometry with
        | GEO_TYPE_MESH mesh => importMesh v mesh g
        | _ => Done g
        end
  end.

(** ** The shading-engine map *)

(** [setMeshPrimitiveShadingEngines]: every primitive of the mesh, counted
    from 0, is recorded under the pair of the geometry id and the
    primitive's material id. *)
Definition setMeshPrimitiveShadingEngines {real} (mesh : Mesh real)
    (m : gmap (Z * Z) (list Z)) : gmap (Z * Z) (list Z) :=
  let geometryId := getUniqueId mesh in
  setMeshPrimitiveShadingEngines_from geometryId 0 (getMeshPrimitives mesh) m.

(** [getShadingEnginePrimitiveIndices]: the null pointer returned for a pair
    that is not in the map is [None]. *)
Definition getShadingEnginePrimitiveIndices {real} (g : GeometryImporter real)
    (geometryId shadingEngineId : Z) : option (list Z) :=
  let combinedId := (geometryId, shadingEngineId) in
  mShadingEnginePrimitivesMap g !! combinedId.

(** ** The two triangle decoders in one definition

    [appendTrifansPolyFaces] and [appendTristripsPolyFaces] differ in three
    places only; the proofs below work on this common form, which each of
    the two embeddings equals by computation. *)
Inductive TriKind : Type := Trifans | Tristrips.

(** The edge step of either decoder.  Fans start the first edge of a triangle at
    [positionIndices[initialPositionIndex]] and leave
    [initialPositionIndex] alone; strips always start at
    [positionIndices[positionIndex]] and move [initialPositionIndex] with
    the window. *)
Definition tri_edge {real} (kind : TriKind) (mesh : Mesh real)
    (primitiveElement : MeshPrimitive) (edgeIndicesMap : EdgeIndicesMap)
    (st : TriState) : Run TriState :=
  let positionIndices := getPositionIndices primitiveElement in
  let polyFace :=
    if decide (st_triangleEdgeCounter st = 0)
    then set_f (st_polyFace st) 3 (new_int_array 3)
    else st_polyFace st in
  let triangleEdgeCounter := to_size_t (st_triangleEdgeCounter st + 1) in
  edgeStartVtxIndex ←
    match kind with
    | Trifans =>
        if decide (triangleEdgeCounter > 1)
        then read positionIndices (st_positionIndex st)
        else read positionIndices (st_initialPositionIndex st)
    | Tristrips => read positionIndices (st_positionIndex st)
    end;
  '(edgeEndVtxIndex, positionIndex) ←
    (if decide (triangleEdgeCounter < 3)
     then let positionIndex := to_size_t (st_positionIndex st + 1) in
          v ← read positionIndices positionIndex; Done (v, positionIndex)
     else v ← read positionIndices (st_initialPositionIndex st);
          Done (v, st_positionIndex st));
  let edge := Edge_new (to_int edgeStartVtxIndex) (to_int edgeEndVtxIndex) in
  edgeIndexValue ← getEdgeIndex edge edgeIndicesMap;
  let polyFace :=
    set_f_edgeIdValue polyFace
      (<[Z.to_nat (triangleEdgeCounter - 1) := edgeIndexValue]> (f_edgeIdValue polyFace)) in
  if decide (triangleEdgeCounter = 3) then
    let triangleEdgeCounter := 0 in
    let positionIndex := to_size_t (positionIndex - 1) in
    let initialPositionIndex :=
      match kind with
      | Trifans => st_initialPositionIndex st
      | Tristrips => positionIndex
      end in
    '(polyFace, uvSetIndicesIndex) ←
      setUVSetInfos mesh primitiveElement polyFace (st_uvSetIndicesIndex st) 3;
    let uvSetIndicesIndex := to_size_t (uvSetIndicesIndex - 2) in
    '(polyFace, colorIndicesIndex) ←
      setColorInfos mesh primitiveElement polyFace (st_colorIndicesIndex st) 3;
    let colorIndicesIndex := to_size_t (colorIndicesIndex - 2) in
    Done (mkTriState polyFace triangleEdgeCounter initialPositionIndex positionIndex
            uvSetIndicesIndex colorIndicesIndex (st_meshNode st ++ [polyFace]))
  else
    Done (mkTriState polyFace triangleEdgeCounter (st_initialPositionIndex st)
            positionIndex (st_uvSetIndicesIndex st) (st_colorIndicesIndex st)
            (st_meshNode st)).

(** The group step of either decoder.  After a fan the attribute cursors
    are moved forward by two, after a strip they are moved back by two. *)
Definition tri_group {real} (kind : TriKind) (mesh : Mesh real)
    (primitiveElement : MeshPrimitive) (edgeIndicesMap : EdgeIndicesMap)
    (st : TriState) (vertexCount : Z) : Run TriState :=
  let st0 := mkTriState polyFaces_new 0 (st_initialPositionIndex st)
               (st_positionIndex st) (st_uvSetIndicesIndex st)
               (st_colorIndicesIndex st) (st_meshNode st) in
  let numEdges := to_uint ((vertexCount - 3) * 3 + 3) in
  st1 ← for_loop (Z.to_nat numEdges) 0
          (fun _ => tri_edge kind mesh primitiveElement edgeIndicesMap) st0;
  let positionIndex := to_size_t (st_positionIndex st1 + 2) in
  match kind with
  | Trifans =>
      Done (mkTriState (st_polyFace st1) (st_triangleEdgeCounter st1)
              (to_size_t (st_initialPositionIndex st1 + vertexCount))
              positionIndex
              (to_size_t (st_uvSetIndicesIndex st1 + 2))
              (to_size_t (st_colorIndicesIndex st1 + 2))
              (st_meshNode st1))
  | Tristrips =>
      Done (mkTriState (st_polyFace st1) (st_triangleEdgeCounter st1)
              positionIndex
              positionIndex
              (to_size_t (st_uvSetIndicesIndex st1 - 2))
              (to_size_t (st_colorIndicesIndex st1 - 2))
              (st_meshNode st1))
  end.

(** [initialPositionIndex] after a triangle decoded from the cursors
    [init] and [q]. *)
Definition next_initialPositionIndex (kind : TriKind) (init q : Z) : Z :=
  match kind with Trifans => init | Tristrips => q + 1 end.

(** The group step of the decoder of the given kind, as embedded. *)
Definition group_decoder {real} (kind : TriKind) (mesh : Mesh real)
    (primitiveElement : MeshPrimitive) (edgeIndicesMap : EdgeIndicesMap)
    (st : TriState) (vertexCount : Z) : Run TriState :=
  match kind with
  | Trifans =>
      appendTrifansPolyFaces_group mesh primitiveElement edgeIndicesMap st vertexCount
  | Tristrips =>
      appendTristripsPolyFaces_group mesh primitiveElement edgeIndicesMap st vertexCount
  end.

(** ** Edge-table population and sample inputs *)

(** Modelled from the spec: [insert_or_get] of the edge table, the step of
    the population pass ([MeshPrimitive::appendEdgeIndices] is declared
    among the headers that are not in the sources).  An unseen pair gets the
    next index. *)
Definition insert_or_get (ab : Z * Z) (acc : list Edge * EdgeIndicesMap)
  : list Edge * EdgeIndicesMap :=
  let edge := Edge_new (fst ab) (snd ab) in
  match snd acc !! mVertexIndices edge with
  | Some _ => acc
  | None => (fst acc ++ [edge],
             <[mVertexIndices edge := Z.of_nat (length (fst acc))]> (snd acc))
  end.

Definition insert_edges (l : list (Z * Z)) (acc : list Edge * EdgeIndicesMap)
  : list Edge * EdgeIndicesMap :=
  foldl (fun acc ab => insert_or_get ab acc) acc l.

(** A fan [0,1,2,3,4] and a strip [0,1,2,3], without attribute channels. *)
Definition fan_edges : list (Z * Z) :=
  [(0, 1); (1, 2); (2, 0); (2, 3); (3, 0); (3, 4); (4, 0)].
Definition fan5 : MeshPrimitive :=
  mkMeshPrimitive TRIANGLE_FANS [0; 1; 2; 3; 4] [] [] [] [5] 0 (insert_edges fan_edges).
Definition strip_edges : list (Z * Z) :=
  [(0, 1); (1, 2); (2, 0); (2, 3); (3, 1)].
Definition strip4 : MeshPrimitive :=
  mkMeshPrimitive TRIANGLE_STRIPS [0; 1; 2; 3] [] [] [] [4] 0 (insert_edges strip_edges).

(** A vertex data without inputs and values. *)
Definition no_values : MeshVertexData Z := mkMeshVertexData DATA_TYPE_FLOAT [] [].

Definition sample_mesh (id : Z) (prims : list MeshPrimitive) (faces : Z) : Mesh Z :=
  mkMesh id "" prims DATA_TYPE_DOUBLE [] faces (fun _ => 0) (fun _ => 0)
    0 no_values no_values no_values.

(** The fan with a normal for every vertex and one UV channel, in a mesh
    that has vertex positions, one normal, one UV set and one colour set. *)
Definition fan5_valued : MeshPrimitive :=
  mkMeshPrimitive TRIANGLE_FANS [0; 1; 2; 3; 4] [0; 0; 0; 0; 0]
    [mkIndexList "map1" [0; 1; 2; 3; 4] 0] [] [5] 0 (insert_edges fan_edges).
Definition valued_mesh : Mesh Z :=
  mkMesh 1 "" [fan5_valued] DATA_TYPE_DOUBLE
    [0; 0; 0;  2; 0; 0;  2; 2; 0;  0; 2; 0;  -2; 2; 0] 3 (fun _ => 0) (fun _ => 0)
    1 (mkMeshVertexData DATA_TYPE_FLOAT [0; 0; 1] [mkInputInfos "" 3 3])
    (mkMeshVertexData DATA_TYPE_FLOAT [0; 0;  1; 0;  1; 1;  0; 1;  2; 1]
       [mkInputInfos "map1" 2 10])
    (mkMeshVertexData DATA_TYPE_DOUBLE [255; 0; 0;  0; 255; 0;  0; 0; 255]
       [mkInputInfos "colorSet1" 3 9]).

(** ** Reference definitions for the attribute slicer *)

(** The value stored for position [position] of a channel: the raw index
    reduced by the channel's initial index, as an [int]. *)
Definition index_at (indexList : IndexList) (position : Z) : Z :=
  to_int (to_size_t (default 0 (getIndices indexList !! Z.to_nat position)
                     - getInitialIndex indexList)).

(** The [n] values of a channel from [cursor] on. *)
Definition slice (indexList : IndexList) (cursor n : Z) : list Z :=
  (fun j => index_at indexList (to_size_t (j + cursor))) <$> seqZ 0 n.

(** The channel has an entry at each of the [n] positions from [cursor]. *)
Definition stream_covers (cursor n : Z) (indexList : IndexList) : Prop :=
  forall j, 0 <= j < n ->
    to_size_t (j + cursor) < Z.of_nat (length (getIndices indexList)).

Definition uv_slices {real} (mesh : Mesh real) (primitiveElement : MeshPrimitive)
    (cursor n : Z) : list MU :=
  (fun indexList =>
     mkMU (to_int (getUVSetIndexByName mesh (getName indexList))) n
          (slice indexList cursor n))
  <$> getUVCoordIndicesArray primitiveElement.

Definition color_slices {real} (mesh : Mesh real) (primitiveElement : MeshPrimitive)
    (cursor n : Z) : list MC :=
  (fun indexList =>
     mkMC (to_int (getColorIndexByName mesh (getName indexList))) n
          (slice indexList cursor n))
  <$> getColorIndicesArray primitiveElement.

(** ** Reference definitions for the triangle decoders *)

(** The pair [(a,b)] of position indices is in the edge table. *)
Definition edge_present (edgeIndicesMap : EdgeIndicesMap) (a b : Z) : Prop :=
  is_Some (edgeIndicesMap !! mVertexIndices (Edge_new (to_int a) (to_int b))).

(** The signed reference of the edge from [a] to [b]. *)
Definition edge_ref (edgeIndicesMap : EdgeIndicesMap) (a b : Z) : Z :=
  match getEdgeIndex (Edge_new (to_int a) (to_int b)) edgeIndicesMap with
  | Done r => r
  | Abort _ => 0
  end.

(** The face with the three edges [a→b], [b→c], [c→a], no hole, and the
    attribute slices taken at the two cursors. *)
Definition triangle_face {real} (mesh : Mesh real) (primitiveElement : MeshPrimitive)
    (edgeIndicesMap : EdgeIndicesMap) (a b c : Z) (uvCursor colorCursor : Z)
  : polyFaces :=
  mkPolyFaces 3
    [edge_ref edgeIndicesMap a b; edge_ref edgeIndicesMap b c;
     edge_ref edgeIndicesMap c a]
    0 []
    (uv_slices mesh primitiveElement uvCursor 3)
    (Z.of_nat (length (getUVCoordIndicesArray primitiveElement)))
    (color_slices mesh primitiveElement colorCursor 3)
    (Z.of_nat (length (getColorIndicesArray primitiveElement))).

(** The position index stored at place [i] of the primitive's stream. *)
Definition position_at (primitiveElement : MeshPrimitive) (i : Z) : Z :=
  default 0 (getPositionIndices primitiveElement !! Z.to_nat i).

(** Triangle number [i] (from 0) decoded after the cursor [q]: a fan keeps
    the vertex at [init] as first corner, a strip takes the window that
    starts at [q + i]; the attribute cursors have advanced by [i]. *)
Definition group_triangle {real} (kind : TriKind) (mesh : Mesh real)
    (primitiveElement : MeshPrimitive) (edgeIndicesMap : EdgeIndicesMap)
    (init q uvCursor colorCursor : Z) (i : nat) : polyFaces :=
  triangle_face mesh primitiveElement edgeIndicesMap
    (position_at primitiveElement
       (match kind with Trifans => init | Tristrips => q + Z.of_nat i end))
    (position_at primitiveElement (q + 1 + Z.of_nat i))
    (position_at primitiveElement (q + 2 + Z.of_nat i))
    (to_size_t (uvCursor + Z.of_nat i)) (to_size_t (colorCursor + Z.of_nat i)).

(** All three edges of that triangle are in the edge table. *)
Definition triangle_edges_present (kind : TriKind) (primitiveElement : MeshPrimitive)
    (edgeIndicesMap : EdgeIndicesMap) (init q : Z) (i : nat) : Prop :=
  let a := position_at primitiveElement
             (match kind with Trifans => init | Tristrips => q + Z.of_nat i end) in
  let b := position_at primitiveElement (q + 1 + Z.of_nat i) in
  let c := position_at primitiveElement (q + 2 + Z.of_nat i) in
  edge_present edgeIndicesMap a b /\ edge_present edgeIndicesMap b c /\
  edge_present edgeIndicesMap c a.

(** Every attribute channel has the three entries that triangle [i] takes. *)
Definition triangle_attributes_covered (primitiveElement : MeshPrimitive)
    (uvCursor colorCursor : Z) (i : nat) : Prop :=
  Forall (stream_covers (to_size_t (uvCursor + Z.of_nat i)) 3)
         (getUVCoordIndicesArray primitiveElement) /\
  Forall (stream_covers (to_size_t (colorCursor + Z.of_nat i)) 3)
         (getColorIndicesArray primitiveElement).

(** The attribute cursor after a group of [k] vertices: a fan leaves it
    [k] further, a strip [k - 4] further. *)
Definition cursor_after (kind : TriKind) (cursor k : Z) : Z :=
  match kind with
  | Trifans => to_size_t (cursor + k)
  | Tristrips => to_size_t (cursor + k - 4)
  end.

Definition fan_map : EdgeIndicesMap := snd (insert_edges fan_edges ([], ∅)).
Definition strip_map : EdgeIndicesMap := snd (insert_edges strip_edges ([], ∅)).

(** A fan [0,1,2,3] with one UV channel of six indices. *)
Definition fan4_uv : MeshPrimitive :=
  mkMeshPrimitive TRIANGLE_FANS [0; 1; 2; 3] []
    [mkIndexList "map1" [10; 11; 12; 13; 14; 15] 0] [] [4] 0
    (insert_edges [(0, 1); (1, 2); (2, 0); (2, 3); (3, 0)]).
Definition fan4_map : EdgeIndicesMap :=
  snd (appendEdgeIndices fan4_uv ([], ∅)).

(** A polylist with a quad and a triangle and one UV channel. *)
Definition quad_tri : MeshPrimitive :=
  mkMeshPrimitive POLYLIST [0; 1; 2; 3; 0; 2; 4] []
    [mkIndexList "map1" [5; 6; 7; 8; 9; 10; 11] 5] [] [4; 3] 0
    (insert_edges [(0, 1); (1, 2); (2, 3); (3, 0); (0, 2); (2, 4); (4, 0)]).
Definition quad_tri_map : EdgeIndicesMap :=
  snd (appendEdgeIndices quad_tri ([], ∅)).

(** ** Reference definitions and samples for the mesh assembly *)

Definition is_CreateMesh {real} (e : Emission real) : bool :=
  match e with CreateMesh _ => true | _ => false end.
Definition is_ParentShape {real} (e : Emission real) : bool :=
  match e with ParentShape _ _ => true | _ => false end.

(** An emission that is neither a mesh nor a [ParentShape]. *)
Definition group_emission {real} (e : Emission real) : Prop :=
  is_CreateMesh e = false /\ is_ParentShape e = false.

(** The value streams of a mesh: what [createMesh] writes of it before the
    edges and the faces, by the four writers in their order. *)
Definition value_streams `{Units real} (mesh : Mesh real)
  : Run (list (MeshCommand real)) :=
  meshNode ← writeVertexPositions mesh [];
  meshNode ← writeNormals mesh meshNode;
  meshNode ← writeUVSets mesh meshNode;
  writeColorSets mesh meshNode.

(** Integer "units" for sample runs: no conversion, no rounding. *)
#[global] Instance Z_Units : Units Z := {
  toLinearUnit := fun x y z => mkVector3 x y z;
  to_float := fun v => v }.

(** The number of faces in the range [f[first:last]]. *)
Definition range_length (r : ObjectGrpCompList) : Z := og_last r - og_first r + 1.

(** A primitive without faces followed by two triangles. *)
Definition no_triangles : MeshPrimitive :=
  mkMeshPrimitive TRIANGLES [] [] [] [] [] 0 (fun acc => acc).
Definition two_triangles : MeshPrimitive :=
  mkMeshPrimitive TRIANGLES [0; 1; 2; 2; 3; 0] [] [] [] [3; 3] 1
    (insert_edges [(0, 1); (1, 2); (2, 0); (2, 3); (3, 0)]).
Definition empty_first_mesh : Mesh Z :=
  sample_mesh 7 [no_triangles; two_triangles] 2.

(** A scene in which geometry 1 is used by the transform nodes 10, 11, 12. *)
Definition three_instances : VisualSceneImporter :=
  mkVisualSceneImporter
    {[ 1 := [10; 11; 12] ]}
    (list_to_map [(10, mkMayaNode 10 "a" None); (11, mkMayaNode 11 "b" None);
                  (12, mkMayaNode 12 "c" None)]).
Definition new_importer : GeometryImporter Z := mkGeometryImporter ∅ [] ∅ [].

(** ** Reference definitions for the edge references of emitted faces *)

(** [r] is the reference, forward or reversed, of an index stored in the
    edge table. *)
Definition refers_to (edgeIndicesMap : EdgeIndicesMap) (r : Z) : Prop :=
  exists key i, edgeIndicesMap !! key = Some i /\
                (r = to_int i \/ r = toggle (to_int i)).

Definition face_resolved (edgeIndicesMap : EdgeIndicesMap) (polyFace : polyFaces) : Prop :=
  Forall (refers_to edgeIndicesMap) (f_edgeIdValue polyFace) /\
  Forall (refers_to edgeIndicesMap) (h_edgeIdValue polyFace).

(** Invariant of the edge loop of the fan and strip decoders: the faces
    written so far hold resolved references only, and so do the cells of
    the current triangle that have been filled. *)
Definition tri_inv (edgeIndicesMap : EdgeIndicesMap) (st : TriState) : Prop :=
  Forall (face_resolved edgeIndicesMap) (st_meshNode st) /\
  Forall (refers_to edgeIndicesMap) (h_edgeIdValue (st_polyFace st)) /\
  (st_triangleEdgeCounter st = 0 \/
   (1 <= st_triangleEdgeCounter st <= 2 /\
    length (f_edgeIdValue (st_polyFace st)) = 3%nat /\
    Forall (refers_to edgeIndicesMap)
      (take (Z.to_nat (st_triangleEdgeCounter st)) (f_edgeIdValue (st_polyFace st))))).

(** A fan whose closing edge (4,0) is missing from the table. *)
Definition fan5_incomplete_map : EdgeIndicesMap :=
  snd (insert_edges [(0, 1); (1, 2); (2, 0); (2, 3); (3, 0); (3, 4)] ([], ∅)).

(** A hole of three edge references. *)
Definition sample_hole : polyFaces := set_h polyFaces_new 3 [0; -2; 5].

(** A quad with a triangular hole that winds the same way: the vertices 0..3
    and 4..6 of a [POLYGONS] primitive with the counts [4, -3]. *)
Definition quad_with_hole : MeshPrimitive :=
  mkMeshPrimitive POLYGONS [0; 1; 2; 3; 4; 5; 6] [] [] [] [4; -3] 0
    (insert_edges [(0, 1); (1, 2); (2, 3); (3, 0); (4, 5); (5, 6); (6, 4)]).
Definition quad_with_hole_map : EdgeIndicesMap :=
  snd (appendEdgeIndices quad_with_hole ([], ∅)).
Definition quad_with_hole_mesh : Mesh Z :=
  mkMesh 3 "" [quad_with_hole] DATA_TYPE_DOUBLE
    [0; 0; 0;  10; 0; 0;  10; 10; 0;  0; 10; 0;  2; 2; 0;  4; 2; 0;  3; 4; 0]
    1 (fun _ => 0) (fun _ => 0)
    0 no_values no_values no_values.

(** Two fans (3 and 4 vertices) and two strips (3 and 3 vertices), each
    with one UV channel that has one index per vertex; the same strips
    without attribute channels. *)
Definition two_fans_uv : MeshPrimitive :=
  mkMeshPrimitive TRIANGLE_FANS [0; 1; 2; 3; 4; 5; 6] []
    [mkIndexList "map1" [20; 21; 22; 23; 24; 25; 26] 20] [] [3; 4] 0
    (insert_edges [(0, 1); (1, 2); (2, 0); (3, 4); (4, 5); (5, 3); (5, 6); (6, 3)]).
Definition two_strips_uv : MeshPrimitive :=
  mkMeshPrimitive TRIANGLE_STRIPS [0; 1; 2; 3; 4; 5] []
    [mkIndexList "map1" [20; 21; 22; 23; 24; 25] 20] [] [3; 3] 0
    (insert_edges [(0, 1); (1, 2); (2, 0); (3, 4); (4, 5); (5, 3)]).
Definition two_strips : MeshPrimitive :=
  mkMeshPrimitive TRIANGLE_STRIPS [0; 1; 2; 3; 4; 5] [] [] [] [3; 3] 0
    (insert_edges [(0, 1); (1, 2); (2, 0); (3, 4); (4, 5); (5, 3)]).
Definition edges_of (primitiveElement : MeshPrimitive) : EdgeIndicesMap :=
  snd (appendEdgeIndices primitiveElement ([], ∅)).

(** ** Reference definitions for the shading-engine map and the groups *)

(** The indices, in increasing order, of the primitives with the material
    [shadingEngineId]. *)
Definition primitives_of_material (shadingEngineId : Z)
    (meshPrimitives : list MeshPrimitive) : list Z :=
  filter (fun i => getMaterialId <$> meshPrimitives !! Z.to_nat i = Some shadingEngineId)
         (seqZ 0 (Z.of_nat (length meshPrimitives))).

(** The group assignments of [numNodeInstances] instances of a geometry
    with [meshPrimitivesCount] primitives: instance by instance, primitive
    by primitive. *)
Definition group_assignments (geometryId numNodeInstances meshPrimitivesCount : Z)
  : list GroupIdAssignment :=
  j ← seqZ 0 numNodeInstances;
  (fun i => mkGroupIdAssignment geometryId j i) <$> seqZ 0 meshPrimitivesCount.

(** The group assignments among the items written to the file. *)
Definition written_groups {real} (l : list (Emission real)) : list GroupIdAssignment :=
  omap (fun e => match e with CreateGroupId a => Some a | _ => None end) l.

(** The entry of the shading-engine map after the indices [new] have been
    pushed to the entry [old]: pushing nothing creates no entry. *)
Definition pushed_indices (old : option (list Z)) (new : list Z) : option (list Z) :=
  match new with
  | [] => old
  | _ => Some (default [] old ++ new)
  end.

(** A mesh of three primitives with the materials 5, 9, 5. *)
Definition three_materials : Mesh Z :=
  sample_mesh 4
    [ mkMeshPrimitive TRIANGLES [] [] [] [] [] 5 (fun acc => acc);
      mkMeshPrimitive TRIANGLES [] [] [] [] [] 9 (fun acc => acc);
      mkMeshPrimitive TRIANGLES [] [] [] [] [] 5 (fun acc => acc) ] 0.

(** The assignments created for instance [j] of a geometry. *)
Definition instance_groups (geometryId meshPrimitivesCount j : Z)
  : list GroupIdAssignment :=
  if decide (meshPrimitivesCount <= 1) then []
  else (fun i => mkGroupIdAssignment geometryId j i) <$> seqZ 0 meshPrimitivesCount.

(** A mesh of two primitives, used by the three transform nodes of
    [three_instances]. *)
Definition two_primitives : Mesh Z :=
  sample_mesh 1
    [ mkMeshPrimitive TRIANGLES [] [] [] [] [] 5 (fun acc => acc);
      mkMeshPrimitive TRIANGLES [] [] [] [] [] 9 (fun acc => acc) ] 0.

(** ** Reference definitions for the polygon decoder *)

(** The vertex that follows each vertex of a closed loop: the last one is
    followed by the first. *)
Definition next_vertices (vs : list Z) : list Z := drop 1 vs ++ take 1 vs.

(** The signed references of the edges of the closed loop through [vs], and
    the condition that all of them are in the edge table. *)
Definition boundary_refs (edgeIndicesMap : EdgeIndicesMap) (vs : list Z) : list Z :=
  zip_with (edge_ref edgeIndicesMap) vs (next_vertices vs).
Definition boundary_present (edgeIndicesMap : EdgeIndicesMap) (vs : list Z) : Prop :=
  Forall2 (edge_present edgeIndicesMap) vs (next_vertices vs).

(** The position of the vertex with the position index [v], as the edge
    loops fetch it. *)
Definition vertex_point {real} (mesh : Mesh real) (v : Z) : Run (Vector3 real) :=
  getVertexPosition mesh (to_size_t (to_int v)).

(** The face decoded from the loop [vs] with the attribute cursors at
    [uvCursor] and [colorCursor]. *)
Definition polygon_face {real} (mesh : Mesh real) (primitiveElement : MeshPrimitive)
    (edgeIndicesMap : EdgeIndicesMap) (vs : list Z) (uvCursor colorCursor : Z)
  : polyFaces :=
  mkPolyFaces (Z.of_nat (length vs)) (boundary_refs edgeIndicesMap vs) 0 []
    (uv_slices mesh primitiveElement uvCursor (Z.of_nat (length vs)))
    (Z.of_nat (length (getUVCoordIndicesArray primitiveElement)))
    (color_slices mesh primitiveElement colorCursor (Z.of_nat (length vs)))
    (Z.of_nat (length (getColorIndicesArray primitiveElement))).

(** The faces decoded from consecutive loops, the first one with all
    cursors at [cursor]. *)
Fixpoint polygon_faces {real} (mesh : Mesh real) (primitiveElement : MeshPrimitive)
    (edgeIndicesMap : EdgeIndicesMap) (cursor : Z) (groups : list (list Z))
  : list polyFaces :=
  match groups with
  | [] => []
  | vs :: rest =>
      polygon_face mesh primitiveElement edgeIndicesMap vs cursor cursor
      :: polygon_faces mesh primitiveElement edgeIndicesMap
           (cursor + Z.of_nat (length vs)) rest
  end.

(** No edge of the closed loop through [vs] joins a vertex with itself. *)
Definition no_degenerate_edge (vs : list Z) : Prop :=
  Forall2 (fun a b => to_int a <> to_int b) vs (next_vertices vs).

(** ** Reference definitions for [writeFaces] *)

(** A function applied to the result of a run. *)
#[global] Instance Run_fmap : FMap Run := fun A B f m =>
  match m with
  | Done a => Done (f a)
  | Abort e => Abort e
  end.

(** The faces of one primitive, decoded on their own. *)
Definition decode_primitive `{Scalar real} (mesh : Mesh real)
    (edgeIndicesMap : EdgeIndicesMap) (primitiveElement : MeshPrimitive)
  : Run (list polyFaces) :=
  match getPrimitiveType primitiveElement with
  | TRIANGLE_FANS => appendTrifansPolyFaces mesh primitiveElement edgeIndicesMap []
  | TRIANGLE_STRIPS => appendTristripsPolyFaces mesh primitiveElement edgeIndicesMap []
  | POLYGONS | POLYLIST | TRIANGLES =>
      appendPolygonPolyFaces mesh primitiveElement edgeIndicesMap []
  | OTHER_PRIMITIVE_TYPE => Done []
  end.

(** The state of a decoder run that started with the faces [meshNode]
    already written. *)
Definition tri_after (meshNode : list polyFaces) (st : TriState) : TriState :=
  mkTriState (st_polyFace st) (st_triangleEdgeCounter st) (st_initialPositionIndex st)
    (st_positionIndex st) (st_uvSetIndicesIndex st) (st_colorIndicesIndex st)
    (meshNode ++ st_meshNode st).
Definition poly_after {real} (meshNode : list polyFaces) (st : PolyState real)
  : PolyState real :=
  mkPolyState (ps_positionIndex st) (ps_uvSetIndicesIndex st) (ps_colorIndicesIndex st)
    (ps_polygonPoints st) (meshNode ++ ps_meshNode st).

(** ** Reference definitions for whole fan and strip primitives *)

(** The faces decoded from consecutive groups, the first one entered with
    the position cursors at [p] and the attribute cursors at [uvCursor] and
    [colorCursor]: a group of [k] vertices gives [k - 2] triangles and
    leaves the cursors where [cursor_after] says. *)
Fixpoint tri_faces {real} (kind : TriKind) (mesh : Mesh real)
    (primitiveElement : MeshPrimitive) (edgeIndicesMap : EdgeIndicesMap)
    (p uvCursor colorCursor : Z) (groups : list (list Z)) : list polyFaces :=
  match groups with
  | [] => []
  | vs :: rest =>
      (group_triangle kind mesh primitiveElement edgeIndicesMap p p uvCursor colorCursor
       <$> seq 0 (length vs - 2)) ++
      tri_faces kind mesh primitiveElement edgeIndicesMap
        (p + Z.of_nat (length vs))
        (cursor_after kind uvCursor (Z.of_nat (length vs)))
        (cursor_after kind colorCursor (Z.of_nat (length vs))) rest
  end.

(** Every triangle of these groups has its edges in the table and its
    attribute entries in the channels. *)
Fixpoint tri_groups_decodable (kind : TriKind) (primitiveElement : MeshPrimitive)
    (edgeIndicesMap : EdgeIndicesMap) (p uvCursor colorCursor : Z)
    (groups : list (list Z)) : Prop :=
  match groups with
  | [] => True
  | vs :: rest =>
      (forall i, (i < length vs - 2)%nat ->
         triangle_edges_present kind primitiveElement edgeIndicesMap p p i /\
         triangle_attributes_covered primitiveElement uvCursor colorCursor i) /\
      tri_groups_decodable kind primitiveElement edgeIndicesMap
        (p + Z.of_nat (length vs))
        (cursor_after kind uvCursor (Z.of_nat (length vs)))
        (cursor_after kind colorCursor (Z.of_nat (length vs))) rest
  end.

(** The edges of the triangles of the fan [vs] are in the table. *)
Definition fan_edges_present (edgeIndicesMap : EdgeIndicesMap) (vs : list Z) : Prop :=
  forall (i : nat) v0 vi vj,
    (1 <= i <= length vs - 2)%nat ->
    vs !! 0%nat = Some v0 -> vs !! i = Some vi -> vs !! S i = Some vj ->
    edge_present edgeIndicesMap v0 vi /\ edge_present edgeIndicesMap vi vj /\
    edge_present edgeIndicesMap vj v0.

(** The edges of the triangles of the strip [vs] are in the table. *)
Definition strip_edges_present (edgeIndicesMap : EdgeIndicesMap) (vs : list Z) : Prop :=
  forall (i : nat) a b c,
    vs !! i = Some a -> vs !! S i = Some b -> vs !! S (S i) = Some c ->
    edge_present edgeIndicesMap a b /\ edge_present edgeIndicesMap b c /\
    edge_present edgeIndicesMap c a.

(** The faces decoded from consecutive groups when every cursor of a group
    is at the group's offset [c] in the position stream: triangle [i] of a
    group has its corners at the places [c] (fan) or [c + i] (strip),
    [c + 1 + i] and [c + 2 + i] and takes its attribute slices at [c + i]. *)
Fixpoint offset_faces {real} (kind : TriKind) (mesh : Mesh real)
    (primitiveElement : MeshPrimitive) (edgeIndicesMap : EdgeIndicesMap)
    (c : Z) (groups : list (list Z)) : list polyFaces :=
  match groups with
  | [] => []
  | vs :: rest =>
      (group_triangle kind mesh primitiveElement edgeIndicesMap c c c c
       <$> seq 0 (length vs - 2)) ++
      offset_faces kind mesh primitiveElement edgeIndicesMap
        (c + Z.of_nat (length vs)) rest
  end.

(** ** Reading a signed edge reference back *)

(** The index of the edge list that the reference [r] denotes, and whether
    the edge is taken backwards. *)
Definition reference_index (r : Z) : Z := if decide (r < 0) then - (r + 1) else r.
Definition reference_reversed (r : Z) : bool := bool_decide (r < 0).

(** The sum of the grouped-vertex-elements counts of some primitives. *)
Definition elements_count (meshPrimitives : list MeshPrimitive) : Z :=
  foldr (fun p acc => getGroupedVertexElementsCount p + acc) 0 meshPrimitives.

(** A mesh of two primitives with two and three faces. *)
Definition five_faces : Mesh Z :=
  sample_mesh 2
    [ two_triangles;
      mkMeshPrimitive TRIANGLES [0; 1; 2; 2; 3; 0; 0; 1; 3] [] [] [] [3; 3; 3] 1
        (insert_edges [(0, 1); (1, 2); (2, 0); (2, 3); (3, 0); (1, 3)]) ] 5.

(** ** Reference definitions for the value streams *)

(** The three values written for a vertex with the coordinates [xyz]. *)
Definition vertex_commands `{Units real} (xyz : real * real * real)
  : list (MeshCommand real) :=
  let '(x, y, z) := xyz in
  let converted := toLinearUnit x y z in
  [appendVrts (to_float (vx converted)); appendVrts (to_float (vy converted));
   appendVrts (to_float (vz converted))].

Definition vertex_values {real} (xyz : real * real * real) : list real :=
  let '(x, y, z) := xyz in [x; y; z].


(** The stream of the vertex positions [pts]. *)
Definition positions_stream `{Units real} (pts : list (real * real * real))
  : list (MeshCommand real) :=
  [startVrts 0 (to_size_t (Z.of_nat (length pts) - 1))]
  ++ mjoin (vertex_commands <$> pts) ++ [endVrts].

(** The commands of round [k] of a loop over the elements [elements]. *)
Definition round_commands {A B} (commands : A -> list B) (elements : list A) (k : nat)
  : list B :=
  match elements !! k with
  | Some element => commands element
  | None => []
  end.

(** A mesh with the two vertices (1,2,3) and (4,5,6), and one without
    values. *)
Definition two_vertices : Mesh Z :=
  mkMesh 1 "" [] DATA_TYPE_FLOAT [1; 2; 3; 4; 5; 6] 0 (fun _ => 0) (fun _ => 0)
    0 no_values no_values no_values.
Definition no_vertices : Mesh Z :=
  mkMesh 1 "" [] DATA_TYPE_FLOAT [] 0 (fun _ => 0) (fun _ => 0)
    0 no_values no_values no_values.

(** One input of a [MeshVertexData]: its name, its stride and its elements,
    each a list of [stride] values. *)
Record ValueSet (real : Type) : Type := mkValueSet {
  set_name : string;
  set_stride : Z;
  set_elements : list (list real) }.
Arguments mkValueSet {real} _ _ _.
Arguments set_name {real} _.
Arguments set_stride {real} _.
Arguments set_elements {real} _.

Definition set_values {real} (s : ValueSet real) : list real := mjoin (set_elements s).
Definition set_info {real} (s : ValueSet real) : InputInfos :=
  mkInputInfos (set_name s) (set_stride s)
    (set_stride s * Z.of_nat (length (set_elements s))).
Definition set_complete {real} (s : ValueSet real) : Prop :=
  Forall (fun element => Z.of_nat (length element) = set_stride s) (set_elements s).

(** The vertex data that holds the given inputs one after the other. *)
Definition vertex_data {real} (type : DataType) (sets : list (ValueSet real))
  : MeshVertexData real :=
  mkMeshVertexData type (mjoin (set_values <$> sets)) (set_info <$> sets).

(** The place of the first value of the set at place [k]. *)
Definition sets_offset {real} (sets : list (ValueSet real)) (k : nat) : Z :=
  Z.of_nat (length (mjoin (set_values <$> take k sets))).

(** What is written for one UV element, for the UV set number [i] and for
    all UV sets from number [i] on: of every element the first two
    values. *)
Definition uv_point_commands `{Units real} (type : DataType) (element : list real)
  : list (MeshCommand real) :=
  match element with
  | u :: v :: _ => [appendUvSetPoints (cast_value type u);
                    appendUvSetPoints (cast_value type v)]
  | _ => []
  end.
Definition uv_set_commands `{Units real} (type : DataType) (i : Z) (s : ValueSet real)
  : list (MeshCommand real) :=
  [setUvSetName i (set_name s);
   startUvSetPoints i 0 (to_size_t (Z.of_nat (length (set_elements s)) - 1))]
  ++ mjoin (uv_point_commands type <$> set_elements s) ++ [endUvSetPoints].

(** What is written for one colour element and for the colour set number
    [i]: all values of every element, and the representation given by the
    stride. *)
Definition color_point_commands `{Units real} (type : DataType) (element : list real)
  : list (MeshCommand real) :=
  (fun c => appendColorSetPoints (cast_value type c)) <$> element.
Definition representation_of (stride : Z) : Z :=
  if decide (stride = 1) then 1 else if decide (stride = 3) then 3 else 2.
Definition color_set_commands `{Units real} (type : DataType) (i : Z) (s : ValueSet real)
  : list (MeshCommand real) :=
  [setColorName i (set_name s);
   setRepresentation i (representation_of (set_stride s));
   startColorSetPoints i 0 (to_size_t (Z.of_nat (length (set_elements s)) - 1))]
  ++ mjoin (color_point_commands type <$> set_elements s) ++ [endColorSetPoints].

(** The commands of the set at place [k], if there is one. *)
Definition set_round {real} (commands : Z -> ValueSet real -> list (MeshCommand real))
    (sets : list (ValueSet real)) (k : nat) : list (MeshCommand real) :=
  match sets !! k with
  | Some s => commands (Z.of_nat k) s
  | None => []
  end.




(** What is written for one normal index: the three values of the normal
    at that index, cast as the data type says. *)
Definition normal_commands `{Units real} (type : DataType)
    (normals : list (real * real * real)) (normalIndex : Z)
  : list (MeshCommand real) :=
  match normals !! Z.to_nat normalIndex with
  | Some (x, y, z) => [appendNormals (cast_value type x);
                       appendNormals (cast_value type y);
                       appendNormals (cast_value type z)]
  | None => []
  end.

(** The normal indices of all primitives of the mesh, in their order. *)
Definition normal_indices {real} (mesh : Mesh real) : list Z :=
  mjoin (getNormalIndices <$> getMeshPrimitives mesh).

(** What is written for one edge. *)
Definition edge_commands {real} (edge : Edge) : list (MeshCommand real) :=
  [appendEdge (fst (mVertexIndices edge)); appendEdge (snd (mVertexIndices edge));
   appendEdge 0].

(** A mesh with the normals (0,0,1) and (0,1,0) and two primitives that
    use them by index. *)
Definition normals_mesh : Mesh Z :=
  mkMesh 1 ""
    [mkMeshPrimitive TRIANGLES [0; 1; 2] [0; 0; 1] [] [] [] 0 (fun x => x);
     mkMeshPrimitive TRIANGLES [2; 1; 3] [1] [] [] [] 0 (fun x => x)]
    DATA_TYPE_FLOAT [] 0 (fun _ => 0) (fun _ => 0)
    4 (mkMeshVertexData DATA_TYPE_FLOAT [0; 0; 1; 0; 1; 0] [mkInputInfos "" 3 6])
    no_values no_values.

(** The streams of the normals, the UV sets and the colour sets. *)
Definition normals_stream `{Units real} (mesh : Mesh real)
    (normals : list (real * real * real)) : list (MeshCommand real) :=
  if decide (getNormalsCount mesh > 0) then
    [startNormals 0 (getNormalsCount mesh - 1)]
    ++ mjoin (normal_commands (getType (getNormals mesh)) normals
                <$> normal_indices mesh)
    ++ [endNormals]
  else [].
Definition uv_stream `{Units real} (type : DataType) (sets : list (ValueSet real))
  : list (MeshCommand real) :=
  match sets with
  | [] => []
  | _ => setUvSize (Z.of_nat (length sets))
         :: mjoin (imap (fun i s => uv_set_commands type (Z.of_nat i) s) sets)
  end.
Definition color_stream `{Units real} (type : DataType) (sets : list (ValueSet real))
  : list (MeshCommand real) :=
  mjoin (imap (fun i s => color_set_commands type (Z.of_nat i) s) sets).

(** Well-formed value data of a mesh: the positions are the vertices
    [pts]; the normals are [normals] and every normal index points at one
    of them; a vertex data holds the sets [sets] of whole elements with
    strides between [lowest] and 4. *)
Definition positions_of {real} (mesh : Mesh real) (pts : list (real * real * real))
  : Prop :=
  getPositionsType mesh <> DATA_TYPE_UNKNOWN /\
  getPositionValues mesh = mjoin (vertex_values <$> pts) /\
  3 * Z.of_nat (length pts) + 2 < 2 ^ 64.
Definition normals_of {real} (mesh : Mesh real) (normals : list (real * real * real))
  : Prop :=
  getType (getNormals mesh) <> DATA_TYPE_UNKNOWN /\
  getValues (getNormals mesh) = mjoin (vertex_values <$> normals) /\
  Forall (fun normalIndex => 0 <= normalIndex < Z.of_nat (length normals))
         (normal_indices mesh) /\
  3 * Z.of_nat (length normals) < 2 ^ 32 /\
  0 <= getNormalsCount mesh < 2 ^ 64.
Definition sets_of {real} (data : MeshVertexData real) (type : DataType)
    (sets : list (ValueSet real)) (lowest : Z) : Prop :=
  data = vertex_data type sets /\
  type <> DATA_TYPE_UNKNOWN /\
  Forall set_complete sets /\
  Z.of_nat (length (getValues data)) < 2 ^ 64 /\
  Forall (fun s => lowest <= set_stride s <= 4) sets.

(** * Properties *)

(** ** Machine integers *)

Ltac unfold_ints :=
  unfold to_int, to_uint, to_size_t, is_int, is_size_t in *;
  change (2 ^ 31) with 2147483648 in *;
  change (2 ^ 32) with 4294967296 in *;
  change (2 ^ 64) with 18446744073709551616 in *.

Ltac solve_ints := unfold_ints; Z.div_mod_to_equations; lia.

Lemma to_int_id z : is_int z -> to_int z = z.
Proof. intros; solve_ints. Qed.

Lemma to_size_t_id z : is_size_t z -> to_size_t z = z.
Proof. intros; solve_ints. Qed.

Lemma to_int_is_int z : is_int (to_int z).
Proof. solve_ints. Qed.

Lemma toggle_spec v : is_int v -> toggle v = - (v + 1).
Proof. unfold toggle. intros; solve_ints. Qed.

Lemma toggle_is_int v : is_int (toggle v).
Proof. apply to_int_is_int. Qed.

Lemma toggle_toggle v : is_int v -> toggle (toggle v) = v.
Proof.
  intros Hv. rewrite (toggle_spec v Hv), toggle_spec; [lia|].
  unfold_ints; lia.
Qed.

(** ** Reads and loops *)

Lemma read_Done {A} (arr : list A) (i : Z) (v : A) :
  0 <= i -> arr !! Z.to_nat i = Some v -> read arr i = Done v.
Proof.
  intros Hi Hv. unfold read. pose proof (lookup_lt_Some _ _ _ Hv).
  rewrite decide_True by lia. by rewrite Hv.
Qed.

Lemma read_nat {A} (arr : list A) (i : nat) (v : A) :
  arr !! i = Some v -> read arr (Z.of_nat i) = Done v.
Proof. intros Hv. apply read_Done; [lia|]. by rewrite Nat2Z.id. Qed.

Lemma read_inv {A} (arr : list A) (i : Z) (v : A) :
  read arr i = Done v -> 0 <= i /\ arr !! Z.to_nat i = Some v.
Proof.
  unfold read. case_decide; [|done].
  destruct (arr !! Z.to_nat i) eqn:E; [|done]. intros [= ->]. split; [lia|done].
Qed.

Lemma bind_Done {A B} (m : Run A) (k : A -> Run B) (b : B) :
  m ≫= k = Done b -> exists a, m = Done a /\ k a = Done b.
Proof. destruct m as [a|e]; [|done]. intros Hk. by exists a. Qed.

Lemma for_loop_add {St} (n1 n2 : nat) (i : Z) (body : Z -> St -> Run St) (s : St) :
  for_loop (n1 + n2) i body s =
  for_loop n1 i body s ≫= for_loop n2 (i + Z.of_nat n1) body.
Proof.
  revert i s. induction n1 as [|n1 IH]; intros i s.
  - cbn. by replace (i + Z.of_nat 0) with i by lia.
  - cbn. destruct (body i s) as [s'|e]; cbn; [|done].
    rewrite IH. by replace (i + 1 + Z.of_nat n1) with (i + Z.of_nat (S n1)) by lia.
Qed.

(** ** Hole flipping *)

Lemma collect_reversed_spec (ids : list Z) (n : nat) (valueVec : list Z) :
  (n <= length ids)%nat ->
  collect_reversed ids n valueVec = Done (valueVec ++ (toggle <$> reverse (take n ids))).
Proof.
  revert valueVec. induction n as [|n IH]; intros valueVec Hn.
  - cbn. by rewrite app_nil_r.
  - destruct (lookup_lt_is_Some_2 ids n) as [x Hx]; [lia|].
    cbn [collect_reversed]. rewrite (read_nat _ _ _ Hx). cbn.
    rewrite IH by lia. rewrite (take_S_r _ _ _ Hx), reverse_snoc.
    cbn. by rewrite <- app_assoc.
Qed.

Lemma write_back_spec (rest ids : list Z) (edgeIndex : nat) :
  (edgeIndex + length rest <= length ids)%nat ->
  write_back ids edgeIndex rest =
  take edgeIndex ids ++ rest ++ drop (edgeIndex + length rest) ids.
Proof.
  revert ids edgeIndex. induction rest as [|v rest IH]; intros ids edgeIndex Hlen.
  - cbn. rewrite Nat.add_0_r. by rewrite take_drop.
  - cbn [write_back length] in *. rewrite IH by (rewrite length_insert; lia).
    rewrite (take_S_r _ _ v) by (apply list_lookup_insert_eq; lia).
    rewrite take_insert_ge by lia.
    rewrite drop_insert_lt by lia.
    rewrite <- app_assoc. cbn. by rewrite Nat.add_succ_r.
Qed.

(** The flipped hole is the reversed list with every reference toggled. *)
Lemma changePolyFaceHoleOrientation_flip (polyFace : polyFaces) :
  Z.to_nat (h_holeEdgeCount polyFace) = length (h_edgeIdValue polyFace) ->
  changePolyFaceHoleOrientation polyFace =
  Done (set_h_edgeIdValue polyFace (reverse (toggle <$> h_edgeIdValue polyFace))).
Proof.
  intros Hn. unfold changePolyFaceHoleOrientation.
  rewrite Hn, collect_reversed_spec by done. cbn.
  rewrite firstn_all, write_back_spec;
    [|rewrite length_fmap, length_reverse; lia].
  rewrite length_fmap, length_reverse. cbn.
  rewrite drop_all, app_nil_r. by rewrite fmap_reverse.
Qed.

Lemma changePolyFaceHoleOrientation_spec (polyFace : polyFaces) :
  h_holeEdgeCount polyFace = Z.of_nat (length (h_edgeIdValue polyFace)) ->
  changePolyFaceHoleOrientation polyFace =
  Done (set_h_edgeIdValue polyFace (reverse (toggle <$> h_edgeIdValue polyFace))).
Proof. intros Hn. apply changePolyFaceHoleOrientation_flip. rewrite Hn. apply Nat2Z.id. Qed.

Lemma flip_flip (ids : list Z) :
  Forall is_int ids -> reverse (toggle <$> reverse (toggle <$> ids)) = ids.
Proof.
  intros Hids. rewrite fmap_reverse, reverse_involutive, <- list_fmap_compose.
  rewrite <- (list_fmap_id ids) at 2. apply Forall_fmap_ext_1.
  eapply Forall_impl; [exact Hids|]. intros v Hv. cbn. by apply toggle_toggle.
Qed.

(** C2: flipping a hole of [n] edge references yields the list in reversed
    order with every reference sent through [v ↦ -(v+1)]: position [j] of
    the result is [-(e[n-1-j] + 1)]; a non-negative index [i] becomes
    [-(i+1)] and [-(i+1)] becomes [i]. *)
Theorem C2_flip_reverses_and_toggles (polyFace : polyFaces) :
  h_holeEdgeCount polyFace = Z.of_nat (length (h_edgeIdValue polyFace)) ->
  Forall is_int (h_edgeIdValue polyFace) ->
  exists flipped,
    changePolyFaceHoleOrientation polyFace = Done flipped /\
    flipped = set_h_edgeIdValue polyFace (h_edgeIdValue flipped) /\
    length (h_edgeIdValue flipped) = length (h_edgeIdValue polyFace) /\
    (forall j : nat, (j < length (h_edgeIdValue polyFace))%nat ->
       exists v,
         h_edgeIdValue polyFace !! (length (h_edgeIdValue polyFace) - 1 - j)%nat = Some v /\
         h_edgeIdValue flipped !! j = Some (- (v + 1))) /\
    (forall i, 0 <= i -> is_int i ->
       toggle i = - (i + 1) /\ toggle (- (i + 1)) = i).
Proof.
  intros Hn Hint. eexists. split; [by apply changePolyFaceHoleOrientation_spec|].
  cbn. split; [done|]. split; [by rewrite length_reverse, length_fmap|]. split.
  - intros j Hj.
    destruct (lookup_lt_is_Some_2 (h_edgeIdValue polyFace)
                (length (h_edgeIdValue polyFace) - 1 - j)) as [v Hv]; [lia|].
    exists v. split; [done|].
    rewrite reverse_lookup by (rewrite length_fmap; lia).
    rewrite length_fmap, list_lookup_fmap.
    replace (length (h_edgeIdValue polyFace) - S j)%nat
      with (length (h_edgeIdValue polyFace) - 1 - j)%nat by lia.
    rewrite Hv. cbn. f_equal. apply toggle_spec.
    eapply Forall_lookup_1; eauto.
  - intros i Hi Hint'. split; [by apply toggle_spec|].
    rewrite toggle_spec; [lia|]. unfold_ints; lia.
Qed.

(** C10: flipping a hole twice gives the hole back. *)
Theorem C10_flip_involution (polyFace : polyFaces) :
  h_holeEdgeCount polyFace = Z.of_nat (length (h_edgeIdValue polyFace)) ->
  Forall is_int (h_edgeIdValue polyFace) ->
  changePolyFaceHoleOrientation polyFace ≫= changePolyFaceHoleOrientation
  = Done polyFace.
Proof.
  intros Hn Hint. rewrite changePolyFaceHoleOrientation_spec by done. cbn.
  rewrite changePolyFaceHoleOrientation_spec
    by (cbn; rewrite length_reverse, length_fmap; done).
  pose proof (flip_flip _ Hint) as Hflip.
  destruct polyFace; unfold set_h_edgeIdValue, set_h; cbn in *.
  do 2 f_equal. exact Hflip.
Qed.

(** ** Edge lookup *)

Lemma Edge_new_forward (a b : Z) :
  a < b -> Edge_new a b = mkEdge (a, b) false.
Proof. intros. unfold Edge_new. by rewrite decide_True. Qed.

Lemma Edge_new_backward (a b : Z) :
  a < b -> Edge_new b a = mkEdge (a, b) true.
Proof. intros. unfold Edge_new. by rewrite decide_False by lia. Qed.

Lemma getEdgeIndex_hit (edge : Edge) (edgeIndicesMap : EdgeIndicesMap) (i : Z) :
  edgeIndicesMap !! mVertexIndices edge = Some i ->
  getEdgeIndex edge edgeIndicesMap =
  Done (if isReverse edge then to_int (- to_int (to_int i + 1)) else to_int i).
Proof. intros Hi. unfold getEdgeIndex. by rewrite Hi. Qed.

Lemma getEdgeIndex_miss (edge : Edge) (edgeIndicesMap : EdgeIndicesMap) :
  edgeIndicesMap !! mVertexIndices edge = None ->
  getEdgeIndex edge edgeIndicesMap = Abort AssertionFailed.
Proof. intros Hi. unfold getEdgeIndex. by rewrite Hi. Qed.

Lemma getEdgeIndex_Done (edge : Edge) (edgeIndicesMap : EdgeIndicesMap) (r : Z) :
  getEdgeIndex edge edgeIndicesMap = Done r ->
  exists i, edgeIndicesMap !! mVertexIndices edge = Some i /\
            (r = to_int i \/ r = to_int (- to_int (to_int i + 1))).
Proof.
  unfold getEdgeIndex. destruct (edgeIndicesMap !! mVertexIndices edge) as [i|]; [|done].
  intros [= <-]. exists i. split; [done|]. destruct (isReverse edge); auto.
Qed.

(** C3: an edge found in the map with stored index [i] (an index that fits
    the [int] reference) resolves to [+i] when it is not reversed and to
    [-(i+1)] when it is; for a pair stored as [(a,b)], the query [(a,b)] is
    not reversed and the query [(b,a)] is. *)
Theorem C3_getEdgeIndex_signed_reference
    (edgeIndicesMap : EdgeIndicesMap) (edge : Edge) (i : Z) :
  edgeIndicesMap !! mVertexIndices edge = Some i ->
  0 <= i < 2 ^ 31 ->
  getEdgeIndex edge edgeIndicesMap =
    Done (if isReverse edge then - (i + 1) else i) /\
  (forall a b, mVertexIndices edge = (a, b) -> a < b ->
     isReverse (Edge_new a b) = false /\
     getEdgeIndex (Edge_new a b) edgeIndicesMap = Done i /\
     isReverse (Edge_new b a) = true /\
     getEdgeIndex (Edge_new b a) edgeIndicesMap = Done (- (i + 1))).
Proof.
  intros Hi Hrange.
  assert (Hpos : to_int i = i) by (apply to_int_id; unfold_ints; lia).
  assert (Hneg : to_int (- to_int (i + 1)) = - (i + 1)) by solve_ints.
  split.
  - rewrite (getEdgeIndex_hit _ _ _ Hi), Hpos, Hneg. done.
  - intros a b Hab Hlt. rewrite Hab in Hi.
    rewrite (Edge_new_forward _ _ Hlt), (Edge_new_backward _ _ Hlt).
    repeat split; try done.
    + rewrite (getEdgeIndex_hit _ _ i) by done. cbn. by rewrite Hpos.
    + rewrite (getEdgeIndex_hit _ _ i) by done. cbn. by rewrite Hpos, Hneg.
Qed.

(** ** Hole orientation *)

Lemma read_first_three {A} (a b c : A) (more : list A) :
  read (a :: b :: c :: more) 0 = Done a /\
  read (a :: b :: c :: more) 1 = Done b /\
  read (a :: b :: c :: more) 2 = Done c.
Proof. repeat split; apply read_Done; done || lia. Qed.

(** C1: with the first three points of the parent polygon and of the hole,
    the test computes the normals [(p1-p0) × (p2-p0)] and
    [(h1-h0) × (h2-h0)] and answers [true] exactly when their dot product
    is greater than zero (for any arithmetic of the scalar type). *)
Theorem C1_changeHoleOrientation_dot_of_normals `{Scalar real}
    (p0 p1 p2 h0 h1 h2 : Vector3 real) (morePolygonPoints moreHolePoints : list (Vector3 real)) :
  let parent_normal := crossProduct (Vector3_sub p1 p0) (Vector3_sub p2 p0) in
  let hole_normal := crossProduct (Vector3_sub h1 h0) (Vector3_sub h2 h0) in
  exists changeOrientation,
    changeHoleOrientation (p0 :: p1 :: p2 :: morePolygonPoints)
                          (h0 :: h1 :: h2 :: moreHolePoints)
    = Done changeOrientation /\
    (changeOrientation = true <->
     real_gt (dotProduct parent_normal hole_normal) real_zero = true).
Proof.
  intros parent_normal hole_normal.
  exists (real_gt (dotProduct parent_normal hole_normal) real_zero).
  split; [|done].
  unfold changeHoleOrientation.
  destruct (read_first_three p0 p1 p2 morePolygonPoints) as (-> & -> & ->).
  destruct (read_first_three h0 h1 h2 moreHolePoints) as (-> & -> & ->).
  cbn. fold parent_normal hole_normal.
  by destruct (real_gt _ _).
Qed.

(** ** Attribute slicer *)

Lemma mapM_Done {A B} (f : A -> Run B) (g : A -> B) (l : list A) :
  Forall (fun x => f x = Done (g x)) l -> mapM f l = Done (g <$> l).
Proof.
  induction 1 as [|x l Hx _ IH]; [done|].
  cbn. rewrite Hx. cbn. rewrite IH. done.
Qed.

Lemma mapM_Done_inv {A B} (f : A -> Run B) (l : list A) (r : list B) :
  mapM f l = Done r -> Forall2 (fun x y => f x = Done y) l r.
Proof.
  revert r. induction l as [|x l IH]; intros r; cbn.
  - intros [= <-]. constructor.
  - intros Hr. apply bind_Done in Hr as (y & Hy & Hr).
    apply bind_Done in Hr as (ys & Hys & Hr). injection Hr as <-.
    constructor; auto.
Qed.

(** A loop that writes cell [j] in round [j] fills the array. *)
Lemma for_loop_fill_from (h : Z -> Z) (body : Z -> list Z -> Run (list Z)) (n : nat) :
  (forall (j : nat) arr, (j < n)%nat ->
     body (Z.of_nat j) arr = Done (<[j := h (Z.of_nat j)]> arr)) ->
  forall (k j : nat) (arr : list Z),
    (j + k)%nat = n -> length arr = n ->
    for_loop k (Z.of_nat j) body arr =
    Done (take j arr ++ (h <$> seqZ (Z.of_nat j) (Z.of_nat k))).
Proof.
  intros Hbody. induction k as [|k IH]; intros j arr Hjk Hlen.
  - cbn. rewrite take_ge by lia. by rewrite app_nil_r.
  - cbn [for_loop]. rewrite Hbody by lia. cbn.
    replace (Z.of_nat j + 1) with (Z.of_nat (S j)) by lia.
    rewrite IH by (rewrite ?length_insert; lia).
    rewrite (take_S_r _ _ (h (Z.of_nat j))) by (apply list_lookup_insert_eq; lia).
    rewrite take_insert_ge by lia.
    rewrite (seqZ_cons (Z.of_nat j) (Z.of_nat (S k))) by lia.
    rewrite <- app_assoc. cbn.
    replace (Z.succ (Z.of_nat j)) with (Z.of_nat (S j)) by lia.
    by replace (Z.pred (Z.of_nat (S k))) with (Z.of_nat k) by lia.
Qed.

Lemma for_loop_fill (h : Z -> Z) (body : Z -> list Z -> Run (list Z)) (n : Z) :
  (forall j arr, 0 <= j < n -> body j arr = Done (<[Z.to_nat j := h j]> arr)) ->
  for_loop (Z.to_nat n) 0 body (new_int_array n) = Done (h <$> seqZ 0 n).
Proof.
  intros Hbody. destruct (decide (0 <= n)) as [Hn|Hn].
  - rewrite (for_loop_fill_from h body (Z.to_nat n) ) with (j := 0%nat) (k := Z.to_nat n);
      [ by rewrite Z2Nat.id | | done | apply length_replicate ].
    intros j arr Hj. rewrite Hbody by lia. by rewrite Nat2Z.id.
  - replace (Z.to_nat n) with 0%nat by lia. cbn.
    unfold new_int_array. replace (Z.to_nat n) with 0%nat by lia.
    by rewrite seqZ_nil by lia.
Qed.

Lemma slice_indices_spec (indexList : IndexList) (cursor n : Z) :
  stream_covers cursor n indexList ->
  slice_indices indexList cursor n = Done (slice indexList cursor n).
Proof.
  intros Hcov. unfold slice_indices, slice.
  apply for_loop_fill. intros j arr Hj.
  assert (Hpos : 0 <= to_size_t (j + cursor)) by solve_ints.
  destruct (lookup_lt_is_Some_2 (getIndices indexList) (Z.to_nat (to_size_t (j + cursor))))
    as [c Hc]; [specialize (Hcov j Hj); lia|].
  rewrite (read_Done _ _ c) by done. cbn.
  unfold index_at. by rewrite Hc.
Qed.

Lemma setUVSetInfos_spec {real} (mesh : Mesh real) (primitiveElement : MeshPrimitive)
    (polyFace : polyFaces) (cursor n : Z) :
  Forall (stream_covers cursor n) (getUVCoordIndicesArray primitiveElement) ->
  setUVSetInfos mesh primitiveElement polyFace cursor n =
  Done (set_mu polyFace (uv_slices mesh primitiveElement cursor n)
          (Z.of_nat (length (getUVCoordIndicesArray primitiveElement))),
        to_size_t (cursor + n)).
Proof.
  intros Hcov. unfold setUVSetInfos.
  rewrite (mapM_Done _ (fun indexList =>
             mkMU (to_int (getUVSetIndexByName mesh (getName indexList))) n
                  (slice indexList cursor n))); [done|].
  eapply Forall_impl; [exact Hcov|]. intros il Hil. cbn.
  by rewrite slice_indices_spec.
Qed.

Lemma setColorInfos_spec {real} (mesh : Mesh real) (primitiveElement : MeshPrimitive)
    (polyFace : polyFaces) (cursor n : Z) :
  Forall (stream_covers cursor n) (getColorIndicesArray primitiveElement) ->
  setColorInfos mesh primitiveElement polyFace cursor n =
  Done (set_mc polyFace (color_slices mesh primitiveElement cursor n)
          (Z.of_nat (length (getColorIndicesArray primitiveElement))),
        to_size_t (cursor + n)).
Proof.
  intros Hcov. unfold setColorInfos.
  rewrite (mapM_Done _ (fun indexList =>
             mkMC (to_int (getColorIndexByName mesh (getName indexList))) n
                  (slice indexList cursor n))); [done|].
  eapply Forall_impl; [exact Hcov|]. intros il Hil. cbn.
  by rewrite slice_indices_spec.
Qed.

(** Without wrap-around the slice is a segment of the stream. *)
Lemma slice_take_drop (indexList : IndexList) (cursor n : Z) :
  0 <= cursor -> 0 <= n ->
  cursor + n <= Z.of_nat (length (getIndices indexList)) ->
  is_size_t (Z.of_nat (length (getIndices indexList))) ->
  slice indexList cursor n =
  (fun c => to_int (to_size_t (c - getInitialIndex indexList)))
  <$> take (Z.to_nat n) (drop (Z.to_nat cursor) (getIndices indexList)).
Proof.
  intros Hc Hn Hlen Hsz. unfold slice. apply list_eq. intros i.
  rewrite !list_lookup_fmap.
  destruct (decide (i < Z.to_nat n)%nat) as [Hi|Hi].
  - rewrite lookup_seqZ_lt by lia. cbn.
    rewrite lookup_take_lt, lookup_drop by lia.
    rewrite to_size_t_id by (unfold_ints; lia).
    destruct (lookup_lt_is_Some_2 (getIndices indexList) (Z.to_nat cursor + i))
      as [c Hcv]; [lia|].
    unfold index_at.
    replace (Z.to_nat (0 + Z.of_nat i + cursor)) with (Z.to_nat cursor + i)%nat by lia.
    rewrite Hcv. done.
  - rewrite lookup_seqZ_ge by lia. cbn.
    by rewrite lookup_take_ge by lia.
Qed.

Lemma stream_covers_no_wrap (indexList : IndexList) (cursor n : Z) :
  0 <= cursor ->
  cursor + n <= Z.of_nat (length (getIndices indexList)) ->
  is_size_t (Z.of_nat (length (getIndices indexList))) ->
  stream_covers cursor n indexList.
Proof.
  intros Hc Hlen Hsz j Hj. rewrite to_size_t_id; [lia|]. unfold_ints; lia.
Qed.

(** ** Triangle fans and strips *)

Lemma getEdgeIndex_present (edgeIndicesMap : EdgeIndicesMap) (a b : Z) :
  edge_present edgeIndicesMap a b ->
  getEdgeIndex (Edge_new (to_int a) (to_int b)) edgeIndicesMap
  = Done (edge_ref edgeIndicesMap a b).
Proof.
  intros [i Hi]. unfold edge_ref. by rewrite (getEdgeIndex_hit _ _ _ Hi).
Qed.

(** The embedded decoders are instances of the common form. *)
Lemma appendTrifansPolyFaces_edge_common {real} (mesh : Mesh real)
    (primitiveElement : MeshPrimitive) (edgeIndicesMap : EdgeIndicesMap) (st : TriState) :
  appendTrifansPolyFaces_edge mesh primitiveElement edgeIndicesMap st =
  tri_edge Trifans mesh primitiveElement edgeIndicesMap st.
Proof. reflexivity. Qed.

Lemma appendTristripsPolyFaces_edge_common {real} (mesh : Mesh real)
    (primitiveElement : MeshPrimitive) (edgeIndicesMap : EdgeIndicesMap) (st : TriState) :
  appendTristripsPolyFaces_edge mesh primitiveElement edgeIndicesMap st =
  tri_edge Tristrips mesh primitiveElement edgeIndicesMap st.
Proof. reflexivity. Qed.

Lemma group_decoder_common {real} (kind : TriKind) (mesh : Mesh real)
    (primitiveElement : MeshPrimitive) (edgeIndicesMap : EdgeIndicesMap)
    (st : TriState) (vertexCount : Z) :
  group_decoder kind mesh primitiveElement edgeIndicesMap st vertexCount =
  tri_group kind mesh primitiveElement edgeIndicesMap st vertexCount.
Proof. destruct kind; reflexivity. Qed.

Section triangle.
Context {real : Type} (kind : TriKind) (mesh : Mesh real)
        (primitiveElement : MeshPrimitive) (edgeIndicesMap : EdgeIndicesMap).

Local Abbreviation positionIndices := (getPositionIndices primitiveElement).
Local Abbreviation step := (tri_edge kind mesh primitiveElement edgeIndicesMap).

(** First edge of a triangle: from the vertex at [initialPositionIndex]
    to the next position. *)
Lemma tri_edge_first pf init q cu cc faces a b :
  (kind = Tristrips -> init = q) ->
  0 <= init -> positionIndices !! Z.to_nat init = Some a ->
  0 <= q -> is_size_t (q + 1) ->
  positionIndices !! Z.to_nat (q + 1) = Some b ->
  edge_present edgeIndicesMap a b ->
  step (mkTriState pf 0 init q cu cc faces) =
  Done (mkTriState (set_f pf 3 [edge_ref edgeIndicesMap a b; 0; 0])
          1 init (q + 1) cu cc faces).
Proof.
  intros Hkind Hinit Ha Hq Hq1 Hb Hab. unfold tri_edge. cbn.
  change (to_size_t (0 + 1)) with 1.
  rewrite (decide_True (P := 1 < 3)) by lia.
  rewrite (to_size_t_id (q + 1)) by done.
  assert (Hstart : match kind with
                   | Trifans => if decide (1 > 1)
                                then read (getPositionIndices primitiveElement) q
                                else read (getPositionIndices primitiveElement) init
                   | Tristrips => read (getPositionIndices primitiveElement) q
                   end = Done a).
  { destruct kind.
    - rewrite decide_False by lia. by apply read_Done.
    - rewrite <- Hkind by done. by apply read_Done. }
  rewrite Hstart. cbn.
  rewrite (read_Done _ (q + 1) b) by (done || lia). cbn.
  rewrite getEdgeIndex_present by done. cbn.
  rewrite decide_False by lia. done.
Qed.

(** Second edge: from the current position to the next one. *)
Lemma tri_edge_second pf init q cu cc faces b c :
  0 <= q -> is_size_t (q + 1) ->
  positionIndices !! Z.to_nat q = Some b ->
  positionIndices !! Z.to_nat (q + 1) = Some c ->
  edge_present edgeIndicesMap b c ->
  step (mkTriState pf 1 init q cu cc faces) =
  Done (mkTriState
          (set_f_edgeIdValue pf (<[1%nat := edge_ref edgeIndicesMap b c]> (f_edgeIdValue pf)))
          2 init (q + 1) cu cc faces).
Proof.
  intros Hq Hq1 Hb Hc Hbc. unfold tri_edge. cbn.
  change (to_size_t (1 + 1)) with 2.
  rewrite (decide_False (P := 1 = 0)) by lia.
  rewrite (decide_True (P := 2 < 3)) by lia.
  rewrite (to_size_t_id (q + 1)) by done.
  assert (Hstart : match kind with
                   | Trifans => if decide (2 > 1)
                                then read (getPositionIndices primitiveElement) q
                                else read (getPositionIndices primitiveElement) init
                   | Tristrips => read (getPositionIndices primitiveElement) q
                   end = Done b).
  { destruct kind; [rewrite decide_True by lia|]; by apply read_Done. }
  rewrite Hstart. cbn.
  rewrite (read_Done _ (q + 1) c) by (done || lia). cbn.
  rewrite getEdgeIndex_present by done. cbn.
  rewrite decide_False by lia. done.
Qed.

(** Third edge: back to the vertex at [initialPositionIndex]; the
    attributes are sliced, both cursors and the position cursor are
    moved back, and the face is appended. *)
Lemma tri_edge_third pf init q cu cc faces c a :
  0 <= init -> positionIndices !! Z.to_nat init = Some a ->
  0 < q -> is_size_t q ->
  positionIndices !! Z.to_nat q = Some c ->
  edge_present edgeIndicesMap c a ->
  Forall (stream_covers cu 3) (getUVCoordIndicesArray primitiveElement) ->
  Forall (stream_covers cc 3) (getColorIndicesArray primitiveElement) ->
  let face :=
    set_mc
      (set_mu
         (set_f_edgeIdValue pf (<[2%nat := edge_ref edgeIndicesMap c a]> (f_edgeIdValue pf)))
         (uv_slices mesh primitiveElement cu 3)
         (Z.of_nat (length (getUVCoordIndicesArray primitiveElement))))
      (color_slices mesh primitiveElement cc 3)
      (Z.of_nat (length (getColorIndicesArray primitiveElement))) in
  step (mkTriState pf 2 init q cu cc faces) =
  Done (mkTriState face 0
          (match kind with Trifans => init | Tristrips => q - 1 end)
          (q - 1) (to_size_t (cu + 1)) (to_size_t (cc + 1)) (faces ++ [face])).
Proof.
  intros Hinit Ha Hq Hqs Hc Hca Huv Hcol face. unfold tri_edge. cbn.
  change (to_size_t (2 + 1)) with 3.
  rewrite (decide_False (P := 2 = 0)) by lia.
  rewrite (decide_False (P := 3 < 3)) by lia.
  assert (Hstart : match kind with
                   | Trifans => if decide (3 > 1)
                                then read (getPositionIndices primitiveElement) q
                                else read (getPositionIndices primitiveElement) init
                   | Tristrips => read (getPositionIndices primitiveElement) q
                   end = Done c).
  { destruct kind; [rewrite decide_True by lia|]; apply read_Done; done || lia. }
  rewrite Hstart. cbn.
  rewrite (read_Done _ init a) by done. cbn.
  rewrite getEdgeIndex_present by done. cbn.
  rewrite decide_True by lia.
  rewrite setUVSetInfos_spec by done. cbn.
  rewrite setColorInfos_spec by done. cbn.
  rewrite (to_size_t_id (q - 1)) by (unfold_ints; lia).
  replace (to_size_t (to_size_t (cu + 3) - 2)) with (to_size_t (cu + 1)) by solve_ints.
  replace (to_size_t (to_size_t (cc + 3) - 2)) with (to_size_t (cc + 1)) by solve_ints.
  done.
Qed.
End triangle.

Lemma position_at_Some (primitiveElement : MeshPrimitive) (i : Z) :
  0 <= i < Z.of_nat (length (getPositionIndices primitiveElement)) ->
  getPositionIndices primitiveElement !! Z.to_nat i
  = Some (position_at primitiveElement i).
Proof.
  intros Hi. unfold position_at.
  destruct (lookup_lt_is_Some_2 (getPositionIndices primitiveElement) (Z.to_nat i))
    as [v Hv]; [lia|]. by rewrite Hv.
Qed.

Lemma to_size_t_add_l (a b : Z) : to_size_t (to_size_t a + b) = to_size_t (a + b).
Proof. solve_ints. Qed.

Section triangles.
Context {real : Type} (kind : TriKind) (mesh : Mesh real)
        (primitiveElement : MeshPrimitive) (edgeIndicesMap : EdgeIndicesMap).

Local Abbreviation step := (tri_edge kind mesh primitiveElement edgeIndicesMap).
Local Abbreviation len := (Z.of_nat (length (getPositionIndices primitiveElement))).

(** Three edge steps from a triangle boundary emit one triangle. *)
Lemma tri_triangle pf init q cu cc faces (j : Z) :
  h_holeEdgeCount pf = 0 -> h_edgeIdValue pf = [] ->
  (kind = Tristrips -> init = q) ->
  0 <= init < len -> 0 <= q -> q + 2 < len -> is_size_t len ->
  is_size_t cu -> is_size_t cc ->
  triangle_edges_present kind primitiveElement edgeIndicesMap init q 0 ->
  triangle_attributes_covered primitiveElement cu cc 0 ->
  let face := group_triangle kind mesh primitiveElement edgeIndicesMap init q cu cc 0 in
  for_loop 3 j (fun _ => step) (mkTriState pf 0 init q cu cc faces) =
  Done (mkTriState face 0
          (match kind with Trifans => init | Tristrips => q + 1 end)
          (q + 1) (to_size_t (cu + 1)) (to_size_t (cc + 1)) (faces ++ [face])).
Proof.
  intros Hh1 Hh2 Hkind Hinit Hq Hq2 Hlen Hcu Hcc (Hab & Hbc & Hca) (Huv & Hcol) face.
  unfold triangle_edges_present, triangle_attributes_covered in *.
  subst face. unfold group_triangle.
  cbn [Z.of_nat] in *. rewrite !Z.add_0_r in *.
  rewrite (to_size_t_id cu), (to_size_t_id cc) in * by done.
  assert (Hinit_q : match kind with Trifans => init | Tristrips => q end = init)
    by (destruct kind; [done|symmetry; auto]).
  rewrite Hinit_q in *.
  cbn [for_loop].
  rewrite (tri_edge_first kind mesh primitiveElement edgeIndicesMap
             pf init q cu cc faces
             (position_at primitiveElement init)
             (position_at primitiveElement (q + 1)) Hkind);
    [ | lia | apply position_at_Some; lia | lia | unfold_ints; lia
      | apply position_at_Some; lia | done ].
  cbn [mbind Run_bind].
  rewrite (tri_edge_second kind mesh primitiveElement edgeIndicesMap
             _ init (q + 1) cu cc faces
             (position_at primitiveElement (q + 1))
             (position_at primitiveElement (q + 2)));
    [ | lia | unfold_ints; lia | apply position_at_Some; lia
      | replace (q + 1 + 1) with (q + 2) by lia;
        apply position_at_Some; lia
      | done ].
  cbn [mbind Run_bind].
  replace (q + 1 + 1) with (q + 2) by lia.
  rewrite (tri_edge_third kind mesh primitiveElement edgeIndicesMap
             _ init (q + 2) cu cc faces
             (position_at primitiveElement (q + 2))
             (position_at primitiveElement init));
    [ | lia | apply position_at_Some; lia | lia | unfold_ints; lia
      | apply position_at_Some; lia | done | done | done ].
  cbn [mbind Run_bind for_loop].
  replace (q + 2 - 1) with (q + 1) by lia.
  unfold triangle_face, set_mc, set_mu, set_f_edgeIdValue, set_f. cbn.
  rewrite Hh1, Hh2. done.
Qed.
End triangles.

Section groups.
Context {real : Type} (kind : TriKind) (mesh : Mesh real)
        (primitiveElement : MeshPrimitive) (edgeIndicesMap : EdgeIndicesMap).

Local Abbreviation step := (tri_edge kind mesh primitiveElement edgeIndicesMap).
Local Abbreviation len := (Z.of_nat (length (getPositionIndices primitiveElement))).
Local Abbreviation next_init := (next_initialPositionIndex kind).

Lemma apex_shift init q (i : nat) :
  match kind with
  | Trifans => next_init init q
  | Tristrips => q + 1 + Z.of_nat i
  end =
  match kind with Trifans => init | Tristrips => q + Z.of_nat (S i) end.
Proof. unfold next_initialPositionIndex. destruct kind; lia. Qed.

Lemma group_triangle_shift init q cu cc (i : nat) :
  group_triangle kind mesh primitiveElement edgeIndicesMap
    (next_init init q) (q + 1) (to_size_t (cu + 1)) (to_size_t (cc + 1)) i =
  group_triangle kind mesh primitiveElement edgeIndicesMap init q cu cc (S i).
Proof.
  unfold group_triangle. rewrite apex_shift.
  replace (q + 1 + 1 + Z.of_nat i) with (q + 1 + Z.of_nat (S i)) by lia.
  replace (q + 1 + 2 + Z.of_nat i) with (q + 2 + Z.of_nat (S i)) by lia.
  rewrite !to_size_t_add_l.
  replace (cu + 1 + Z.of_nat i) with (cu + Z.of_nat (S i)) by lia.
  replace (cc + 1 + Z.of_nat i) with (cc + Z.of_nat (S i)) by lia.
  done.
Qed.

Lemma triangle_edges_present_shift init q (i : nat) :
  triangle_edges_present kind primitiveElement edgeIndicesMap init q (S i) ->
  triangle_edges_present kind primitiveElement edgeIndicesMap
    (next_init init q) (q + 1) i.
Proof.
  unfold triangle_edges_present. rewrite apex_shift.
  replace (q + 1 + 1 + Z.of_nat i) with (q + 1 + Z.of_nat (S i)) by lia.
  replace (q + 1 + 2 + Z.of_nat i) with (q + 2 + Z.of_nat (S i)) by lia.
  done.
Qed.

Lemma triangle_attributes_covered_shift cu cc (i : nat) :
  triangle_attributes_covered primitiveElement cu cc (S i) ->
  triangle_attributes_covered primitiveElement
    (to_size_t (cu + 1)) (to_size_t (cc + 1)) i.
Proof.
  unfold triangle_attributes_covered. rewrite !to_size_t_add_l.
  replace (cu + 1 + Z.of_nat i) with (cu + Z.of_nat (S i)) by lia.
  replace (cc + 1 + Z.of_nat i) with (cc + Z.of_nat (S i)) by lia.
  done.
Qed.

(** [3 * t] edge steps from a triangle boundary emit [t] triangles. *)
Lemma tri_triangles (t : nat) : forall pf init q cu cc faces (j : Z),
  h_holeEdgeCount pf = 0 -> h_edgeIdValue pf = [] ->
  (kind = Tristrips -> init = q) ->
  0 <= init < len -> 0 <= q -> q + Z.of_nat t + 1 < len \/ t = 0%nat ->
  is_size_t len -> is_size_t cu -> is_size_t cc ->
  (forall i, (i < t)%nat ->
     triangle_edges_present kind primitiveElement edgeIndicesMap init q i) ->
  (forall i, (i < t)%nat -> triangle_attributes_covered primitiveElement cu cc i) ->
  exists pf',
    h_holeEdgeCount pf' = 0 /\ h_edgeIdValue pf' = [] /\
    for_loop (3 * t) j (fun _ => step) (mkTriState pf 0 init q cu cc faces) =
    Done (mkTriState pf' 0
            (match kind with Trifans => init | Tristrips => q + Z.of_nat t end)
            (q + Z.of_nat t)
            (to_size_t (cu + Z.of_nat t)) (to_size_t (cc + Z.of_nat t))
            (faces ++ (group_triangle kind mesh primitiveElement edgeIndicesMap
                         init q cu cc <$> seq 0 t))).
Proof.
  induction t as [|t IH];
    intros pf init q cu cc faces j Hh1 Hh2 Hkind Hinit Hq Hqt Hlen Hcu Hcc Hedges Hattrs.
  - exists pf. split; [done|]. split; [done|]. cbn.
    rewrite !Z.add_0_r, app_nil_r, (to_size_t_id cu), (to_size_t_id cc) by done.
    destruct kind; [done|]. by rewrite <- Hkind.
  - replace (3 * S t)%nat with (3 + 3 * t)%nat by lia.
    rewrite for_loop_add.
    rewrite tri_triangle; try done; try lia; [|apply Hedges; lia|apply Hattrs; lia].
    cbn [mbind Run_bind]. fold (next_init init q).
    destruct (IH (group_triangle kind mesh primitiveElement edgeIndicesMap init q cu cc 0)
                (next_init init q) (q + 1) (to_size_t (cu + 1)) (to_size_t (cc + 1))
                (faces ++ [group_triangle kind mesh primitiveElement edgeIndicesMap
                             init q cu cc 0])
                (j + Z.of_nat 3))
      as (pf' & Hpf1 & Hpf2 & Hrun); try done.
    + unfold next_initialPositionIndex. by destruct kind.
    + unfold next_initialPositionIndex. destruct kind; lia.
    + lia.
    + lia.
    + solve_ints.
    + solve_ints.
    + intros i Hi. apply triangle_edges_present_shift, Hedges. lia.
    + intros i Hi. apply triangle_attributes_covered_shift, Hattrs. lia.
    + exists pf'. split; [done|]. split; [done|]. rewrite Hrun.
      rewrite !to_size_t_add_l.
      replace (q + 1 + Z.of_nat t) with (q + Z.of_nat (S t)) by lia.
      replace (cu + 1 + Z.of_nat t) with (cu + Z.of_nat (S t)) by lia.
      replace (cc + 1 + Z.of_nat t) with (cc + Z.of_nat (S t)) by lia.
      rewrite <- app_assoc. cbn [app seq fmap list_fmap].
      rewrite <- fmap_S_seq, <- list_fmap_compose.
      do 2 f_equal.
      * unfold next_initialPositionIndex. by destruct kind.
      * do 2 f_equal. apply list_fmap_ext. intros ? i ?. cbn.
        apply group_triangle_shift.
Qed.
End groups.

(** One group of [k >= 3] vertices, entered with both position cursors at
    [p]: [k - 2] triangles are appended and the position cursors end at
    [p + k]. *)
Lemma tri_group_spec {real} (kind : TriKind) (mesh : Mesh real)
    (primitiveElement : MeshPrimitive) (edgeIndicesMap : EdgeIndicesMap)
    (st : TriState) (k : Z) :
  let p := st_positionIndex st in
  let cu := st_uvSetIndicesIndex st in
  let cc := st_colorIndicesIndex st in
  let len := Z.of_nat (length (getPositionIndices primitiveElement)) in
  st_initialPositionIndex st = p ->
  3 <= k -> 3 * (k - 2) < 2 ^ 32 ->
  0 <= p -> p + k <= len -> is_size_t len -> is_size_t cu -> is_size_t cc ->
  (forall i, (i < Z.to_nat (k - 2))%nat ->
     triangle_edges_present kind primitiveElement edgeIndicesMap p p i) ->
  (forall i, (i < Z.to_nat (k - 2))%nat ->
     triangle_attributes_covered primitiveElement cu cc i) ->
  exists pf',
    tri_group kind mesh primitiveElement edgeIndicesMap st k =
    Done (mkTriState pf' 0 (p + k) (p + k)
            (cursor_after kind cu k) (cursor_after kind cc k)
            (st_meshNode st ++
             (group_triangle kind mesh primitiveElement edgeIndicesMap p p cu cc
              <$> seq 0 (Z.to_nat (k - 2))))).
Proof.
  intros p cu cc len Hinit Hk Hk32 Hp Hpk Hlen Hcu Hcc Hedges Hattrs.
  unfold tri_group. rewrite Hinit. fold p cu cc.
  replace (to_uint ((k - 3) * 3 + 3)) with (3 * (k - 2)) by solve_ints.
  replace (Z.to_nat (3 * (k - 2))) with (3 * Z.to_nat (k - 2))%nat by lia.
  destruct (tri_triangles kind mesh primitiveElement edgeIndicesMap (Z.to_nat (k - 2))
              polyFaces_new p p cu cc (st_meshNode st) 0)
    as (pf' & _ & _ & Hrun); try done; try (fold len; lia).
  exists pf'. rewrite Hrun. cbn [mbind Run_bind].
  cbn [st_polyFace st_triangleEdgeCounter st_initialPositionIndex st_positionIndex
       st_uvSetIndicesIndex st_colorIndicesIndex st_meshNode].
  rewrite Z2Nat.id by lia.
  replace (p + (k - 2) + 2) with (p + k) by lia.
  rewrite (to_size_t_id (p + k)) by (unfold_ints; unfold len in *; lia).
  unfold cursor_after, len in *.
  destruct kind; do 2 f_equal; solve_ints.
Qed.

(** ** The fan and strip decoders on one group *)

Lemma position_at_group (primitiveElement : MeshPrimitive)
    (before vs after : list Z) (j : nat) (v : Z) :
  getPositionIndices primitiveElement = before ++ vs ++ after ->
  vs !! j = Some v ->
  position_at primitiveElement (Z.of_nat (length before) + Z.of_nat j) = v.
Proof.
  intros Hpos Hv. unfold position_at. rewrite Hpos.
  replace (Z.to_nat (Z.of_nat (length before) + Z.of_nat j))
    with (length before + j)%nat by lia.
  rewrite lookup_app_r by lia.
  replace (length before + j - length before)%nat with j by lia.
  rewrite lookup_app_l by (by eapply lookup_lt_Some). by rewrite Hv.
Qed.

Lemma covered_of_stream (channels : list IndexList) (cursor k : Z) (i : nat) :
  Forall (stream_covers cursor k) channels ->
  Z.of_nat i + 3 <= k ->
  Forall (stream_covers (to_size_t (cursor + Z.of_nat i)) 3) channels.
Proof.
  intros Hall Hi. eapply Forall_impl; [exact Hall|].
  intros il Hil j Hj. rewrite Z.add_comm, to_size_t_add_l.
  replace (cursor + Z.of_nat i + j) with (Z.of_nat i + j + cursor) by lia.
  apply Hil. lia.
Qed.

Section group_decoding.
Context {real : Type} (kind : TriKind) (mesh : Mesh real)
        (primitiveElement : MeshPrimitive) (edgeIndicesMap : EdgeIndicesMap)
        (st : TriState) (before vs after : list Z).

Hypothesis Hpositions :
  getPositionIndices primitiveElement = before ++ vs ++ after.
Hypothesis Hlength :
  is_size_t (Z.of_nat (length (getPositionIndices primitiveElement))).
Hypothesis Hposition : st_positionIndex st = Z.of_nat (length before).
Hypothesis Hinitial : st_initialPositionIndex st = Z.of_nat (length before).
Hypothesis Huv_cursor : is_size_t (st_uvSetIndicesIndex st).
Hypothesis Hcolor_cursor : is_size_t (st_colorIndicesIndex st).
Hypothesis Hk : (3 <= length vs)%nat.
Hypothesis HnumEdges : 3 * (Z.of_nat (length vs) - 2) < 2 ^ 32.
Hypothesis Huv :
  Forall (stream_covers (st_uvSetIndicesIndex st) (Z.of_nat (length vs)))
         (getUVCoordIndicesArray primitiveElement).
Hypothesis Hcolor :
  Forall (stream_covers (st_colorIndicesIndex st) (Z.of_nat (length vs)))
         (getColorIndicesArray primitiveElement).

Local Abbreviation p := (Z.of_nat (length before)).

(** With the edges of every triangle in the table, the group is decoded
    into [length vs - 2] triangles. *)
Lemma tri_group_faces :
  (forall i, (i < length vs - 2)%nat ->
     triangle_edges_present kind primitiveElement edgeIndicesMap p p i) ->
  exists pf',
    tri_group kind mesh primitiveElement edgeIndicesMap st (Z.of_nat (length vs)) =
    Done (mkTriState pf' 0 (p + Z.of_nat (length vs)) (p + Z.of_nat (length vs))
            (cursor_after kind (st_uvSetIndicesIndex st) (Z.of_nat (length vs)))
            (cursor_after kind (st_colorIndicesIndex st) (Z.of_nat (length vs)))
            (st_meshNode st ++
             (group_triangle kind mesh primitiveElement edgeIndicesMap p p
                (st_uvSetIndicesIndex st) (st_colorIndicesIndex st)
              <$> seq 0 (length vs - 2)))).
Proof.
  intros Hedges.
  destruct (tri_group_spec kind mesh primitiveElement edgeIndicesMap st
              (Z.of_nat (length vs))) as (pf' & Hrun).
  - by rewrite Hinitial, Hposition.
  - lia.
  - done.
  - rewrite Hposition. lia.
  - rewrite Hposition, Hpositions, !length_app. lia.
  - done.
  - done.
  - done.
  - intros i Hi. rewrite Hposition. apply Hedges. lia.
  - intros i Hi.
    split; apply covered_of_stream with (k := Z.of_nat (length vs)); done || lia.
  - exists pf'. rewrite Hrun, Hposition.
    by replace (Z.to_nat (Z.of_nat (length vs) - 2)) with (length vs - 2)%nat by lia.
Qed.
End group_decoding.

(** C4: a fan group of [k >= 3] vertices [v[0..k-1]] is decoded into
    exactly [k - 2] faces; face [i] ([i = 1..k-2]) is a triangle of three
    edge references, without hole, whose edges are [v[0]→v[i]],
    [v[i]→v[i+1]] and [v[i+1]→v[0]].  Both position cursors are left at
    the first vertex of the next group.  The fan [0,1,2,3,4] gives three
    faces. *)
Theorem C4_trifan_group_triangles {real} (mesh : Mesh real)
    (primitiveElement : MeshPrimitive) (edgeIndicesMap : EdgeIndicesMap)
    (st : TriState) (before vs after : list Z) :
  getPositionIndices primitiveElement = before ++ vs ++ after ->
  is_size_t (Z.of_nat (length (getPositionIndices primitiveElement))) ->
  st_positionIndex st = Z.of_nat (length before) ->
  st_initialPositionIndex st = Z.of_nat (length before) ->
  is_size_t (st_uvSetIndicesIndex st) ->
  is_size_t (st_colorIndicesIndex st) ->
  (3 <= length vs)%nat ->
  3 * (Z.of_nat (length vs) - 2) < 2 ^ 32 ->
  Forall (stream_covers (st_uvSetIndicesIndex st) (Z.of_nat (length vs)))
         (getUVCoordIndicesArray primitiveElement) ->
  Forall (stream_covers (st_colorIndicesIndex st) (Z.of_nat (length vs)))
         (getColorIndicesArray primitiveElement) ->
  (forall (i : nat) v0 vi vj,
     (1 <= i <= length vs - 2)%nat ->
     vs !! 0%nat = Some v0 -> vs !! i = Some vi -> vs !! S i = Some vj ->
     edge_present edgeIndicesMap v0 vi /\ edge_present edgeIndicesMap vi vj /\
     edge_present edgeIndicesMap vj v0) ->
  (exists st' new,
     appendTrifansPolyFaces_group mesh primitiveElement edgeIndicesMap st
       (Z.of_nat (length vs)) = Done st' /\
     st_positionIndex st' = Z.of_nat (length before) + Z.of_nat (length vs) /\
     st_initialPositionIndex st' = Z.of_nat (length before) + Z.of_nat (length vs) /\
     st_meshNode st' = st_meshNode st ++ new /\
     length new = (length vs - 2)%nat /\
     forall (i : nat) v0 vi vj,
       (1 <= i <= length vs - 2)%nat ->
       vs !! 0%nat = Some v0 -> vs !! i = Some vi -> vs !! S i = Some vj ->
       exists face r1 r2 r3,
         new !! (i - 1)%nat = Some face /\
         f_faceEdgeCount face = 3 /\ f_edgeIdValue face = [r1; r2; r3] /\
         h_holeEdgeCount face = 0 /\ h_edgeIdValue face = [] /\
         getEdgeIndex (Edge_new (to_int v0) (to_int vi)) edgeIndicesMap = Done r1 /\
         getEdgeIndex (Edge_new (to_int vi) (to_int vj)) edgeIndicesMap = Done r2 /\
         getEdgeIndex (Edge_new (to_int vj) (to_int v0)) edgeIndicesMap = Done r3) /\
  (exists f1 f2 f3,
     appendTrifansPolyFaces (sample_mesh 1 [fan5] 3) fan5 fan_map [] = Done [f1; f2; f3]).
Proof.
  intros Hpos Hlen Hp Hinit Hcu Hcc Hk Hk32 Huv Hcol Hedges.
  split; [|by vm_compute; eauto].
  set (p := Z.of_nat (length before)).
  assert (Hat : forall j v, vs !! j = Some v ->
                  position_at primitiveElement (p + Z.of_nat j) = v)
    by (intros; by eapply position_at_group).
  destruct (tri_group_faces Trifans mesh primitiveElement edgeIndicesMap st
              before vs after) as (pf' & Hrun); try done.
  { intros i Hi.
    destruct (lookup_lt_is_Some_2 vs 0) as [v0 Hv0]; [lia|].
    destruct (lookup_lt_is_Some_2 vs (S i)) as [vi Hvi]; [lia|].
    destruct (lookup_lt_is_Some_2 vs (S (S i))) as [vj Hvj]; [lia|].
    pose proof (Hat _ _ Hv0) as Hat0. cbn [Z.of_nat] in Hat0. rewrite Z.add_0_r in Hat0.
    unfold triangle_edges_present. fold p.
    replace (p + 1 + Z.of_nat i) with (p + Z.of_nat (S i)) by lia.
    replace (p + 2 + Z.of_nat i) with (p + Z.of_nat (S (S i))) by lia.
    rewrite Hat0, (Hat _ _ Hvi), (Hat _ _ Hvj).
    apply (Hedges (S i)); done || lia. }
  eexists _, _. split; [exact (eq_trans (group_decoder_common _ _ _ _ _ _) Hrun)|].
  cbn [st_meshNode st_positionIndex st_initialPositionIndex].
  split; [done|]. split; [done|]. split; [done|].
  split; [by rewrite length_fmap, length_seq|].
  intros i v0 vi vj Hi Hv0 Hvi Hvj.
  destruct (Hedges i v0 vi vj) as (Hab & Hbc & Hca); try done.
  eexists _, _, _, _. split.
  { rewrite list_lookup_fmap, lookup_seq_lt by lia. reflexivity. }
  pose proof (Hat _ _ Hv0) as Hat0. cbn [Z.of_nat] in Hat0. rewrite Z.add_0_r in Hat0.
  unfold group_triangle, triangle_face.
  cbn [f_faceEdgeCount f_edgeIdValue h_holeEdgeCount h_edgeIdValue Nat.add]. fold p.
  replace (p + 1 + Z.of_nat (i - 1)) with (p + Z.of_nat i) by lia.
  replace (p + 2 + Z.of_nat (i - 1)) with (p + Z.of_nat (S i)) by lia.
  rewrite Hat0, (Hat _ _ Hvi), (Hat _ _ Hvj).
  repeat split; by apply getEdgeIndex_present.
Qed.

(** C5: a strip group of [k >= 3] vertices is decoded into exactly [k - 2]
    triangles; triangle [i] ([i = 0..k-3]) is formed from the window
    [(v[i], v[i+1], v[i+2])] and its first edge is the second edge of its
    predecessor.  Both position cursors are left at the first vertex of
    the next group.  The strip [0,1,2,3] gives two triangles that share
    the edge [(1,2)]. *)
Theorem C5_tristrip_group_triangles {real} (mesh : Mesh real)
    (primitiveElement : MeshPrimitive) (edgeIndicesMap : EdgeIndicesMap)
    (st : TriState) (before vs after : list Z) :
  getPositionIndices primitiveElement = before ++ vs ++ after ->
  is_size_t (Z.of_nat (length (getPositionIndices primitiveElement))) ->
  st_positionIndex st = Z.of_nat (length before) ->
  st_initialPositionIndex st = Z.of_nat (length before) ->
  is_size_t (st_uvSetIndicesIndex st) ->
  is_size_t (st_colorIndicesIndex st) ->
  (3 <= length vs)%nat ->
  3 * (Z.of_nat (length vs) - 2) < 2 ^ 32 ->
  Forall (stream_covers (st_uvSetIndicesIndex st) (Z.of_nat (length vs)))
         (getUVCoordIndicesArray primitiveElement) ->
  Forall (stream_covers (st_colorIndicesIndex st) (Z.of_nat (length vs)))
         (getColorIndicesArray primitiveElement) ->
  (forall (i : nat) a b c,
     (i + 2 < length vs)%nat ->
     vs !! i = Some a -> vs !! S i = Some b -> vs !! S (S i) = Some c ->
     edge_present edgeIndicesMap a b /\ edge_present edgeIndicesMap b c /\
     edge_present edgeIndicesMap c a) ->
  (exists st' new,
     appendTristripsPolyFaces_group mesh primitiveElement edgeIndicesMap st
       (Z.of_nat (length vs)) = Done st' /\
     st_positionIndex st' = Z.of_nat (length before) + Z.of_nat (length vs) /\
     st_initialPositionIndex st' = Z.of_nat (length before) + Z.of_nat (length vs) /\
     st_meshNode st' = st_meshNode st ++ new /\
     length new = (length vs - 2)%nat /\
     (forall (i : nat) a b c,
        (i + 2 < length vs)%nat ->
        vs !! i = Some a -> vs !! S i = Some b -> vs !! S (S i) = Some c ->
        exists face r1 r2 r3,
          new !! i = Some face /\
          f_faceEdgeCount face = 3 /\ f_edgeIdValue face = [r1; r2; r3] /\
          h_holeEdgeCount face = 0 /\ h_edgeIdValue face = [] /\
          getEdgeIndex (Edge_new (to_int a) (to_int b)) edgeIndicesMap = Done r1 /\
          getEdgeIndex (Edge_new (to_int b) (to_int c)) edgeIndicesMap = Done r2 /\
          getEdgeIndex (Edge_new (to_int c) (to_int a)) edgeIndicesMap = Done r3) /\
     (forall (i : nat),
        (1 <= i)%nat -> (i + 2 < length vs)%nat ->
        exists previous face shared,
          new !! (i - 1)%nat = Some previous /\ new !! i = Some face /\
          f_edgeIdValue previous !! 1%nat = Some shared /\
          f_edgeIdValue face !! 0%nat = Some shared)) /\
  (exists f1 f2 shared,
     appendTristripsPolyFaces (sample_mesh 1 [strip4] 2) strip4 strip_map []
     = Done [f1; f2] /\
     getEdgeIndex (Edge_new 1 2) strip_map = Done shared /\
     f_edgeIdValue f1 !! 1%nat = Some shared /\
     f_edgeIdValue f2 !! 0%nat = Some shared).
Proof.
  intros Hpos Hlen Hp Hinit Hcu Hcc Hk Hk32 Huv Hcol Hedges.
  split; [|by vm_compute; eauto 10].
  set (p := Z.of_nat (length before)).
  assert (Hat : forall j v, vs !! j = Some v ->
                  position_at primitiveElement (p + Z.of_nat j) = v)
    by (intros; by eapply position_at_group).
  destruct (tri_group_faces Tristrips mesh primitiveElement edgeIndicesMap st
              before vs after) as (pf' & Hrun); try done.
  { intros i Hi.
    destruct (lookup_lt_is_Some_2 vs i) as [a Ha]; [lia|].
    destruct (lookup_lt_is_Some_2 vs (S i)) as [b Hb]; [lia|].
    destruct (lookup_lt_is_Some_2 vs (S (S i))) as [c Hc]; [lia|].
    unfold triangle_edges_present. fold p.
    replace (p + 1 + Z.of_nat i) with (p + Z.of_nat (S i)) by lia.
    replace (p + 2 + Z.of_nat i) with (p + Z.of_nat (S (S i))) by lia.
    rewrite (Hat _ _ Ha), (Hat _ _ Hb), (Hat _ _ Hc).
    apply (Hedges i); done || lia. }
  eexists _, _. split; [exact (eq_trans (group_decoder_common _ _ _ _ _ _) Hrun)|].
  cbn [st_meshNode st_positionIndex st_initialPositionIndex].
  split; [done|]. split; [done|]. split; [done|].
  split; [by rewrite length_fmap, length_seq|].
  assert (Hface : forall (i : nat) a b c,
            (i + 2 < length vs)%nat ->
            vs !! i = Some a -> vs !! S i = Some b -> vs !! S (S i) = Some c ->
            (group_triangle Tristrips mesh primitiveElement edgeIndicesMap p p
               (st_uvSetIndicesIndex st) (st_colorIndicesIndex st)
             <$> seq 0 (length vs - 2)) !! i
            = Some (triangle_face mesh primitiveElement edgeIndicesMap a b c
                      (to_size_t (st_uvSetIndicesIndex st + Z.of_nat i))
                      (to_size_t (st_colorIndicesIndex st + Z.of_nat i)))).
  { intros i a b c Hi Ha Hb Hc.
    rewrite list_lookup_fmap, lookup_seq_lt by lia. cbn.
    unfold group_triangle.
    replace (p + 1 + Z.of_nat i) with (p + Z.of_nat (S i)) by lia.
    replace (p + 2 + Z.of_nat i) with (p + Z.of_nat (S (S i))) by lia.
    by rewrite (Hat _ _ Ha), (Hat _ _ Hb), (Hat _ _ Hc). }
  split.
  - intros i a b c Hi Ha Hb Hc.
    destruct (Hedges i a b c) as (Hab & Hbc & Hca); try done.
    eexists _, _, _, _. split; [by apply Hface|].
    cbn. repeat split; by apply getEdgeIndex_present.
  - intros i Hi1 Hi2.
    destruct (lookup_lt_is_Some_2 vs (i - 1)) as [a Ha]; [lia|].
    destruct (lookup_lt_is_Some_2 vs i) as [b Hb]; [lia|].
    destruct (lookup_lt_is_Some_2 vs (S i)) as [c Hc]; [lia|].
    destruct (lookup_lt_is_Some_2 vs (S (S i))) as [d Hd]; [lia|].
    eexists _, _, _. split.
    { apply (Hface (i - 1)%nat a b c); try done; try lia.
      - by replace (S (i - 1)) with i by lia.
      - by replace (S (S (i - 1))) with (S i) by lia. }
    split; [by apply (Hface i b c d)|]. done.
Qed.

(** ** Cursors of the attribute slicer in the decoders *)

Lemma for_loop_Done_inv {St} (n : nat) (j : Z) (body : Z -> St -> Run St) (s s' : St) :
  for_loop n j body s = Done s' ->
  forall i : nat, (i < n)%nat -> exists si si', body (j + Z.of_nat i) si = Done si'.
Proof.
  revert j s. induction n as [|n IH]; intros j s Hrun i Hi; [lia|].
  cbn in Hrun. apply bind_Done in Hrun as (s1 & Hbody & Hrun).
  destruct i as [|i].
  - exists s, s1. by replace (j + Z.of_nat 0) with j by lia.
  - destruct (IH _ _ Hrun i) as (si & si' & Hsi); [lia|].
    exists si, si'. by replace (j + Z.of_nat (S i)) with (j + 1 + Z.of_nat i) by lia.
Qed.

Lemma slice_indices_Done (indexList : IndexList) (cursor n : Z) (ids : list Z) :
  slice_indices indexList cursor n = Done ids -> stream_covers cursor n indexList.
Proof.
  intros Hrun j Hj. unfold slice_indices in Hrun.
  destruct (for_loop_Done_inv _ _ _ _ _ Hrun (Z.to_nat j)) as (si & si' & Hbody); [lia|].
  rewrite Z.add_0_l, Z2Nat.id in Hbody by lia.
  apply bind_Done in Hbody as (c & Hread & _).
  apply read_inv in Hread as [_ Hc]. apply lookup_lt_Some in Hc.
  assert (0 <= to_size_t (j + cursor)) by solve_ints. lia.
Qed.

Lemma setUVSetInfos_Done {real} (mesh : Mesh real) (primitiveElement : MeshPrimitive)
    (polyFace polyFace' : polyFaces) (cursor cursor' n : Z) :
  setUVSetInfos mesh primitiveElement polyFace cursor n = Done (polyFace', cursor') ->
  polyFace' = set_mu polyFace (uv_slices mesh primitiveElement cursor n)
                (Z.of_nat (length (getUVCoordIndicesArray primitiveElement))) /\
  cursor' = to_size_t (cursor + n).
Proof.
  intros Hrun.
  assert (Hcov : Forall (stream_covers cursor n) (getUVCoordIndicesArray primitiveElement)).
  { unfold setUVSetInfos in Hrun. apply bind_Done in Hrun as (mus & Hmus & _).
    apply mapM_Done_inv in Hmus. eapply Forall2_Forall_l; [exact Hmus|].
    apply Forall_forall. intros il _ y Hy.
    apply bind_Done in Hy as (ids & Hids & _). by eapply slice_indices_Done. }
  rewrite (setUVSetInfos_spec _ _ _ _ _ Hcov) in Hrun. by injection Hrun as <- <-.
Qed.

Lemma setColorInfos_Done {real} (mesh : Mesh real) (primitiveElement : MeshPrimitive)
    (polyFace polyFace' : polyFaces) (cursor cursor' n : Z) :
  setColorInfos mesh primitiveElement polyFace cursor n = Done (polyFace', cursor') ->
  polyFace' = set_mc polyFace (color_slices mesh primitiveElement cursor n)
                (Z.of_nat (length (getColorIndicesArray primitiveElement))) /\
  cursor' = to_size_t (cursor + n).
Proof.
  intros Hrun.
  assert (Hcov : Forall (stream_covers cursor n) (getColorIndicesArray primitiveElement)).
  { unfold setColorInfos in Hrun. apply bind_Done in Hrun as (mcs & Hmcs & _).
    apply mapM_Done_inv in Hmcs. eapply Forall2_Forall_l; [exact Hmcs|].
    apply Forall_forall. intros il _ y Hy.
    apply bind_Done in Hy as (ids & Hids & _). by eapply slice_indices_Done. }
  rewrite (setColorInfos_spec _ _ _ _ _ Hcov) in Hrun. by injection Hrun as <- <-.
Qed.

(** The edge count with which the polygon decoder slices the attributes of
    a group: the vertex count, negated for a hole. *)
Lemma polygon_group_slices `{Scalar real} (mesh : Mesh real)
    (primitiveElement : MeshPrimitive) (edgeIndicesMap : EdgeIndicesMap)
    (groupedVtxIndex : Z) (st st' : PolyState real) :
  polygon_group mesh primitiveElement edgeIndicesMap groupedVtxIndex st = Done st' ->
  exists numVertices face,
    getGroupedVerticesVertexCount primitiveElement (to_size_t groupedVtxIndex)
    = Done numVertices /\
    let numEdges := if decide (to_int numVertices >= 0) then to_int numVertices
                    else to_int (to_int numVertices * (-1)) in
    ps_meshNode st' = ps_meshNode st ++ [face] /\
    mu face = uv_slices mesh primitiveElement (ps_uvSetIndicesIndex st) numEdges /\
    mc face = color_slices mesh primitiveElement (ps_colorIndicesIndex st) numEdges /\
    ps_uvSetIndicesIndex st' = to_size_t (ps_uvSetIndicesIndex st + numEdges) /\
    ps_colorIndicesIndex st' = to_size_t (ps_colorIndicesIndex st + numEdges).
Proof.
  intros Hrun. unfold polygon_group in Hrun.
  apply bind_Done in Hrun as (numVertices & Hcount & Hrun).
  apply bind_Done in Hrun as ([[[pf numEdges] positionIndex] polygonPoints] & Hinfos & Hrun).
  apply bind_Done in Hrun as ([pf1 cu'] & Huv & Hrun).
  apply bind_Done in Hrun as ([pf2 cc'] & Hcol & Hrun).
  injection Hrun as <-. cbn.
  apply setUVSetInfos_Done in Huv as [-> ->].
  apply setColorInfos_Done in Hcol as [-> ->].
  exists numVertices. eexists. split; [done|]. cbn.
  assert (HnumEdges : numEdges = if decide (to_int numVertices >= 0) then to_int numVertices
                                 else to_int (to_int numVertices * (-1))).
  { destruct (decide (to_int numVertices >= 0)).
    - apply bind_Done in Hinfos as ([[? ?] ?] & _ & Heq). by injection Heq as _ <- _ _.
    - apply bind_Done in Hinfos as ([[? ?] ?] & Hhole & Heq). injection Heq as _ <- _ _.
      unfold setPolygonHoleInfos in Hhole.
      apply bind_Done in Hhole as (el & _ & Hhole).
      apply bind_Done in Hhole as (change & _ & Hhole).
      apply bind_Done in Hhole as (pf' & _ & Hhole). by injection Hhole as _ <- _. }
  rewrite <- HnumEdges. done.
Qed.

(** C6 (as stated) fails on a fan: the fan [0,1,2,3] with the UV stream
    [10..15] gives the second triangle the indices [11,12,13], which
    overlap the first triangle's [10,11,12]; they are not the next three
    raw indices [13,14,15] found three places after the first slice. *)
Lemma C6_counterexample_fan_slices_overlap :
  exists f1 f2,
    appendTrifansPolyFaces (sample_mesh 1 [fan4_uv] 2) fan4_uv fan4_map []
    = Done [f1; f2] /\
    uvIdValue <$> mu f1 = [[10; 11; 12]] /\
    uvIdValue <$> mu f2 = [[11; 12; 13]] /\
    mu f1 = uv_slices (sample_mesh 1 [fan4_uv] 2) fan4_uv 0 3 /\
    mu f2 <> uv_slices (sample_mesh 1 [fan4_uv] 2) fan4_uv (0 + 3) 3.
Proof.
  eexists _, _. split; [vm_compute; reflexivity|].
  repeat split; try (vm_compute; reflexivity).
  vm_compute. discriminate.
Qed.

(** C6 (amended): one call of the slicer with [n] at cursor [c] gives every
    channel the [n] raw indices at [c .. c+n-1], each reduced by the
    channel's initial index, and moves the cursor to [c + n]; the polygon
    decoder hands the cursor from one group to the next unchanged, so the
    slices of consecutive faces are adjacent; the fan and strip decoders
    slice three indices per triangle and then move the cursor back by two,
    so triangle [i] of a group entered at cursor [c] takes its slice at
    [c + i]. *)
Theorem C6_slices_and_cursors `{Scalar real} (mesh : Mesh real)
    (primitiveElement : MeshPrimitive) (edgeIndicesMap : EdgeIndicesMap) :
  (forall polyFace cursor n,
     Forall (stream_covers cursor n) (getUVCoordIndicesArray primitiveElement) ->
     setUVSetInfos mesh primitiveElement polyFace cursor n =
     Done (set_mu polyFace (uv_slices mesh primitiveElement cursor n)
             (Z.of_nat (length (getUVCoordIndicesArray primitiveElement))),
           to_size_t (cursor + n))) /\
  (forall polyFace cursor n,
     Forall (stream_covers cursor n) (getColorIndicesArray primitiveElement) ->
     setColorInfos mesh primitiveElement polyFace cursor n =
     Done (set_mc polyFace (color_slices mesh primitiveElement cursor n)
             (Z.of_nat (length (getColorIndicesArray primitiveElement))),
           to_size_t (cursor + n))) /\
  (forall indexList cursor n,
     0 <= cursor -> 0 <= n ->
     cursor + n <= Z.of_nat (length (getIndices indexList)) ->
     is_size_t (Z.of_nat (length (getIndices indexList))) ->
     stream_covers cursor n indexList /\
     slice indexList cursor n =
     (fun c => to_int (to_size_t (c - getInitialIndex indexList)))
     <$> take (Z.to_nat n) (drop (Z.to_nat cursor) (getIndices indexList))) /\
  (forall groupedVtxIndex (st st' : PolyState real),
     polygon_group mesh primitiveElement edgeIndicesMap groupedVtxIndex st = Done st' ->
     exists numVertices face,
       getGroupedVerticesVertexCount primitiveElement (to_size_t groupedVtxIndex)
       = Done numVertices /\
       let numEdges := if decide (to_int numVertices >= 0) then to_int numVertices
                       else to_int (to_int numVertices * (-1)) in
       ps_meshNode st' = ps_meshNode st ++ [face] /\
       mu face = uv_slices mesh primitiveElement (ps_uvSetIndicesIndex st) numEdges /\
       mc face = color_slices mesh primitiveElement (ps_colorIndicesIndex st) numEdges /\
       ps_uvSetIndicesIndex st' = to_size_t (ps_uvSetIndicesIndex st + numEdges) /\
       ps_colorIndicesIndex st' = to_size_t (ps_colorIndicesIndex st + numEdges)) /\
  (forall kind (st : TriState) (before vs after : list Z),
     getPositionIndices primitiveElement = before ++ vs ++ after ->
     is_size_t (Z.of_nat (length (getPositionIndices primitiveElement))) ->
     st_positionIndex st = Z.of_nat (length before) ->
     st_initialPositionIndex st = Z.of_nat (length before) ->
     is_size_t (st_uvSetIndicesIndex st) ->
     is_size_t (st_colorIndicesIndex st) ->
     (3 <= length vs)%nat ->
     3 * (Z.of_nat (length vs) - 2) < 2 ^ 32 ->
     Forall (stream_covers (st_uvSetIndicesIndex st) (Z.of_nat (length vs)))
            (getUVCoordIndicesArray primitiveElement) ->
     Forall (stream_covers (st_colorIndicesIndex st) (Z.of_nat (length vs)))
            (getColorIndicesArray primitiveElement) ->
     (forall i, (i < length vs - 2)%nat ->
        triangle_edges_present kind primitiveElement edgeIndicesMap
          (Z.of_nat (length before)) (Z.of_nat (length before)) i) ->
     exists st' new,
       group_decoder kind mesh primitiveElement edgeIndicesMap st (Z.of_nat (length vs))
       = Done st' /\
       st_meshNode st' = st_meshNode st ++ new /\
       length new = (length vs - 2)%nat /\
       forall i : nat, (i < length vs - 2)%nat ->
         exists face,
           new !! i = Some face /\
           mu face = uv_slices mesh primitiveElement
                       (to_size_t (st_uvSetIndicesIndex st + Z.of_nat i)) 3 /\
           mc face = color_slices mesh primitiveElement
                       (to_size_t (st_colorIndicesIndex st + Z.of_nat i)) 3).
Proof.
  split; [intros; by apply setUVSetInfos_spec|].
  split; [intros; by apply setColorInfos_spec|].
  split; [intros; split; [by apply stream_covers_no_wrap|by apply slice_take_drop]|].
  split; [intros; by eapply polygon_group_slices|].
  intros kind st before vs after Hpos Hlen Hp Hinit Hcu Hcc Hk Hk32 Huv Hcol Hedges.
  destruct (tri_group_faces kind mesh primitiveElement edgeIndicesMap st
              before vs after) as (pf' & Hrun); try done.
  eexists _, _. split; [exact (eq_trans (group_decoder_common _ _ _ _ _ _) Hrun)|].
  cbn [st_meshNode]. split; [done|].
  split; [by rewrite length_fmap, length_seq|].
  intros i Hi. eexists. split.
  { rewrite list_lookup_fmap, lookup_seq_lt by lia. reflexivity. }
  done.
Qed.

Lemma C6_slices_and_cursors_witness :
  (exists st',
     polygon_group (sample_mesh 1 [quad_tri] 2) quad_tri quad_tri_map 0
       (mkPolyState 0 0 0 [] []) = Done st' /\
     ps_uvSetIndicesIndex st' = 4) /\
  (exists st' f1 f2,
     appendTrifansPolyFaces_group (sample_mesh 1 [fan4_uv] 2) fan4_uv fan4_map
       (tri_start []) 4 = Done st' /\
     st_meshNode st' = [f1; f2] /\
     uvIdValue <$> mu f1 = [[10; 11; 12]] /\
     uvIdValue <$> mu f2 = [[11; 12; 13]]).
Proof.
  split.
  - destruct (C6_slices_and_cursors (sample_mesh 1 [quad_tri] 2) quad_tri quad_tri_map)
      as (_ & _ & _ & Hpoly & _).
    eexists. split; [vm_compute; reflexivity|].
    edestruct (Hpoly 0 (mkPolyState 0 0 0 [] [])) as (n & face & Hn & _ & _ & _ & Hcursor & _);
      [vm_compute; reflexivity|].
    vm_compute. reflexivity.
  - destruct (C6_slices_and_cursors (sample_mesh 1 [fan4_uv] 2) fan4_uv fan4_map)
      as (_ & _ & _ & _ & Hfan).
    destruct (Hfan Trifans (tri_start []) [] [0; 1; 2; 3] [])
      as (st' & new & Hrun & Hfaces & Hlen & Hslices).
    + reflexivity.
    + vm_compute. done.
    + reflexivity.
    + reflexivity.
    + vm_compute. done.
    + vm_compute. done.
    + cbn. lia.
    + cbn. lia.
    + cbn. apply Forall_singleton. intros j Hj. cbn in *. solve_ints.
    + constructor.
    + intros i Hi. cbn in Hi.
      destruct i as [|[|i]]; [| |lia]; vm_compute; eauto 10.
    + exists st'. vm_compute in Hrun. injection Hrun as <-.
      eexists _, _. repeat split; vm_compute; reflexivity.
Defined.

(** ** Object groups *)

Lemma writeObjectGroups_single {real} (mesh : Mesh real) (numNodeInstances : Z) :
  (length (getMeshPrimitives mesh) <= 1)%nat ->
  writeObjectGroups mesh numNodeInstances = [].
Proof. intros Hn. unfold writeObjectGroups. by rewrite decide_True by lia. Qed.

(** When no primitive is empty the ranges of one instance follow each other:
    each starts where the previous one ended and has the length of its
    primitive's grouped-vertex-elements count. *)
Lemma objectGroups_from_partition (meshPrimitives : list MeshPrimitive) :
  forall j i initialFaceIndex,
    Forall (fun p => 1 <= getGroupedVertexElementsCount p) meshPrimitives ->
    0 <= initialFaceIndex ->
    initialFaceIndex
      + foldr (fun p acc => getGroupedVertexElementsCount p + acc) 0 meshPrimitives
      < 2 ^ 64 ->
    forall (t : nat) p,
      meshPrimitives !! t = Some p ->
      exists r,
        objectGroups_from j i initialFaceIndex meshPrimitives !! t = Some r /\
        og_instance r = j /\ og_group r = i + Z.of_nat t /\
        og_first r =
          initialFaceIndex
          + foldr (fun p acc => getGroupedVertexElementsCount p + acc) 0
                  (take t meshPrimitives) /\
        range_length r = getGroupedVertexElementsCount p.
Proof.
  induction meshPrimitives as [|q rest IH];
    intros j i initialFaceIndex Hpos Hstart Hsum t p Hp; [done|].
  apply Forall_cons in Hpos as [Hq Hrest]. cbn [foldr] in Hsum.
  assert (Hrest_nonneg :
            0 <= foldr (fun p acc => getGroupedVertexElementsCount p + acc) 0 rest).
  { clear -Hrest. induction Hrest; cbn; lia. }
  assert (Hcount : to_size_t (getGroupedVertexElementsCount q)
                   = getGroupedVertexElementsCount q)
    by (apply to_size_t_id; unfold_ints; lia).
  destruct t as [|t]; cbn [objectGroups_from].
  - injection Hp as ->. eexists. split; [reflexivity|].
    unfold range_length. cbn. rewrite Hcount.
    rewrite to_size_t_id by (unfold_ints; lia). repeat split; lia.
  - rewrite Hcount.
    destruct (IH j (i + 1)
                (to_size_t (initialFaceIndex + getGroupedVertexElementsCount q))
                Hrest) with (t := t) (p := p)
      as (r & Hr & Hj & Hi & Hfirst & Hlen); try done.
    + solve_ints.
    + rewrite to_size_t_id by (unfold_ints; lia). lia.
    + exists r. split; [done|]. split; [done|]. split; [lia|]. split; [|done].
      rewrite Hfirst, to_size_t_id by (unfold_ints; lia). cbn. lia.
Qed.

Lemma objectGroups_from_length (meshPrimitives : list MeshPrimitive) :
  forall j i initialFaceIndex,
    length (objectGroups_from j i initialFaceIndex meshPrimitives)
    = length meshPrimitives.
Proof.
  induction meshPrimitives as [|q rest IH]; intros j i initialFaceIndex; [done|].
  cbn. by rewrite IH.
Qed.

(** With more than one primitive and none of them empty, every instance gets
    the same partition: range [t] of instance [j] starts at the sum of the
    counts of the primitives before [t] and has the length of primitive
    [t]'s count. *)
Lemma writeObjectGroups_partition {real} (mesh : Mesh real) (numNodeInstances : Z) :
  (1 < length (getMeshPrimitives mesh))%nat ->
  Forall (fun p => 1 <= getGroupedVertexElementsCount p) (getMeshPrimitives mesh) ->
  foldr (fun p acc => getGroupedVertexElementsCount p + acc) 0 (getMeshPrimitives mesh)
    < 2 ^ 64 ->
  forall (j t : nat) p,
    Z.of_nat j < numNodeInstances ->
    getMeshPrimitives mesh !! t = Some p ->
    exists r,
      writeObjectGroups mesh numNodeInstances
        !! (j * length (getMeshPrimitives mesh) + t)%nat = Some r /\
      og_instance r = Z.of_nat j /\ og_group r = Z.of_nat t /\
      og_first r =
        foldr (fun p acc => getGroupedVertexElementsCount p + acc) 0
              (take t (getMeshPrimitives mesh)) /\
      range_length r = getGroupedVertexElementsCount p.
Proof.
  intros Hm Hpos Hsum j t p Hj Hp. unfold writeObjectGroups.
  rewrite decide_False by lia.
  destruct (objectGroups_from_partition (getMeshPrimitives mesh) (Z.of_nat j) 0 0
              Hpos ltac:(lia) ltac:(lia) t p Hp) as (r & Hr & Hinst & Hgroup & Hfirst & Hlen).
  exists r. split; [|repeat split; done || lia].
  apply join_lookup_Some_same_length'.
  - apply Forall_fmap, Forall_forall. intros x _. cbn. apply objectGroups_from_length.
  - by eapply lookup_lt_Some.
  - eexists. split; [|exact Hr].
    rewrite list_lookup_fmap, lookup_seqZ_lt by lia. cbn. done.
Qed.

(** C8: on a mesh whose first primitive has no grouped vertex elements the
    first range comes out as [f[0:18446744073709551615]]: its length is not
    the primitive's count (0) and it overlaps the range [f[0:1]] of the next
    primitive. *)
Theorem C8_objectGroups_empty_primitive :
  writeObjectGroups empty_first_mesh 1 =
    [ mkObjectGrpCompList 0 0 0 18446744073709551615;
      mkObjectGrpCompList 0 1 0 1 ] /\
  getGroupedVertexElementsCount no_triangles = 0 /\
  getGroupedVertexElementsCount two_triangles = 2.
Proof. by vm_compute. Qed.

(** ** Instancing *)

Lemma createGroupNodes_spec {real} (mesh : Mesh real) (geometryInstanceIndex : Z)
    (g : GeometryImporter real) :
  exists groups,
    file (createGroupNodes mesh geometryInstanceIndex g) = file g ++ groups /\
    Forall group_emission groups /\
    mMayaMeshNodesMap (createGroupNodes mesh geometryInstanceIndex g)
    = mMayaMeshNodesMap g.
Proof.
  unfold createGroupNodes. case_decide.
  { exists []. by rewrite app_nil_r. }
  generalize (seqZ 0 (Z.of_nat (length (getMeshPrimitives mesh)))). intros l.
  revert g. induction l as [|i l IH]; intros g; cbn [foldl].
  { exists []. by rewrite app_nil_r. }
  match goal with |- context [foldl _ ?g0 l] => destruct (IH g0) as (groups & Hfile & Hgroups & Hmap) end.
  eexists (_ :: groups). rewrite Hfile, Hmap. cbn. rewrite <- app_assoc. cbn.
  split; [reflexivity|]. split; [|done]. by constructor.
Qed.

Lemma filter_group_emissions {real} (groups : list (Emission real)) :
  Forall group_emission groups ->
  List.filter is_CreateMesh groups = [] /\ List.filter is_ParentShape groups = [].
Proof.
  induction 1 as [|e groups [He1 He2] _ [IH1 IH2]]; [done|].
  cbn. by rewrite He1, He2.
Qed.

Lemma importMesh_node_secondary `{Scalar real} `{Units real} (v : VisualSceneImporter)
    (mesh : Mesh real) (numNodeInstances : Z) (g : GeometryImporter real)
    (geometryInstanceIndex t : Z) (mayaMeshNode node : MayaNode) :
  findMayaMeshNode g (getUniqueId mesh) = Some mayaMeshNode ->
  mayaTransformNodes v !! t = Some node ->
  geometryInstanceIndex <> 0 ->
  importMesh_node v mesh numNodeInstances (g, geometryInstanceIndex) t =
  Done (createGroupNodes mesh geometryInstanceIndex
          (emit g (ParentShape mayaMeshNode node)),
        to_size_t (geometryInstanceIndex + 1)).
Proof.
  intros Hnode Ht Hi. unfold importMesh_node, findMayaTransformNode.
  rewrite Ht. cbn [mbind Run_bind].
  rewrite decide_False by done. by rewrite Hnode.
Qed.

Lemma importMesh_node_primary `{Scalar real} `{Units real} (v : VisualSceneImporter)
    (mesh : Mesh real) (numNodeInstances : Z) (g : GeometryImporter real)
    (t : Z) (node : MayaNode) :
  mayaTransformNodes v !! t = Some node ->
  importMesh_node v mesh numNodeInstances (g, 0) t =
  createMesh mesh node numNodeInstances g ≫= fun g' =>
  Done (createGroupNodes mesh 0 g', 1).
Proof.
  intros Ht. unfold importMesh_node, findMayaTransformNode.
  rewrite Ht. cbn [mbind Run_bind]. by rewrite decide_True by done.
Qed.

(** The occurrences after the first: each one writes a [ParentShape] of the
    registered mesh node under its transform node, and no geometry. *)
Lemma importMesh_secondary `{Scalar real} `{Units real} (v : VisualSceneImporter)
    (mesh : Mesh real) (numNodeInstances : Z) (mayaMeshNode : MayaNode) (ts : list Z) :
  forall (g : GeometryImporter real) (geometryInstanceIndex : Z),
    findMayaMeshNode g (getUniqueId mesh) = Some mayaMeshNode ->
    Forall (fun t => is_Some (mayaTransformNodes v !! t)) ts ->
    1 <= geometryInstanceIndex ->
    geometryInstanceIndex + Z.of_nat (length ts) < 2 ^ 64 ->
    exists g' index' new,
      for_each (importMesh_node v mesh numNodeInstances) (g, geometryInstanceIndex) ts
      = Done (g', index') /\
      file g' = file g ++ new /\
      mMayaMeshNodesMap g' = mMayaMeshNodesMap g /\
      List.filter is_CreateMesh new = [] /\
      Forall2 (fun e t => exists node, mayaTransformNodes v !! t = Some node /\
                                       e = ParentShape mayaMeshNode node)
              (List.filter is_ParentShape new) ts.
Proof.
  induction ts as [|t ts IH]; intros g i Hnode Hts Hi Hlen.
  - exists g, i, []. cbn. rewrite app_nil_r. repeat split; constructor.
  - apply Forall_cons in Hts as [[node Ht] Hts]. cbn [length] in Hlen.
    cbn [for_each].
    rewrite (importMesh_node_secondary _ _ _ _ _ _ mayaMeshNode node) by (done || lia).
    cbn [mbind Run_bind].
    destruct (createGroupNodes_spec mesh i (emit g (ParentShape mayaMeshNode node)))
      as (groups & Hfile & Hgroups & Hmap).
    destruct (filter_group_emissions _ Hgroups) as [Hg1 Hg2].
    edestruct (IH (createGroupNodes mesh i (emit g (ParentShape mayaMeshNode node)))
                 (to_size_t (i + 1)))
      as (g' & i' & new & Hrun & Hfile' & Hmap' & Hcreate & Hparent); try done.
    + unfold findMayaMeshNode in *. by rewrite Hmap.
    + solve_ints.
    + rewrite to_size_t_id by (unfold_ints; lia). lia.
    + exists g', i', (ParentShape mayaMeshNode node :: groups ++ new).
      split; [done|]. rewrite Hfile', Hfile, Hmap', Hmap. cbn.
      rewrite <- !app_assoc. split; [done|]. split; [done|].
      rewrite !List.filter_app, Hg1, Hg2, Hcreate. cbn. split; [done|].
      constructor; eauto.
Qed.

(** [createMesh] as the value streams followed by the faces. *)
Lemma createMesh_value_streams `{Scalar real} `{Units real} (mesh : Mesh real)
    (mayaTransformNode : MayaNode) (numNodeInstances : Z) (g : GeometryImporter real) :
  createMesh mesh mayaTransformNode numNodeInstances g =
  (values ← value_streams mesh;
   faces ← writeFaces mesh (snd (getEdgeIndices mesh));
   Done (mkGeometryImporter
           (<[getUniqueId mesh :=
                mkMayaNode (getUniqueId mesh)
                  (if decide (getMeshName mesh = "") then "Geometry"
                   else getMeshName mesh)
                  (Some (node_uniqueId mayaTransformNode))]> (mMayaMeshNodesMap g))
           (mGroupIdAssignments g)
           (setMeshPrimitiveShadingEngines_from (getUniqueId mesh) 0
              (getMeshPrimitives mesh) (mShadingEnginePrimitivesMap g))
           (file g ++
            [CreateMesh
               (mkMeshData (getUniqueId mesh) mayaTransformNode
                  (writeObjectGroups mesh numNodeInstances)
                  (writeEdges (fst (getEdgeIndices mesh)) values) faces)]))).
Proof.
  unfold createMesh, value_streams.
  destruct (writeVertexPositions mesh []) as [m1|e]; cbn [mbind Run_bind]; [|done].
  destruct (writeNormals mesh m1) as [m2|e]; cbn [mbind Run_bind]; [|done].
  destruct (writeUVSets mesh m2) as [m3|e]; cbn [mbind Run_bind]; [|done].
  destruct (writeColorSets mesh m3) as [m4|e]; cbn [mbind Run_bind]; [|done].
  by destruct (getEdgeIndices mesh) as [edgeIndices edgeIndicesMap].
Qed.

Lemma createMesh_spec `{Scalar real} `{Units real} (mesh : Mesh real)
    (mayaTransformNode : MayaNode) (numNodeInstances : Z) (g : GeometryImporter real)
    (values : list (MeshCommand real)) (faces : list polyFaces) :
  value_streams mesh = Done values ->
  writeFaces mesh (snd (getEdgeIndices mesh)) = Done faces ->
  exists g' data,
    createMesh mesh mayaTransformNode numNodeInstances g = Done g' /\
    file g' = file g ++ [CreateMesh data] /\
    md_geometryId data = getUniqueId mesh /\
    md_transformNode data = mayaTransformNode /\
    md_objectGroups data = writeObjectGroups mesh numNodeInstances /\
    md_values data = writeEdges (fst (getEdgeIndices mesh)) values /\
    md_faces data = faces /\
    is_Some (findMayaMeshNode g' (getUniqueId mesh)).
Proof.
  intros Hvalues Hfaces. rewrite createMesh_value_streams, Hvalues.
  cbn [mbind Run_bind]. rewrite Hfaces. cbn [mbind Run_bind].
  eexists _, _. split; [reflexivity|]. cbn. repeat split.
  unfold findMayaMeshNode. cbn. rewrite lookup_insert_eq. eauto.
Qed.

Lemma importGeometry_imported `{Scalar real} `{Units real} (v : VisualSceneImporter)
    (geometry : Geometry real) (g : GeometryImporter real) :
  findMayaMeshNode g (Geometry_getUniqueId geometry) <> None ->
  importGeometry v (Some geometry) g = Done g.
Proof. intros Hnode. unfold importGeometry. by rewrite decide_True. Qed.

(** C7: a mesh used by [n >= 1] transform nodes, whose value streams
    (vertex positions, normals, UV sets, colour sets) and faces are all
    written without a failure, is written once with its full geometry (the
    value streams, the edges and the faces), for the first node, and [n - 1]
    times as a [ParentShape] of the mesh node under the other nodes, in their
    order; a geometry whose identifier has a mesh node is not imported
    again. *)
Theorem C7_one_primary_instance `{Scalar real} `{Units real} (v : VisualSceneImporter)
    (mesh : Mesh real) (g : GeometryImporter real) (t0 : Z) (ts : list Z)
    (values : list (MeshCommand real)) (faces : list polyFaces) :
  geometryTransformIds v !! getUniqueId mesh = Some (t0 :: ts) ->
  Forall (fun t => is_Some (mayaTransformNodes v !! t)) (t0 :: ts) ->
  Z.of_nat (length (t0 :: ts)) < 2 ^ 64 ->
  value_streams mesh = Done values ->
  writeFaces mesh (snd (getEdgeIndices mesh)) = Done faces ->
  (exists g' new data node0 mayaMeshNode,
     importMesh v mesh g = Done g' /\
     file g' = file g ++ new /\
     mayaTransformNodes v !! t0 = Some node0 /\
     head new = Some (CreateMesh data) /\
     List.filter is_CreateMesh new = [CreateMesh data] /\
     md_geometryId data = getUniqueId mesh /\
     md_transformNode data = node0 /\
     md_values data = writeEdges (fst (getEdgeIndices mesh)) values /\
     md_faces data = faces /\
     findMayaMeshNode g' (getUniqueId mesh) = Some mayaMeshNode /\
     length (List.filter is_ParentShape new) = length ts /\
     Forall2 (fun e t => exists node, mayaTransformNodes v !! t = Some node /\
                                      e = ParentShape mayaMeshNode node)
             (List.filter is_ParentShape new) ts /\
     importGeometry v (Some (GEO_TYPE_MESH mesh)) g' = Done g') /\
  (forall (geometry : Geometry real) (g0 : GeometryImporter real),
     findMayaMeshNode g0 (Geometry_getUniqueId geometry) <> None ->
     importGeometry v (Some geometry) g0 = Done g0).
Proof.
  intros Hids Hnodes Hlen Hvalues Hfaces.
  split; [|intros; by apply importGeometry_imported].
  apply Forall_cons in Hnodes as [[node0 Ht0] Hts]. cbn [length] in Hlen.
  destruct (createMesh_spec mesh node0 (Z.of_nat (length (t0 :: ts))) g values faces
              Hvalues Hfaces)
    as (g1 & data & Hcreate & Hfile1 & Hid & Hnode & _ & Hvals & Hdata &
        [mayaMeshNode Hmesh]).
  destruct (createGroupNodes_spec mesh 0 g1) as (groups & Hfile2 & Hgroups & Hmap2).
  destruct (filter_group_emissions _ Hgroups) as [Hg1 Hg2].
  destruct (importMesh_secondary v mesh (Z.of_nat (length (t0 :: ts))) mayaMeshNode ts
              (createGroupNodes mesh 0 g1) 1)
    as (g' & i' & new & Hrun & Hfile' & Hmap' & Hnocreate & Hparent); try done.
  { unfold findMayaMeshNode in *. by rewrite Hmap2. }
  { lia. }
  assert (Hfinal : findMayaMeshNode g' (getUniqueId mesh) = Some mayaMeshNode)
    by (unfold findMayaMeshNode in *; by rewrite Hmap', Hmap2).
  exists g', (CreateMesh data :: groups ++ new), data, node0, mayaMeshNode.
  split.
  { unfold importMesh, findGeometryTransformIds. rewrite Hids. cbn [mbind Run_bind for_each].
    rewrite (importMesh_node_primary _ _ _ _ _ node0) by done.
    rewrite Hcreate. cbn [mbind Run_bind]. rewrite Hrun. done. }
  split; [rewrite Hfile', Hfile2, Hfile1, <- !app_assoc; done|].
  split; [done|]. split; [done|].
  split; [cbn; by rewrite List.filter_app, Hg1, Hnocreate|].
  split; [done|]. split; [done|]. split; [done|]. split; [done|]. split; [done|].
  assert (Hfilter : List.filter is_ParentShape (CreateMesh data :: groups ++ new)
                    = List.filter is_ParentShape new)
    by (cbn; by rewrite List.filter_app, Hg2).
  rewrite Hfilter. split; [by eapply Forall2_length|]. split; [done|].
  apply (importGeometry_imported v (GEO_TYPE_MESH mesh)).
  cbn [Geometry_getUniqueId]. by rewrite Hfinal.
Qed.

(** ** Edge references of the emitted faces *)

Lemma for_loop_invariant {St} (I : Z -> St -> Prop) (body : Z -> St -> Run St) (n : nat) :
  forall (j : Z) (s s' : St),
    (forall i s s', j <= i < j + Z.of_nat n -> I i s -> body i s = Done s' -> I (i + 1) s') ->
    I j s -> for_loop n j body s = Done s' -> I (j + Z.of_nat n) s'.
Proof.
  induction n as [|n IH]; intros j s s' Hbody Hj Hrun.
  - cbn in Hrun. injection Hrun as <-. by replace (j + Z.of_nat 0) with j by lia.
  - cbn in Hrun. apply bind_Done in Hrun as (s1 & Hs1 & Hrun).
    replace (j + Z.of_nat (S n)) with (j + 1 + Z.of_nat n) by lia.
    eapply IH; [|eapply Hbody; [|exact Hj|exact Hs1]; lia|exact Hrun].
    intros i t t' Hi. apply Hbody. lia.
Qed.

Lemma for_each_invariant {A St} (I : St -> Prop) (body : St -> A -> Run St) (l : list A) :
  forall s s' : St,
    (forall s a s', I s -> body s a = Done s' -> I s') ->
    I s -> for_each body s l = Done s' -> I s'.
Proof.
  induction l as [|a l IH]; intros s s' Hbody Hs Hrun.
  - cbn in Hrun. by injection Hrun as <-.
  - cbn in Hrun. apply bind_Done in Hrun as (s1 & Hs1 & Hrun). eauto.
Qed.

Lemma toggle_negate (x : Z) : to_int (- to_int (x + 1)) = toggle x.
Proof. unfold toggle. f_equal. lia. Qed.

Lemma getEdgeIndex_refers (edge : Edge) (edgeIndicesMap : EdgeIndicesMap) (r : Z) :
  getEdgeIndex edge edgeIndicesMap = Done r -> refers_to edgeIndicesMap r.
Proof.
  intros Hr. apply getEdgeIndex_Done in Hr as (i & Hi & Hr).
  exists (mVertexIndices edge), i. split; [done|].
  destruct Hr as [->| ->]; [by left|right]. apply toggle_negate.
Qed.

Lemma refers_to_toggle (edgeIndicesMap : EdgeIndicesMap) (r : Z) :
  refers_to edgeIndicesMap r -> refers_to edgeIndicesMap (toggle r).
Proof.
  intros (key & i & Hi & Hr). exists key, i. split; [done|].
  destruct Hr as [->| ->]; [by right|left].
  apply toggle_toggle, to_int_is_int.
Qed.

Lemma Forall_insert_resolved (edgeIndicesMap : EdgeIndicesMap) (ids : list Z) (i : nat) (r : Z) :
  Forall (refers_to edgeIndicesMap) (take i ids) ->
  refers_to edgeIndicesMap r -> (i < length ids)%nat ->
  Forall (refers_to edgeIndicesMap) (take (S i) (<[i := r]> ids)).
Proof.
  intros Hids Hr Hi.
  rewrite (take_S_r _ _ r) by (by apply list_lookup_insert_eq).
  rewrite take_insert_ge by lia. apply Forall_app. split; [done|]. by constructor.
Qed.

Lemma tri_edge_invariant {real} (kind : TriKind) (mesh : Mesh real)
    (primitiveElement : MeshPrimitive) (edgeIndicesMap : EdgeIndicesMap)
    (st st' : TriState) :
  tri_inv edgeIndicesMap st ->
  tri_edge kind mesh primitiveElement edgeIndicesMap st = Done st' ->
  tri_inv edgeIndicesMap st'.
Proof.
  intros (Hfaces & Hhole & Hcounter) Hrun. unfold tri_edge in Hrun.
  set (pf := if decide (st_triangleEdgeCounter st = 0)
             then set_f (st_polyFace st) 3 (new_int_array 3)
             else st_polyFace st) in *.
  assert (Hpf_h : h_edgeIdValue pf = h_edgeIdValue (st_polyFace st)).
  { unfold pf. destruct (decide (st_triangleEdgeCounter st = 0)); reflexivity. }
  assert (Hpf_len : length (f_edgeIdValue pf) = 3%nat).
  { unfold pf. destruct (decide (st_triangleEdgeCounter st = 0)); [done|].
    destruct Hcounter as [?|(_ & ? & _)]; done. }
  assert (Hpf_ids : Forall (refers_to edgeIndicesMap)
                      (take (Z.to_nat (st_triangleEdgeCounter st)) (f_edgeIdValue pf))).
  { unfold pf. destruct (decide (st_triangleEdgeCounter st = 0)) as [H0|H0];
      [rewrite H0; constructor|].
    destruct Hcounter as [?|(_ & _ & ?)]; done. }
  assert (Hrange : 0 <= st_triangleEdgeCounter st <= 2) by (destruct Hcounter; lia).
  rewrite (to_size_t_id (st_triangleEdgeCounter st + 1)) in Hrun by (unfold_ints; lia).
  clearbody pf.
  apply bind_Done in Hrun as (edgeStartVtxIndex & _ & Hrun).
  apply bind_Done in Hrun as ([edgeEndVtxIndex positionIndex] & _ & Hrun).
  apply bind_Done in Hrun as (r & Hr & Hrun).
  apply getEdgeIndex_refers in Hr.
  replace (Z.to_nat (st_triangleEdgeCounter st + 1 - 1))
    with (Z.to_nat (st_triangleEdgeCounter st)) in Hrun by lia.
  pose proof (Forall_insert_resolved _ _ _ _ Hpf_ids Hr ltac:(lia)) as Hids.
  case_decide as Hthree.
  - apply bind_Done in Hrun as ([pf1 cu] & Huv & Hrun).
    apply bind_Done in Hrun as ([pf2 cc] & Hcol & Hrun).
    apply setUVSetInfos_Done in Huv as [-> ->].
    apply setColorInfos_Done in Hcol as [-> ->].
    injection Hrun as <-. unfold tri_inv. cbn.
    rewrite Hpf_h. split; [|by auto].
    apply Forall_app. split; [done|]. constructor; [|done].
    split; cbn; [|by rewrite Hpf_h].
    replace (Z.to_nat (st_triangleEdgeCounter st)) with 2%nat in * by lia.
    rewrite take_ge in Hids by (rewrite length_insert; lia). done.
  - injection Hrun as <-. unfold tri_inv. cbn.
    rewrite Hpf_h. split; [done|]. split; [done|]. right.
    split; [lia|]. split; [by rewrite length_insert|].
    by replace (Z.to_nat (st_triangleEdgeCounter st + 1))
         with (S (Z.to_nat (st_triangleEdgeCounter st))) by lia.
Qed.

Lemma tri_group_resolved {real} (kind : TriKind) (mesh : Mesh real)
    (primitiveElement : MeshPrimitive) (edgeIndicesMap : EdgeIndicesMap)
    (st st' : TriState) (vertexCount : Z) :
  Forall (face_resolved edgeIndicesMap) (st_meshNode st) ->
  tri_group kind mesh primitiveElement edgeIndicesMap st vertexCount = Done st' ->
  Forall (face_resolved edgeIndicesMap) (st_meshNode st').
Proof.
  intros Hfaces Hrun. unfold tri_group in Hrun.
  apply bind_Done in Hrun as (st1 & Hloop & Hrun).
  assert (Hinv : tri_inv edgeIndicesMap st1).
  { eapply (for_loop_invariant (fun _ => tri_inv edgeIndicesMap)); [| |exact Hloop].
    - intros i s s' _. apply tri_edge_invariant.
    - split; [done|]. split; [constructor|]. by left. }
  destruct Hinv as (Hfaces1 & _). by destruct kind; injection Hrun as <-.
Qed.

Lemma appendTrifansPolyFaces_resolved {real} (mesh : Mesh real)
    (primitiveElement : MeshPrimitive) (edgeIndicesMap : EdgeIndicesMap)
    (meshNode faces : list polyFaces) :
  Forall (face_resolved edgeIndicesMap) meshNode ->
  appendTrifansPolyFaces mesh primitiveElement edgeIndicesMap meshNode = Done faces ->
  Forall (face_resolved edgeIndicesMap) faces.
Proof.
  intros Hfaces Hrun. unfold appendTrifansPolyFaces in Hrun.
  apply bind_Done in Hrun as (st & Hloop & Hrun). injection Hrun as <-.
  eapply (for_each_invariant
            (fun st => Forall (face_resolved edgeIndicesMap) (st_meshNode st))
            _ _ (tri_start meshNode));
    [|exact Hfaces|exact Hloop].
  intros s k s'. apply (tri_group_resolved Trifans).
Qed.

Lemma appendTristripsPolyFaces_resolved {real} (mesh : Mesh real)
    (primitiveElement : MeshPrimitive) (edgeIndicesMap : EdgeIndicesMap)
    (meshNode faces : list polyFaces) :
  Forall (face_resolved edgeIndicesMap) meshNode ->
  appendTristripsPolyFaces mesh primitiveElement edgeIndicesMap meshNode = Done faces ->
  Forall (face_resolved edgeIndicesMap) faces.
Proof.
  intros Hfaces Hrun. unfold appendTristripsPolyFaces in Hrun.
  apply bind_Done in Hrun as (st & Hloop & Hrun). injection Hrun as <-.
  eapply (for_each_invariant
            (fun st => Forall (face_resolved edgeIndicesMap) (st_meshNode st))
            _ _ (tri_start meshNode));
    [|exact Hfaces|exact Hloop].
  intros s k s'. apply (tri_group_resolved Tristrips).
Qed.

(** Invariant of the edge loops of the polygon decoder: the array keeps its
    size and the cells below the loop counter are resolved. *)
Lemma polygon_edge_loop_resolved {real : Type} (edgeIndicesMap : EdgeIndicesMap)
    (body : Z -> EdgeLoop real -> Run (EdgeLoop real)) (numEdges : Z)
    (el el' : EdgeLoop real) :
  (forall i s s', body i s = Done s' ->
     exists r, refers_to edgeIndicesMap r /\
               el_edgeIdValue s' = <[Z.to_nat i := r]> (el_edgeIdValue s)) ->
  el_edgeIdValue el = new_int_array numEdges ->
  for_loop (Z.to_nat numEdges) 0 body el = Done el' ->
  Forall (refers_to edgeIndicesMap) (el_edgeIdValue el') /\
  length (el_edgeIdValue el') = Z.to_nat numEdges.
Proof.
  intros Hbody Hnew Hrun.
  pose proof (for_loop_invariant
                (fun j s => length (el_edgeIdValue s) = Z.to_nat numEdges /\
                            Forall (refers_to edgeIndicesMap)
                              (take (Z.to_nat j) (el_edgeIdValue s)))
                body (Z.to_nat numEdges) 0 el el') as Hinv.
  destruct Hinv as [Hlen Hall]; [| |exact Hrun|].
  - intros i s s' Hi [Hlen Hall] Hs.
    destruct (Hbody _ _ _ Hs) as (r & Hr & ->).
    split; [by rewrite length_insert|].
    replace (Z.to_nat (i + 1)) with (S (Z.to_nat i)) by lia.
    apply Forall_insert_resolved; [done|done|lia].
  - rewrite Hnew. unfold new_int_array. rewrite length_replicate. split; [done|constructor].
  - rewrite Z.add_0_l, Nat2Z.id, take_ge in Hall by lia. done.
Qed.

Lemma setPolygonFaceInfos_resolved {real} (mesh : Mesh real)
    (primitiveElement : MeshPrimitive) (edgeIndicesMap : EdgeIndicesMap)
    (polyFace polyFace' : polyFaces) (numEdges positionIndex positionIndex' : Z)
    (polygonPoints polygonPoints' : list (Vector3 real)) :
  setPolygonFaceInfos mesh primitiveElement edgeIndicesMap polyFace numEdges
    positionIndex polygonPoints = Done (polyFace', positionIndex', polygonPoints') ->
  Forall (refers_to edgeIndicesMap) (f_edgeIdValue polyFace') /\
  h_edgeIdValue polyFace' = h_edgeIdValue polyFace.
Proof.
  intros Hrun. unfold setPolygonFaceInfos in Hrun.
  apply bind_Done in Hrun as (el & Hloop & Hrun). injection Hrun as <- _ _.
  split; [|done]. cbn.
  eapply proj1, polygon_edge_loop_resolved; [| |exact Hloop]; [|reflexivity].
  intros i s s' Hs.
  apply bind_Done in Hs as ([[a b] p] & _ & Hs).
  apply bind_Done in Hs as (points & _ & Hs).
  apply bind_Done in Hs as (r & Hr & Hs). injection Hs as <-.
  exists r. split; [by eapply getEdgeIndex_refers|done].
Qed.

Lemma setPolygonHoleInfos_resolved `{Scalar real} (mesh : Mesh real)
    (primitiveElement : MeshPrimitive) (edgeIndicesMap : EdgeIndicesMap)
    (polyFace polyFace' : polyFaces) (numEdges numEdges' positionIndex positionIndex' : Z)
    (polygonPoints : list (Vector3 real)) :
  setPolygonHoleInfos mesh primitiveElement edgeIndicesMap polyFace numEdges
    positionIndex polygonPoints = Done (polyFace', numEdges', positionIndex') ->
  Forall (refers_to edgeIndicesMap) (h_edgeIdValue polyFace') /\
  f_edgeIdValue polyFace' = f_edgeIdValue polyFace.
Proof.
  intros Hrun. unfold setPolygonHoleInfos in Hrun.
  apply bind_Done in Hrun as (el & Hloop & Hrun).
  apply bind_Done in Hrun as (change & _ & Hrun).
  apply bind_Done in Hrun as (pf & Hflip & Hrun). injection Hrun as <- _ _.
  assert (Hel : Forall (refers_to edgeIndicesMap) (el_edgeIdValue el) /\
                length (el_edgeIdValue el) = Z.to_nat (to_int (numEdges * -1))).
  { eapply polygon_edge_loop_resolved; [| |exact Hloop]; [|reflexivity].
    intros i s s' Hs.
    apply bind_Done in Hs as ([[a b] p] & _ & Hs).
    apply bind_Done in Hs as (points & _ & Hs).
    apply bind_Done in Hs as (r & Hr & Hs). injection Hs as <-.
    exists r. split; [by eapply getEdgeIndex_refers|done]. }
  destruct Hel as [Hall Hlen].
  destruct change.
  - rewrite changePolyFaceHoleOrientation_flip in Hflip by (cbn; lia).
    injection Hflip as <-. cbn. split; [|done].
    apply Forall_reverse, Forall_fmap. eapply Forall_impl; [exact Hall|].
    intros r. apply refers_to_toggle.
  - injection Hflip as <-. done.
Qed.

Lemma polygon_group_resolved `{Scalar real} (mesh : Mesh real)
    (primitiveElement : MeshPrimitive) (edgeIndicesMap : EdgeIndicesMap)
    (groupedVtxIndex : Z) (st st' : PolyState real) :
  Forall (face_resolved edgeIndicesMap) (ps_meshNode st) ->
  polygon_group mesh primitiveElement edgeIndicesMap groupedVtxIndex st = Done st' ->
  Forall (face_resolved edgeIndicesMap) (ps_meshNode st').
Proof.
  intros Hfaces Hrun. unfold polygon_group in Hrun.
  apply bind_Done in Hrun as (numVertices & _ & Hrun).
  apply bind_Done in Hrun as ([[[pf numEdges] positionIndex] polygonPoints] & Hinfos & Hrun).
  apply bind_Done in Hrun as ([pf1 cu'] & Huv & Hrun).
  apply bind_Done in Hrun as ([pf2 cc'] & Hcol & Hrun).
  injection Hrun as <-. cbn.
  apply setUVSetInfos_Done in Huv as [-> _].
  apply setColorInfos_Done in Hcol as [-> _].
  apply Forall_app. split; [done|]. constructor; [|done].
  unfold face_resolved. cbn.
  case_decide.
  - apply bind_Done in Hinfos as ([[pf0 p0] pts0] & Hface & Heq).
    injection Heq as <- _ _ _.
    apply setPolygonFaceInfos_resolved in Hface as [Hf Hh].
    split; [done|]. rewrite Hh. constructor.
  - apply bind_Done in Hinfos as ([[pf0 n0] p0] & Hhole & Heq).
    injection Heq as <- _ _ _.
    apply setPolygonHoleInfos_resolved in Hhole as [Hh Hf].
    split; [|done]. rewrite Hf. constructor.
Qed.

Lemma appendPolygonPolyFaces_resolved `{Scalar real} (mesh : Mesh real)
    (primitiveElement : MeshPrimitive) (edgeIndicesMap : EdgeIndicesMap)
    (meshNode faces : list polyFaces) :
  Forall (face_resolved edgeIndicesMap) meshNode ->
  appendPolygonPolyFaces mesh primitiveElement edgeIndicesMap meshNode = Done faces ->
  Forall (face_resolved edgeIndicesMap) faces.
Proof.
  intros Hfaces Hrun. unfold appendPolygonPolyFaces in Hrun.
  apply bind_Done in Hrun as (st & Hloop & Hrun). injection Hrun as <-.
  eapply (for_loop_invariant
            (fun _ st => Forall (face_resolved edgeIndicesMap) (ps_meshNode st)));
    [| |exact Hloop]; [|exact Hfaces].
  intros i s s' _. apply polygon_group_resolved.
Qed.

Lemma writeFaces_resolved `{Scalar real} (mesh : Mesh real)
    (edgeIndicesMap : EdgeIndicesMap) (faces : list polyFaces) :
  writeFaces mesh edgeIndicesMap = Done faces ->
  Forall (face_resolved edgeIndicesMap) faces.
Proof.
  unfold writeFaces. case_decide; [intros [= <-]; constructor|].
  apply (for_each_invariant (Forall (face_resolved edgeIndicesMap))); [|constructor].
  intros meshNode primitiveElement meshNode' Hfaces.
  destruct (getPrimitiveType primitiveElement).
  - by apply appendPolygonPolyFaces_resolved.
  - by apply appendPolygonPolyFaces_resolved.
  - by apply appendPolygonPolyFaces_resolved.
  - by apply appendTrifansPolyFaces_resolved.
  - by apply appendTristripsPolyFaces_resolved.
  - by intros [= <-].
Qed.

Lemma createMesh_Abort `{Scalar real} `{Units real} (mesh : Mesh real)
    (mayaTransformNode : MayaNode) (numNodeInstances : Z) (g : GeometryImporter real)
    (e : Failure) :
  writeFaces mesh (snd (getEdgeIndices mesh)) = Abort e ->
  (exists e', createMesh mesh mayaTransformNode numNodeInstances g = Abort e') /\
  (forall values : list (MeshCommand real),
     value_streams mesh = Done values ->
     createMesh mesh mayaTransformNode numNodeInstances g = Abort e).
Proof.
  intros Hfaces. rewrite createMesh_value_streams.
  destruct (value_streams mesh) as [values|e0]; cbn [mbind Run_bind].
  - rewrite Hfaces. cbn [mbind Run_bind]. split; [by exists e|done].
  - split; [by exists e0|done].
Qed.

(** C9: a query for an edge that is not in the edge-index map fails the
    assertion and ends the run, and the failure ends [createMesh]: no mesh
    is written, and when the value streams before the faces were written
    the failure of [createMesh] is that of the faces; faces that are written
    hold only references taken from the map.  Decoding the fan [0,1,2,3,4]
    with a table that lacks the edge [(4,0)] ends with the failed
    assertion. *)
Theorem C9_edge_miss_aborts `{Scalar real} `{Units real} :
  (forall (edge : Edge) (edgeIndicesMap : EdgeIndicesMap),
     edgeIndicesMap !! mVertexIndices edge = None ->
     getEdgeIndex edge edgeIndicesMap = Abort AssertionFailed) /\
  (forall (mesh : Mesh real) (edgeIndicesMap : EdgeIndicesMap) (faces : list polyFaces),
     writeFaces mesh edgeIndicesMap = Done faces ->
     Forall (face_resolved edgeIndicesMap) faces) /\
  (forall (mesh : Mesh real) (mayaTransformNode : MayaNode) (numNodeInstances : Z)
          (g : GeometryImporter real) (e : Failure),
     writeFaces mesh (snd (getEdgeIndices mesh)) = Abort e ->
     (exists e', createMesh mesh mayaTransformNode numNodeInstances g = Abort e') /\
     (forall values : list (MeshCommand real),
        value_streams mesh = Done values ->
        createMesh mesh mayaTransformNode numNodeInstances g = Abort e)) /\
  writeFaces (sample_mesh 1 [fan5] 3) fan5_incomplete_map = Abort AssertionFailed.
Proof.
  split; [apply getEdgeIndex_miss|].
  split; [apply @writeFaces_resolved|].
  split; [intros; by apply createMesh_Abort|].
  by vm_compute.
Qed.

(** ** Runs of the decoders on sample primitives *)

(** A quad with a hole of the same winding: one face of four edges and one
    hole of three edges, the hole flipped ([4; 5; -7] becomes [6; -6; -5]). *)
Example quad_with_hole_decodes :
  exists face hole,
    appendPolygonPolyFaces quad_with_hole_mesh quad_with_hole quad_with_hole_map []
    = Done [face; hole] /\
    f_faceEdgeCount face = 4 /\ f_edgeIdValue face = [0; 1; 2; -4] /\
    h_holeEdgeCount hole = 3 /\ h_edgeIdValue hole = [6; -6; -5].
Proof. eexists _, _. by vm_compute. Qed.

(** Two fans in one primitive: the second fan starts at its own first vertex
    and at its own first attribute index. *)
Example two_fans_decode :
  exists f1 f2 f3,
    appendTrifansPolyFaces (sample_mesh 1 [two_fans_uv] 3) two_fans_uv
      (edges_of two_fans_uv) [] = Done [f1; f2; f3] /\
    uvIdValue <$> mu f1 = [[0; 1; 2]] /\
    uvIdValue <$> mu f2 = [[3; 4; 5]] /\
    uvIdValue <$> mu f3 = [[4; 5; 6]].
Proof. eexists _, _, _. by vm_compute. Qed.

(** Two strips in one primitive: without attribute channels both are
    decoded; with a UV channel the second strip reads the channel at the
    position before its first entry, because the attribute cursor is moved
    back by two at the end of the first strip. *)
Example two_strips_decode :
  (exists f1 f2,
     appendTristripsPolyFaces (sample_mesh 1 [two_strips] 2) two_strips
       (edges_of two_strips) [] = Done [f1; f2]) /\
  appendTristripsPolyFaces (sample_mesh 1 [two_strips_uv] 2) two_strips_uv
    (edges_of two_strips_uv) [] = Abort OutOfBounds.
Proof. split; [eexists _, _|]; by vm_compute. Qed.

(** The orientation test on integer points: a hole that winds like its
    parent has to be flipped, a hole that winds the other way has not. *)
Example changeHoleOrientation_same_and_opposite :
  changeHoleOrientation
    [mkVector3 0 0 0; mkVector3 10 0 0; mkVector3 10 10 0]
    [mkVector3 2 2 0; mkVector3 4 2 0; mkVector3 3 4 0] = Done true /\
  changeHoleOrientation
    [mkVector3 0 0 0; mkVector3 10 0 0; mkVector3 10 10 0]
    [mkVector3 2 2 0; mkVector3 3 4 0; mkVector3 4 2 0] = Done false.
Proof. by vm_compute. Qed.

(** ** Instances on the sample inputs *)

Ltac sample_fact :=
  first [ reflexivity
        | by (unfold_ints; cbn; lia)
        | by (repeat constructor; unfold_ints; lia) ].

Lemma C2_flip_reverses_and_toggles_witness :
  h_holeEdgeCount sample_hole = Z.of_nat (length (h_edgeIdValue sample_hole)) /\
  Forall is_int (h_edgeIdValue sample_hole) /\
  exists flipped,
    changePolyFaceHoleOrientation sample_hole = Done flipped /\
    h_edgeIdValue flipped !! 0%nat = Some (- (5 + 1)).
Proof.
  assert (H1 : h_holeEdgeCount sample_hole = Z.of_nat (length (h_edgeIdValue sample_hole)))
    by reflexivity.
  assert (H2 : Forall is_int (h_edgeIdValue sample_hole))
    by (repeat constructor; unfold_ints; lia).
  split; [exact H1|]. split; [exact H2|].
  destruct (C2_flip_reverses_and_toggles sample_hole H1 H2)
    as (flipped & Hrun & _ & _ & Hpos & _).
  exists flipped. split; [exact Hrun|].
  destruct (Hpos 0%nat) as (v & Hv & Hflipped); [cbn; lia|].
  cbn in Hv. injection Hv as <-. exact Hflipped.
Defined.

Lemma C10_flip_involution_witness :
  h_holeEdgeCount sample_hole = Z.of_nat (length (h_edgeIdValue sample_hole)) /\
  Forall is_int (h_edgeIdValue sample_hole) /\
  changePolyFaceHoleOrientation sample_hole ≫= changePolyFaceHoleOrientation
  = Done sample_hole.
Proof.
  assert (H1 : h_holeEdgeCount sample_hole = Z.of_nat (length (h_edgeIdValue sample_hole)))
    by reflexivity.
  assert (H2 : Forall is_int (h_edgeIdValue sample_hole))
    by (repeat constructor; unfold_ints; lia).
  split; [exact H1|]. split; [exact H2|].
  exact (C10_flip_involution sample_hole H1 H2).
Defined.

Lemma C3_getEdgeIndex_signed_reference_witness :
  fan_map !! mVertexIndices (Edge_new 0 2) = Some 2 /\
  0 <= 2 < 2 ^ 31 /\
  getEdgeIndex (Edge_new 0 2) fan_map = Done 2 /\
  getEdgeIndex (Edge_new 2 0) fan_map = Done (- (2 + 1)).
Proof.
  assert (H1 : fan_map !! mVertexIndices (Edge_new 0 2) = Some 2) by reflexivity.
  assert (H2 : 0 <= 2 < 2 ^ 31) by lia.
  split; [exact H1|]. split; [exact H2|].
  destruct (C3_getEdgeIndex_signed_reference fan_map (Edge_new 0 2) 2 H1 H2)
    as [_ Hdirections].
  destruct (Hdirections 0 2) as (_ & Hforward & _ & Hbackward); [reflexivity|lia|].
  split; [exact Hforward|exact Hbackward].
Defined.

Lemma C4_trifan_group_triangles_witness :
  exists st' new,
    appendTrifansPolyFaces_group (sample_mesh 1 [fan5] 3) fan5 fan_map (tri_start []) 5
    = Done st' /\
    st_meshNode st' = new /\ length new = 3%nat.
Proof.
  destruct (C4_trifan_group_triangles (sample_mesh 1 [fan5] 3) fan5 fan_map
              (tri_start []) [] [0; 1; 2; 3; 4] [])
    as [(st' & new & Hrun & _ & _ & Hfaces & Hlen & _) _].
  - reflexivity.
  - sample_fact.
  - reflexivity.
  - reflexivity.
  - sample_fact.
  - sample_fact.
  - cbn. lia.
  - cbn. lia.
  - constructor.
  - constructor.
  - intros i v0 vi vj Hi H0 Hvi Hvj. cbn in Hi.
    destruct i as [|[|[|[|i]]]]; try lia;
      cbn in H0, Hvi, Hvj; injection H0 as <-; injection Hvi as <-; injection Hvj as <-;
      repeat split; eexists; vm_compute; reflexivity.
  - exists st', new. split; [exact Hrun|]. split; [exact Hfaces|exact Hlen].
Defined.

Lemma C5_tristrip_group_triangles_witness :
  exists st' new,
    appendTristripsPolyFaces_group (sample_mesh 1 [strip4] 2) strip4 strip_map
      (tri_start []) 4 = Done st' /\
    st_meshNode st' = new /\ length new = 2%nat.
Proof.
  destruct (C5_tristrip_group_triangles (sample_mesh 1 [strip4] 2) strip4 strip_map
              (tri_start []) [] [0; 1; 2; 3] [])
    as [(st' & new & Hrun & _ & _ & Hfaces & Hlen & _) _].
  - reflexivity.
  - sample_fact.
  - reflexivity.
  - reflexivity.
  - sample_fact.
  - sample_fact.
  - cbn. lia.
  - cbn. lia.
  - constructor.
  - constructor.
  - intros i a b c Hi Ha Hb Hc. cbn in Hi.
    destruct i as [|[|i]]; try lia;
      cbn in Ha, Hb, Hc; injection Ha as <-; injection Hb as <-; injection Hc as <-;
      repeat split; eexists; vm_compute; reflexivity.
  - exists st', new. split; [exact Hrun|]. split; [exact Hfaces|exact Hlen].
Defined.

Lemma C7_one_primary_instance_witness :
  exists g' data,
    importMesh three_instances valued_mesh new_importer = Done g' /\
    List.filter is_CreateMesh (file g') = [CreateMesh data] /\
    md_values data =
      [startVrts 0 4;
       appendVrts 0; appendVrts 0; appendVrts 0;
       appendVrts 2; appendVrts 0; appendVrts 0;
       appendVrts 2; appendVrts 2; appendVrts 0;
       appendVrts 0; appendVrts 2; appendVrts 0;
       appendVrts (-2); appendVrts 2; appendVrts 0;
       endVrts;
       startNormals 0 0;
       appendNormals 0; appendNormals 0; appendNormals 1;
       appendNormals 0; appendNormals 0; appendNormals 1;
       appendNormals 0; appendNormals 0; appendNormals 1;
       appendNormals 0; appendNormals 0; appendNormals 1;
       appendNormals 0; appendNormals 0; appendNormals 1;
       endNormals;
       setUvSize 1; setUvSetName 0 "map1"; startUvSetPoints 0 0 4;
       appendUvSetPoints 0; appendUvSetPoints 0;
       appendUvSetPoints 1; appendUvSetPoints 0;
       appendUvSetPoints 1; appendUvSetPoints 1;
       appendUvSetPoints 0; appendUvSetPoints 1;
       appendUvSetPoints 2; appendUvSetPoints 1;
       endUvSetPoints;
       setColorName 0 "colorSet1"; setRepresentation 0 3; startColorSetPoints 0 0 2;
       appendColorSetPoints 255; appendColorSetPoints 0; appendColorSetPoints 0;
       appendColorSetPoints 0; appendColorSetPoints 255; appendColorSetPoints 0;
       appendColorSetPoints 0; appendColorSetPoints 0; appendColorSetPoints 255;
       endColorSetPoints;
       startEdge 0 6;
       appendEdge 0; appendEdge 1; appendEdge 0;
       appendEdge 1; appendEdge 2; appendEdge 0;
       appendEdge 0; appendEdge 2; appendEdge 0;
       appendEdge 2; appendEdge 3; appendEdge 0;
       appendEdge 0; appendEdge 3; appendEdge 0;
       appendEdge 3; appendEdge 4; appendEdge 0;
       appendEdge 0; appendEdge 4; appendEdge 0;
       endEdge] /\
    length (md_faces data) = 3%nat /\
    length (List.filter is_ParentShape (file g')) = 2%nat /\
    importGeometry three_instances (Some (GEO_TYPE_MESH valued_mesh)) g' = Done g'.
Proof.
  destruct (value_streams valued_mesh) as [values|e] eqn:Hvalues;
    [|vm_compute in Hvalues; discriminate].
  destruct (writeFaces valued_mesh (snd (getEdgeIndices valued_mesh)))
    as [faces|e] eqn:Hfaces; [|vm_compute in Hfaces; discriminate].
  destruct (C7_one_primary_instance three_instances valued_mesh new_importer 10 [11; 12]
              values faces)
    as [(g' & new & data & node0 & meshNode & Hrun & Hfile & _ & _ & Hcreate & _ & _ &
         Hvals & Hdata & _ & Hparent & _ & Hagain) _].
  - reflexivity.
  - repeat constructor; vm_compute; eauto.
  - cbn. lia.
  - exact Hvalues.
  - exact Hfaces.
  - exists g', data. cbn in Hfile. rewrite Hfile.
    split; [exact Hrun|]. split; [exact Hcreate|].
    split; [rewrite Hvals; vm_compute in Hvalues; injection Hvalues as <-;
            vm_compute; reflexivity|].
    split; [rewrite Hdata; vm_compute in Hfaces; injection Hfaces as <-; reflexivity|].
    split; [exact Hparent|exact Hagain].
Defined.

Lemma C9_edge_miss_aborts_witness :
  getEdgeIndex (Edge_new 4 0) fan5_incomplete_map = Abort AssertionFailed /\
  (exists faces,
     writeFaces (sample_mesh 1 [fan5] 3) fan_map = Done faces /\
     Forall (face_resolved fan_map) faces).
Proof.
  destruct (@C9_edge_miss_aborts Z Z_Scalar Z_Units) as (Hmiss & Hresolved & _ & _).
  split; [apply Hmiss; reflexivity|].
  destruct (writeFaces (sample_mesh 1 [fan5] 3) fan_map) as [faces|e] eqn:Hfaces;
    [|vm_compute in Hfaces; discriminate].
  exists faces. split; [reflexivity|]. exact (Hresolved _ _ _ Hfaces).
Defined.

(** ** The shading-engine map *)

Lemma filter_ext_in {A} (P Q : A -> Prop) `{!forall x, Decision (P x)}
    `{!forall x, Decision (Q x)} (l : list A) :
  (forall x, x ∈ l -> P x <-> Q x) -> filter P l = filter Q l.
Proof.
  induction l as [|x l IH]; intros Hext; [done|].
  rewrite !filter_cons.
  rewrite IH by (intros y Hy; apply Hext; by right).
  destruct (decide (P x)) as [HP|HP], (decide (Q x)) as [HQ|HQ]; try done.
  - exfalso. apply HQ, Hext; [left|done].
  - exfalso. apply HP, Hext; [left|done].
Qed.

Lemma pushed_indices_cons (old : option (list Z)) (i : Z) (new : list Z) :
  pushed_indices (Some (default [] old ++ [i])) new = pushed_indices old (i :: new).
Proof. destruct new; cbn; [done|]. by rewrite <- app_assoc. Qed.

(** The entry of [(geometryId, shadingEngineId)] after the primitives have
    been recorded from index [start] on. *)
Lemma setMeshPrimitiveShadingEngines_from_lookup (geometryId shadingEngineId : Z)
    (meshPrimitives : list MeshPrimitive) :
  forall (start : Z) (m : gmap (Z * Z) (list Z)),
    setMeshPrimitiveShadingEngines_from geometryId start meshPrimitives m
      !! (geometryId, shadingEngineId) =
    pushed_indices (m !! (geometryId, shadingEngineId))
      (filter (fun i => getMaterialId <$> meshPrimitives !! Z.to_nat (i - start)
                        = Some shadingEngineId)
              (seqZ start (Z.of_nat (length meshPrimitives)))).
Proof.
  induction meshPrimitives as [|p rest IH]; intros start m; [done|].
  cbn [setMeshPrimitiveShadingEngines_from length]. rewrite IH.
  rewrite (seqZ_cons start) by lia.
  replace (Z.pred (Z.of_nat (S (length rest)))) with (Z.of_nat (length rest)) by lia.
  replace (Z.succ start) with (start + 1) by lia.
  rewrite filter_cons.
  rewrite (filter_ext_in
             (fun i => getMaterialId <$> (p :: rest) !! Z.to_nat (i - start)
                       = Some shadingEngineId)
             (fun i => getMaterialId <$> rest !! Z.to_nat (i - (start + 1))
                       = Some shadingEngineId) (seqZ (start + 1) _)).
  2:{ intros i Hi. apply elem_of_seqZ in Hi.
      replace (Z.to_nat (i - start)) with (S (Z.to_nat (i - (start + 1)))) by lia.
      done. }
  unfold setShadingEnginePrimitiveIndex.
  destruct (decide (getMaterialId <$> (p :: rest) !! Z.to_nat (start - start)
                    = Some shadingEngineId)) as [Hp|Hp];
    rewrite Z.sub_diag in Hp; change (Z.to_nat 0) with 0%nat in Hp; simpl in Hp.
  - injection Hp as <-. rewrite lookup_insert_eq. apply pushed_indices_cons.
  - cbn. rewrite lookup_insert_ne; [done|]. intros Heq. apply Hp. congruence.
Qed.

Lemma setMeshPrimitiveShadingEngines_from_other (geometryId : Z) (key : Z * Z)
    (meshPrimitives : list MeshPrimitive) :
  key.1 <> geometryId ->
  forall (start : Z) (m : gmap (Z * Z) (list Z)),
    setMeshPrimitiveShadingEngines_from geometryId start meshPrimitives m !! key
    = m !! key.
Proof.
  intros Hkey. induction meshPrimitives as [|p rest IH]; intros start m; [done|].
  cbn [setMeshPrimitiveShadingEngines_from]. rewrite IH.
  unfold setShadingEnginePrimitiveIndex. apply lookup_insert_ne.
  intros <-. by apply Hkey.
Qed.

Lemma setMeshPrimitiveShadingEngines_lookup {real} (mesh : Mesh real)
    (m : gmap (Z * Z) (list Z)) (shadingEngineId : Z) :
  setMeshPrimitiveShadingEngines mesh m !! (getUniqueId mesh, shadingEngineId) =
  pushed_indices (m !! (getUniqueId mesh, shadingEngineId))
    (primitives_of_material shadingEngineId (getMeshPrimitives mesh)).
Proof.
  unfold setMeshPrimitiveShadingEngines, primitives_of_material.
  rewrite setMeshPrimitiveShadingEngines_from_lookup. f_equal.
  apply filter_ext_in. intros i _. by rewrite Z.sub_0_r.
Qed.

Lemma createMesh_Done `{Scalar real} `{Units real} (mesh : Mesh real)
    (mayaTransformNode : MayaNode) (numNodeInstances : Z) (g g' : GeometryImporter real) :
  createMesh mesh mayaTransformNode numNodeInstances g = Done g' ->
  exists data values,
    file g' = file g ++ [CreateMesh data] /\
    mGroupIdAssignments g' = mGroupIdAssignments g /\
    mShadingEnginePrimitivesMap g' =
      setMeshPrimitiveShadingEngines mesh (mShadingEnginePrimitivesMap g) /\
    mMayaMeshNodesMap g' =
      <[getUniqueId mesh :=
          mkMayaNode (getUniqueId mesh)
            (if decide (getMeshName mesh = "") then "Geometry" else getMeshName mesh)
            (Some (node_uniqueId mayaTransformNode))]> (mMayaMeshNodesMap g) /\
    md_objectGroups data = writeObjectGroups mesh numNodeInstances /\
    value_streams mesh = Done values /\
    md_values data = writeEdges (fst (getEdgeIndices mesh)) values /\
    writeFaces mesh (snd (getEdgeIndices mesh)) = Done (md_faces data).
Proof.
  rewrite createMesh_value_streams. intros Hrun.
  apply bind_Done in Hrun as (values & Hvalues & Hrun).
  apply bind_Done in Hrun as (faces & Hfaces & Hrun).
  injection Hrun as <-. eexists _, values. cbn. by repeat split.
Qed.

(** X1: after [createMesh], the entry of the shading-engine map for the
    mesh and a material holds, behind what it held before, the indices of
    the mesh's primitives with that material in increasing order; a
    material that no primitive uses gets no entry, and the entries of
    other geometries are untouched. *)
Theorem createMesh_shading_engine_indices `{Scalar real} `{Units real} (mesh : Mesh real)
    (mayaTransformNode : MayaNode) (numNodeInstances : Z) (g g' : GeometryImporter real) :
  createMesh mesh mayaTransformNode numNodeInstances g = Done g' ->
  (forall shadingEngineId,
     getShadingEnginePrimitiveIndices g' (getUniqueId mesh) shadingEngineId =
     pushed_indices (getShadingEnginePrimitiveIndices g (getUniqueId mesh) shadingEngineId)
       (primitives_of_material shadingEngineId (getMeshPrimitives mesh))) /\
  (forall geometryId shadingEngineId,
     geometryId <> getUniqueId mesh ->
     getShadingEnginePrimitiveIndices g' geometryId shadingEngineId =
     getShadingEnginePrimitiveIndices g geometryId shadingEngineId).
Proof.
  intros Hrun. apply createMesh_Done in Hrun as (data & values & _ & _ & Hmap & _).
  unfold getShadingEnginePrimitiveIndices. rewrite Hmap. split.
  - intros shadingEngineId. apply setMeshPrimitiveShadingEngines_lookup.
  - intros geometryId shadingEngineId Hne.
    by apply setMeshPrimitiveShadingEngines_from_other.
Qed.

Lemma createMesh_shading_engine_indices_witness :
  exists g',
    createMesh three_materials (mkMayaNode 10 "a" None) 1 new_importer = Done g' /\
    getShadingEnginePrimitiveIndices g' 4 5 = Some [0; 2] /\
    getShadingEnginePrimitiveIndices g' 4 9 = Some [1] /\
    getShadingEnginePrimitiveIndices g' 4 7 = None.
Proof.
  destruct (createMesh three_materials (mkMayaNode 10 "a" None) 1 new_importer)
    as [g'|e] eqn:Hrun; [|by vm_compute in Hrun].
  exists g'. split; [done|].
  destruct (createMesh_shading_engine_indices three_materials (mkMayaNode 10 "a" None) 1
              new_importer g' Hrun) as [Hmesh _].
  change 4 with (getUniqueId three_materials).
  rewrite (Hmesh 5), (Hmesh 9), (Hmesh 7). by vm_compute.
Defined.

(** ** Group ids *)

Lemma createGroupNodes_groups {real} (mesh : Mesh real) (geometryInstanceIndex : Z)
    (g : GeometryImporter real) :
  let groups := instance_groups (getUniqueId mesh)
                  (Z.of_nat (length (getMeshPrimitives mesh))) geometryInstanceIndex in
  let g' := createGroupNodes mesh geometryInstanceIndex g in
  mGroupIdAssignments g' = mGroupIdAssignments g ++ groups /\
  file g' = file g ++ (CreateGroupId <$> groups) /\
  mMayaMeshNodesMap g' = mMayaMeshNodesMap g /\
  mShadingEnginePrimitivesMap g' = mShadingEnginePrimitivesMap g.
Proof.
  unfold createGroupNodes, instance_groups. cbn zeta. case_decide.
  { by rewrite !app_nil_r. }
  generalize (seqZ 0 (Z.of_nat (length (getMeshPrimitives mesh)))). intros l.
  revert g. induction l as [|i l IH]; intros g; cbn [foldl fmap list_fmap].
  { by rewrite !app_nil_r. }
  match goal with |- context [foldl _ ?g0 l] =>
    destruct (IH g0) as (Hassign & Hfile & Hnodes & Hmap) end.
  rewrite Hassign, Hfile, Hnodes, Hmap. cbn. by rewrite <- !app_assoc.
Qed.

Lemma written_groups_app {real} (l1 l2 : list (Emission real)) :
  written_groups (l1 ++ l2) = written_groups l1 ++ written_groups l2.
Proof. apply omap_app. Qed.

Lemma written_groups_CreateGroupId {real} (groups : list GroupIdAssignment) :
  written_groups (@CreateGroupId real <$> groups) = groups.
Proof.
  unfold written_groups. induction groups as [|a l IH]; [done|].
  cbn. by rewrite IH.
Qed.

(** One round of the loop of [importMesh] adds the groups of the current
    instance and nothing else to the assignments. *)
Lemma importMesh_node_groups `{Scalar real} `{Units real} (v : VisualSceneImporter) (mesh : Mesh real)
    (numNodeInstances : Z) (g g' : GeometryImporter real) (j j' t : Z) :
  importMesh_node v mesh numNodeInstances (g, j) t = Done (g', j') ->
  let groups := instance_groups (getUniqueId mesh)
                  (Z.of_nat (length (getMeshPrimitives mesh))) j in
  mGroupIdAssignments g' = mGroupIdAssignments g ++ groups /\
  written_groups (file g') = written_groups (file g) ++ groups /\
  j' = to_size_t (j + 1).
Proof.
  intros Hrun groups. unfold importMesh_node in Hrun.
  apply bind_Done in Hrun as (node & _ & Hrun).
  apply bind_Done in Hrun as (g1 & Hg1 & Hrun). injection Hrun as <- <-.
  destruct (createGroupNodes_groups mesh j g1) as (Hassign & Hfile & _).
  fold groups in Hassign, Hfile. rewrite Hassign, Hfile.
  rewrite written_groups_app, written_groups_CreateGroupId.
  assert (Hg : mGroupIdAssignments g1 = mGroupIdAssignments g /\
               written_groups (file g1) = written_groups (file g)).
  { case_decide.
    - apply createMesh_Done in Hg1 as (data & values & Hfile1 & Hassign1 & _).
      rewrite Hfile1, Hassign1, written_groups_app. cbn. by rewrite app_nil_r.
    - destruct (findMayaMeshNode g (getUniqueId mesh)); [|done].
      injection Hg1 as <-. unfold emit. cbn [file mGroupIdAssignments].
      rewrite written_groups_app. cbn. by rewrite app_nil_r. }
  destruct Hg as [-> ->]. done.
Qed.

Lemma importMesh_loop_groups `{Scalar real} `{Units real} (v : VisualSceneImporter) (mesh : Mesh real)
    (numNodeInstances : Z) (ts : list Z) :
  forall (g g' : GeometryImporter real) (j j' : Z),
    0 <= j -> j + Z.of_nat (length ts) < 2 ^ 64 ->
    for_each (importMesh_node v mesh numNodeInstances) (g, j) ts = Done (g', j') ->
    let groups :=
      seqZ j (Z.of_nat (length ts)) ≫=
      instance_groups (getUniqueId mesh) (Z.of_nat (length (getMeshPrimitives mesh))) in
    mGroupIdAssignments g' = mGroupIdAssignments g ++ groups /\
    written_groups (file g') = written_groups (file g) ++ groups.
Proof.
  induction ts as [|t ts IH]; intros g g' j j' Hj Hlen Hrun; cbn zeta.
  - cbn in Hrun. injection Hrun as <- <-. cbn. by rewrite !app_nil_r.
  - cbn [for_each] in Hrun. apply bind_Done in Hrun as ([g1 j1] & Hnode & Hrun).
    apply importMesh_node_groups in Hnode as (Hassign & Hfile & ->).
    cbn [length] in Hlen. rewrite to_size_t_id in Hrun by (unfold_ints; lia).
    apply IH in Hrun as [Hassign' Hfile']; [|lia|lia].
    rewrite Hassign', Hfile', Hassign, Hfile.
    cbn [length]. rewrite (seqZ_cons j) by lia. rewrite bind_cons.
    replace (Z.succ j) with (j + 1) by lia.
    replace (Z.pred (Z.of_nat (S (length ts)))) with (Z.of_nat (length ts)) by lia.
    by rewrite <- !app_assoc.
Qed.

Lemma bind_instance_groups (geometryId meshPrimitivesCount : Z) (l : list Z) :
  l ≫= instance_groups geometryId meshPrimitivesCount =
  if decide (meshPrimitivesCount <= 1) then []
  else l ≫= fun j =>
         (fun i => mkGroupIdAssignment geometryId j i) <$> seqZ 0 meshPrimitivesCount.
Proof.
  unfold instance_groups. case_decide; [|done].
  induction l as [|j l IH]; [done|]. by rewrite bind_cons, IH.
Qed.

(** X2: [importMesh] of a geometry with [m] primitives that is used by [n]
    transform nodes creates, when [m > 1], one group id for every pair of
    an instance and a primitive: [n * m] assignments (geometry, instance
    [j], primitive [i]), instance by instance and primitive by primitive,
    pushed to [mGroupIdAssignments] and written to the file in that order.
    With a single primitive (or none) no group id is created. *)
Theorem importMesh_group_assignments `{Scalar real} `{Units real} (v : VisualSceneImporter)
    (mesh : Mesh real) (g g' : GeometryImporter real) (transformNodes : list Z) :
  geometryTransformIds v !! getUniqueId mesh = Some transformNodes ->
  Z.of_nat (length transformNodes) < 2 ^ 64 ->
  importMesh v mesh g = Done g' ->
  let numNodeInstances := Z.of_nat (length transformNodes) in
  let meshPrimitivesCount := Z.of_nat (length (getMeshPrimitives mesh)) in
  let groups :=
    if decide (meshPrimitivesCount <= 1) then []
    else group_assignments (getUniqueId mesh) numNodeInstances meshPrimitivesCount in
  mGroupIdAssignments g' = mGroupIdAssignments g ++ groups /\
  written_groups (file g') = written_groups (file g) ++ groups /\
  (1 < meshPrimitivesCount ->
   Z.of_nat (length groups) = numNodeInstances * meshPrimitivesCount).
Proof.
  intros Hnodes Hlen Hrun n m groups. unfold importMesh, findGeometryTransformIds in Hrun.
  rewrite Hnodes in Hrun. cbn [mbind Run_bind] in Hrun.
  apply bind_Done in Hrun as ([g1 j1] & Hloop & Hrun). injection Hrun as <-.
  apply importMesh_loop_groups in Hloop as [Hassign Hfile]; [|lia|lia].
  rewrite bind_instance_groups in Hassign, Hfile. cbn [fst].
  split; [exact Hassign|]. split; [exact Hfile|].
  intros Hm. unfold groups. rewrite decide_False by lia.
  unfold group_assignments. fold n m.
  assert (Hgen : forall l : list Z,
             Z.of_nat (length (l ≫= fun j =>
                (fun i => mkGroupIdAssignment (getUniqueId mesh) j i) <$> seqZ 0 m))
             = Z.of_nat (length l) * m).
  { induction l as [|j l IH]; [done|].
    rewrite bind_cons, length_app, length_fmap, length_seqZ. cbn [length]. lia. }
  rewrite Hgen, length_seqZ. lia.
Qed.

Lemma importMesh_group_assignments_witness :
  exists g',
    importMesh three_instances two_primitives new_importer = Done g' /\
    mGroupIdAssignments g' =
      [ mkGroupIdAssignment 1 0 0; mkGroupIdAssignment 1 0 1;
        mkGroupIdAssignment 1 1 0; mkGroupIdAssignment 1 1 1;
        mkGroupIdAssignment 1 2 0; mkGroupIdAssignment 1 2 1 ] /\
    written_groups (file g') = mGroupIdAssignments g'.
Proof.
  destruct (importMesh three_instances two_primitives new_importer)
    as [g'|e] eqn:Hrun; [|by vm_compute in Hrun].
  exists g'. split; [done|].
  destruct (importMesh_group_assignments three_instances two_primitives new_importer g'
              [10; 11; 12]) as (Hassign & Hfile & _);
    [by vm_compute|by vm_compute|exact Hrun|].
  rewrite Hfile, Hassign. by vm_compute.
Defined.

(** ** The polygon decoder *)

(** A loop whose body keeps an invariant and never fails runs to its end. *)
Lemma for_loop_total {St} (I : Z -> St -> Prop) (body : Z -> St -> Run St) (n : nat) :
  forall (j : Z) (s : St),
    (forall i s, j <= i < j + Z.of_nat n -> I i s ->
       exists s', body i s = Done s' /\ I (i + 1) s') ->
    I j s ->
    exists s', for_loop n j body s = Done s' /\ I (j + Z.of_nat n) s'.
Proof.
  induction n as [|n IH]; intros j s Hbody Hj.
  - exists s. split; [done|]. by replace (j + Z.of_nat 0) with j by lia.
  - destruct (Hbody j s) as (s1 & Hs1 & HI1); [lia|done|].
    destruct (IH (j + 1) s1) as (s' & Hs' & HI'); [|done|].
    { intros i t Hi. apply Hbody. lia. }
    exists s'. cbn [for_loop]. rewrite Hs1. cbn [mbind Run_bind].
    split; [done|]. by replace (j + Z.of_nat (S n)) with (j + 1 + Z.of_nat n) by lia.
Qed.

Lemma next_vertices_length (vs : list Z) : length (next_vertices vs) = length vs.
Proof.
  destruct vs as [|v vs]; [done|]. unfold next_vertices.
  rewrite length_app, length_drop, length_take. cbn [length]. lia.
Qed.

Lemma next_vertices_lookup (vs : list Z) (i : nat) :
  (i < length vs)%nat ->
  next_vertices vs !! i =
  if decide (i < length vs - 1)%nat then vs !! S i else vs !! 0%nat.
Proof.
  intros Hi. destruct vs as [|v vs]; [cbn in Hi; lia|].
  unfold next_vertices. cbn [drop take length] in *. rewrite drop_0. case_decide.
  - rewrite lookup_app_l by lia. done.
  - rewrite lookup_app_r by lia. by replace (i - length vs)%nat with 0%nat by lia.
Qed.

Lemma group_lookup (before vs after : list Z) (i : nat) (v : Z) :
  vs !! i = Some v -> (before ++ vs ++ after) !! (length before + i)%nat = Some v.
Proof.
  intros Hv. rewrite lookup_app_r by lia.
  replace (length before + i - length before)%nat with i by lia.
  by apply lookup_app_l_Some.
Qed.

(** The two ends of edge [i] of a loop of [n] vertices that starts at place
    [p] of the position stream, and the cursor after it: the last edge
    returns to the first vertex and leaves the cursor alone. *)
Lemma polygon_edge_vertices_spec (before vs after : list Z) (i : nat) (a b : Z) :
  is_size_t (Z.of_nat (length (before ++ vs ++ after))) ->
  Z.of_nat (length vs) < 2 ^ 31 ->
  vs !! i = Some a -> next_vertices vs !! i = Some b ->
  polygon_edge_vertices (before ++ vs ++ after) (Z.of_nat (length vs)) (Z.of_nat i)
    (Z.of_nat (length before) + Z.of_nat i) =
  Done (to_int a, to_int b,
        Z.of_nat (length before) + Z.min (Z.of_nat i + 1) (Z.of_nat (length vs) - 1)).
Proof.
  intros Hsz Hn Ha Hb. pose proof (lookup_lt_Some _ _ _ Ha) as Hi.
  rewrite next_vertices_lookup in Hb by done.
  rewrite !length_app in Hsz. unfold polygon_edge_vertices.
  rewrite (read_Done _ (Z.of_nat (length before) + Z.of_nat i) a);
    [|lia|replace (Z.to_nat (Z.of_nat (length before) + Z.of_nat i))
            with (length before + i)%nat by lia; by apply group_lookup].
  cbn [mbind Run_bind].
  rewrite (to_int_id (Z.of_nat (length vs) - 1)) by (unfold_ints; lia).
  destruct (decide (i < length vs - 1)%nat) as [Hlast|Hlast].
  - rewrite decide_True by lia.
    rewrite (to_size_t_id (_ + 1)) by (unfold_ints; lia).
    rewrite (read_Done _ _ b);
      [|lia|replace (Z.to_nat (Z.of_nat (length before) + Z.of_nat i + 1))
              with (length before + S i)%nat by lia; by apply group_lookup].
    cbn. do 2 f_equal. lia.
  - rewrite decide_False by lia.
    replace (Z.of_nat (length before) + Z.of_nat i - Z.of_nat (length vs) + 1)
      with (Z.of_nat (length before)) by lia.
    rewrite to_size_t_id by (unfold_ints; lia).
    rewrite (read_Done _ _ b);
      [|lia|replace (Z.to_nat (Z.of_nat (length before)))
              with (length before + 0)%nat by lia; by apply group_lookup].
    cbn. do 2 f_equal. lia.
Qed.

Lemma for_loop_total_nat {St} (I : nat -> St -> Prop) (body : Z -> St -> Run St)
    (n : nat) (s : St) :
  (forall (k : nat) s, (k < n)%nat -> I k s ->
     exists s', body (Z.of_nat k) s = Done s' /\ I (S k) s') ->
  I 0%nat s ->
  exists s', for_loop n 0 body s = Done s' /\ I n s'.
Proof.
  intros Hbody H0.
  destruct (for_loop_total (fun z s => 0 <= z /\ I (Z.to_nat z) s) body n 0 s)
    as (s' & Hrun & _ & Hn).
  - intros i t Hi [_ Ht].
    destruct (Hbody (Z.to_nat i) t) as (t' & Hrun & Ht'); [lia|done|].
    exists t'. rewrite Z2Nat.id in Hrun by lia. split; [done|]. split; [lia|].
    by replace (Z.to_nat (i + 1)) with (S (Z.to_nat i)) by lia.
  - done.
  - exists s'. split; [done|]. by rewrite Z.add_0_l, Nat2Z.id in Hn.
Qed.

Lemma boundary_refs_length (edgeIndicesMap : EdgeIndicesMap) (vs : list Z) :
  length (boundary_refs edgeIndicesMap vs) = length vs.
Proof.
  unfold boundary_refs. rewrite length_zip_with, next_vertices_length. lia.
Qed.

(** Edge [k] of a loop whose edges are in the table resolves to cell [k] of
    [boundary_refs]. *)
Lemma boundary_edge (edgeIndicesMap : EdgeIndicesMap) (vs : list Z) (k : nat) :
  boundary_present edgeIndicesMap vs -> (k < length vs)%nat ->
  exists a b,
    vs !! k = Some a /\ next_vertices vs !! k = Some b /\
    getEdgeIndex (Edge_new (to_int a) (to_int b)) edgeIndicesMap
    = Done (edge_ref edgeIndicesMap a b) /\
    boundary_refs edgeIndicesMap vs !! k = Some (edge_ref edgeIndicesMap a b).
Proof.
  intros Hpresent Hk.
  destruct (lookup_lt_is_Some_2 vs k) as [a Ha]; [done|].
  destruct (lookup_lt_is_Some_2 (next_vertices vs) k) as [b Hb];
    [by rewrite next_vertices_length|].
  exists a, b. split; [done|]. split; [done|]. split.
  - apply getEdgeIndex_present. eapply Forall2_lookup_lr; eauto.
  - unfold boundary_refs. rewrite lookup_zip_with, Ha. cbn. by rewrite Hb.
Qed.

(** Filling cell [k] of an array that agrees with [refs] below [k]. *)
Lemma take_insert_next (ids refs : list Z) (k : nat) (r : Z) :
  take k ids = take k refs -> refs !! k = Some r -> (k < length ids)%nat ->
  take (S k) (<[k := r]> ids) = take (S k) refs.
Proof.
  intros Hids Hr Hk.
  rewrite (take_S_r _ _ r) by (by apply list_lookup_insert_eq).
  rewrite take_insert_ge by lia. rewrite Hids. by rewrite (take_S_r _ _ r).
Qed.

Lemma take_all_eq (ids refs : list Z) (n : nat) :
  length ids = n -> length refs = n -> take n ids = take n refs -> ids = refs.
Proof. intros <- Hrefs. by rewrite firstn_all, <- Hrefs, firstn_all. Qed.

Lemma vertex_points_lookup {real} (mesh : Mesh real) (vs : list Z)
    (pts : list (Vector3 real)) :
  mapM (vertex_point mesh) (take 3 vs) = Done pts ->
  length pts = Nat.min 3 (length vs) /\
  forall (k : nat) a, (k < 3)%nat -> vs !! k = Some a ->
    exists pt, pts !! k = Some pt /\ vertex_point mesh a = Done pt.
Proof.
  intros Hpts. apply mapM_Done_inv in Hpts. split.
  - apply Forall2_length in Hpts. rewrite <- Hpts, length_take. lia.
  - intros k a Hk Ha.
    destruct (Forall2_lookup_l _ _ _ k a Hpts) as (pt & Hpt & Hrun); [|by exists pt].
    by rewrite lookup_take_lt.
Qed.

(** The edge loop of [setPolygonFaceInfos] on a face of [n >= 1] vertices. *)
Lemma setPolygonFaceInfos_loop {real} (mesh : Mesh real)
    (primitiveElement : MeshPrimitive) (edgeIndicesMap : EdgeIndicesMap)
    (polyFace : polyFaces) (before vs after : list Z)
    (polygonPoints points : list (Vector3 real)) :
  getPositionIndices primitiveElement = before ++ vs ++ after ->
  is_size_t (Z.of_nat (length (getPositionIndices primitiveElement))) ->
  (1 <= length vs)%nat ->
  Z.of_nat (length vs) < 2 ^ 31 ->
  boundary_present edgeIndicesMap vs ->
  (if decide (getPrimitiveType primitiveElement = POLYGONS)
   then mapM (vertex_point mesh) (take 3 vs) = Done points
   else points = polygonPoints) ->
  setPolygonFaceInfos mesh primitiveElement edgeIndicesMap polyFace
    (Z.of_nat (length vs)) (Z.of_nat (length before)) polygonPoints =
  Done (set_f polyFace (Z.of_nat (length vs)) (boundary_refs edgeIndicesMap vs),
        Z.of_nat (length before) + Z.of_nat (length vs), points).
Proof.
  intros Hpositions Hlength Hn Hcount Hpresent Hpoints.
  unfold setPolygonFaceInfos. rewrite Nat2Z.id.
  match goal with |- context [for_loop _ 0 ?body ?el0] =>
    destruct (for_loop_total_nat
                (fun k el =>
                   el_positionIndex el
                   = Z.of_nat (length before) + Z.of_nat (Nat.min k (length vs - 1)) /\
                   length (el_edgeIdValue el) = length vs /\
                   take k (el_edgeIdValue el) = take k (boundary_refs edgeIndicesMap vs) /\
                   el_points el =
                     if decide (getPrimitiveType primitiveElement = POLYGONS /\ (0 < k)%nat)
                     then take (Nat.min k 3) points else polygonPoints)
                body (length vs) el0) as (el & Hrun & Hcur & Hlen & Hids & Hpts)
  end.
  - intros k [ids cur pts] Hk (Hcur & Hlen & Hids & Hpts). cbn in Hcur, Hlen, Hids, Hpts.
    destruct (boundary_edge edgeIndicesMap vs k Hpresent Hk)
      as (a & b & Ha & Hb & Hedge & Hr).
    cbn [el_positionIndex el_points el_edgeIdValue].
    rewrite Hcur, Hpositions. rewrite Nat.min_l by lia.
    rewrite (polygon_edge_vertices_spec _ _ _ _ a b); [|by rewrite <- Hpositions|done..].
    cbn [mbind Run_bind]. rewrite Hedge.
    assert (Hnext : exists pts',
               (if decide (getPrimitiveType primitiveElement = POLYGONS /\ Z.of_nat k < 3)
                then
                  p ← getVertexPosition mesh (to_size_t (to_int a));
                  Done ((if decide (Z.of_nat k = 0 /\ Z.of_nat (length pts) > 0)
                         then [] else pts) ++ [p])
                else Done pts) = Done pts' /\
               pts' = if decide (getPrimitiveType primitiveElement = POLYGONS /\ (0 < S k)%nat)
                      then take (Nat.min (S k) 3) points else polygonPoints).
    { destruct (decide (getPrimitiveType primitiveElement = POLYGONS)) as [Htype|Htype].
      - destruct (vertex_points_lookup mesh vs points Hpoints) as [Hplen Hpt].
        rewrite (decide_True (P := _ /\ (0 < S k)%nat)) by (split; [done|lia]).
        destruct (decide (k < 3)%nat) as [Hk3|Hk3].
        + destruct (Hpt k a Hk3 Ha) as (pt & Hlook & Hfetch).
          unfold vertex_point in Hfetch.
          rewrite decide_True by (split; [done|lia]). rewrite Hfetch.
          cbn [mbind Run_bind]. eexists. split; [reflexivity|].
          rewrite Nat.min_l by lia. rewrite (take_S_r _ _ pt) by done. f_equal.
          destruct k as [|k].
          * rewrite decide_False in Hpts by lia. subst pts. cbn [take].
            case_decide as Hclear; [done|].
            destruct polygonPoints; [done|]. exfalso. apply Hclear. cbn [length]. lia.
          * rewrite decide_True in Hpts by (split; [done|lia]).
            rewrite Nat.min_l in Hpts by lia. rewrite decide_False by lia. done.
        + rewrite decide_False by lia. eexists. split; [reflexivity|].
          rewrite decide_True in Hpts by (split; [done|lia]).
          rewrite Hpts. by rewrite !Nat.min_r by lia.
      - rewrite decide_False by tauto. eexists. split; [reflexivity|].
        rewrite decide_False in Hpts by tauto. by rewrite decide_False by tauto. }
    destruct Hnext as (pts' & -> & Hpts').
    cbn [mbind Run_bind]. eexists. split; [reflexivity|].
    cbn [el_positionIndex el_points el_edgeIdValue]. rewrite Nat2Z.id.
    split; [lia|]. split; [by rewrite length_insert|]. split; [|done].
    apply take_insert_next; [done|done|lia].
  - cbn [el_positionIndex el_edgeIdValue el_points].
    split; [cbn; lia|]. split; [unfold new_int_array; rewrite length_replicate; lia|].
    split; [done|]. by rewrite decide_False by lia.
  - rewrite Hrun. cbn [mbind Run_bind]. rewrite Hcur, Nat.min_r by lia.
    rewrite to_size_t_id.
    2:{ rewrite Hpositions, !length_app in Hlength. unfold_ints. lia. }
    apply take_all_eq in Hids; [|done|by rewrite boundary_refs_length].
    rewrite Hids, Hpts. do 2 f_equal; [f_equal; lia|].
    destruct (decide (getPrimitiveType primitiveElement = POLYGONS)) as [Htype|Htype].
    + destruct (vertex_points_lookup mesh vs points Hpoints) as [Hplen _].
      rewrite decide_True by (split; [done|lia]). apply take_ge. lia.
    + rewrite decide_False by tauto. done.
Qed.

(** X3: [setPolygonFaceInfos] on a face of [n >= 1] vertices that starts at
    the position cursor fills the face with the [n] signed references of
    the edges [v[j] → v[j+1]], the last one closing the loop from
    [v[n-1]] to [v[0]], and leaves the cursor behind the face.  For a
    [POLYGONS] primitive the polygon points are replaced by the positions
    of the first three vertices (as many as there are); for the other
    types they are kept. *)
Theorem setPolygonFaceInfos_boundary {real} (mesh : Mesh real)
    (primitiveElement : MeshPrimitive) (edgeIndicesMap : EdgeIndicesMap)
    (polyFace : polyFaces) (before vs after : list Z)
    (polygonPoints points : list (Vector3 real)) :
  getPositionIndices primitiveElement = before ++ vs ++ after ->
  is_size_t (Z.of_nat (length (getPositionIndices primitiveElement))) ->
  (1 <= length vs)%nat ->
  Z.of_nat (length vs) < 2 ^ 31 ->
  boundary_present edgeIndicesMap vs ->
  (if decide (getPrimitiveType primitiveElement = POLYGONS)
   then mapM (vertex_point mesh) (take 3 vs) = Done points
   else points = polygonPoints) ->
  setPolygonFaceInfos mesh primitiveElement edgeIndicesMap polyFace
    (Z.of_nat (length vs)) (Z.of_nat (length before)) polygonPoints =
  Done (set_f polyFace (Z.of_nat (length vs)) (boundary_refs edgeIndicesMap vs),
        Z.of_nat (length before) + Z.of_nat (length vs), points).
Proof. apply setPolygonFaceInfos_loop. Qed.

Lemma setPolygonFaceInfos_boundary_witness :
  setPolygonFaceInfos quad_with_hole_mesh quad_with_hole quad_with_hole_map
    polyFaces_new 4 0 [] =
  Done (set_f polyFaces_new 4 (boundary_refs quad_with_hole_map [0; 1; 2; 3]), 4,
        [mkVector3 0 0 0; mkVector3 10 0 0; mkVector3 10 10 0]) /\
  boundary_refs quad_with_hole_map [0; 1; 2; 3] = [0; 1; 2; -4].
Proof.
  split; [|by vm_compute].
  apply (setPolygonFaceInfos_boundary quad_with_hole_mesh quad_with_hole
           quad_with_hole_map polyFaces_new [] [0; 1; 2; 3] [4; 5; 6] []).
  - reflexivity.
  - by vm_compute.
  - cbn. lia.
  - by vm_compute.
  - repeat constructor; eexists; vm_compute; reflexivity.
  - vm_compute. reflexivity.
Defined.

(** The edge loop of [setPolygonHoleInfos] and the orientation test. *)
Lemma setPolygonHoleInfos_loop `{Scalar real} (mesh : Mesh real)
    (primitiveElement : MeshPrimitive) (edgeIndicesMap : EdgeIndicesMap)
    (polyFace : polyFaces) (before vs after : list Z)
    (polygonPoints holePoints : list (Vector3 real)) (change : bool) :
  getPositionIndices primitiveElement = before ++ vs ++ after ->
  is_size_t (Z.of_nat (length (getPositionIndices primitiveElement))) ->
  Z.of_nat (length vs) < 2 ^ 31 ->
  boundary_present edgeIndicesMap vs ->
  mapM (vertex_point mesh) (take 3 vs) = Done holePoints ->
  changeHoleOrientation polygonPoints holePoints = Done change ->
  setPolygonHoleInfos mesh primitiveElement edgeIndicesMap polyFace
    (- Z.of_nat (length vs)) (Z.of_nat (length before)) polygonPoints =
  Done (set_h polyFace (Z.of_nat (length vs))
          (if change then reverse (toggle <$> boundary_refs edgeIndicesMap vs)
           else boundary_refs edgeIndicesMap vs),
        Z.of_nat (length vs),
        Z.of_nat (length before) + Z.of_nat (length vs)).
Proof.
  intros Hpositions Hlength Hcount Hpresent Hpoints Hchange.
  destruct (vertex_points_lookup mesh vs holePoints Hpoints) as [Hplen Hpt].
  assert (Hn : (3 <= length vs)%nat).
  { unfold changeHoleOrientation in Hchange.
    do 5 (apply bind_Done in Hchange as (? & _ & Hchange)).
    apply bind_Done in Hchange as (? & Hread & _).
    apply read_inv in Hread as [_ Hread]. apply lookup_lt_Some in Hread.
    change (Z.to_nat 2) with 2%nat in Hread. lia. }
  unfold setPolygonHoleInfos.
  replace (to_int (- Z.of_nat (length vs) * -1)) with (Z.of_nat (length vs)) by solve_ints.
  rewrite Nat2Z.id.
  match goal with |- context [for_loop _ 0 ?body ?el0] =>
    destruct (for_loop_total_nat
                (fun k el =>
                   el_positionIndex el
                   = Z.of_nat (length before) + Z.of_nat (Nat.min k (length vs - 1)) /\
                   length (el_edgeIdValue el) = length vs /\
                   take k (el_edgeIdValue el) = take k (boundary_refs edgeIndicesMap vs) /\
                   el_points el = take (Nat.min k 3) holePoints)
                body (length vs) el0) as (el & Hrun & Hcur & Hlen & Hids & Hpts)
  end.
  - intros k [ids cur pts] Hk (Hcur & Hlen & Hids & Hpts). cbn in Hcur, Hlen, Hids, Hpts.
    destruct (boundary_edge edgeIndicesMap vs k Hpresent Hk)
      as (a & b & Ha & Hb & Hedge & Hr).
    cbn [el_positionIndex el_points el_edgeIdValue].
    rewrite Hcur, Hpositions. rewrite Nat.min_l by lia.
    rewrite (polygon_edge_vertices_spec _ _ _ _ a b); [|by rewrite <- Hpositions|done..].
    cbn [mbind Run_bind]. rewrite Hedge.
    assert (Hnext : (if decide (Z.of_nat k < 3)
                     then p ← getVertexPosition mesh (to_size_t (to_int a));
                          Done (pts ++ [p])
                     else Done pts) = Done (take (Nat.min (S k) 3) holePoints)).
    { destruct (decide (k < 3)%nat) as [Hk3|Hk3].
      - destruct (Hpt k a Hk3 Ha) as (pt & Hlook & Hfetch).
        unfold vertex_point in Hfetch. rewrite decide_True by lia. rewrite Hfetch.
        cbn [mbind Run_bind]. rewrite Nat.min_l by lia.
        rewrite (take_S_r _ _ pt) by done. rewrite Hpts. by rewrite Nat.min_l by lia.
      - rewrite decide_False by lia. rewrite Hpts. by rewrite !Nat.min_r by lia. }
    rewrite Hnext. cbn [mbind Run_bind]. eexists. split; [reflexivity|].
    cbn [el_positionIndex el_points el_edgeIdValue]. rewrite Nat2Z.id.
    split; [lia|]. split; [by rewrite length_insert|]. split; [|done].
    apply take_insert_next; [done|done|lia].
  - cbn [el_positionIndex el_edgeIdValue el_points].
    split; [cbn; lia|]. split; [unfold new_int_array; rewrite length_replicate; lia|].
    done.
  - rewrite Hrun. cbn [mbind Run_bind]. rewrite Hcur, Nat.min_r by lia.
    rewrite to_size_t_id.
    2:{ rewrite Hpositions, !length_app in Hlength. unfold_ints. lia. }
    apply take_all_eq in Hids; [|done|by rewrite boundary_refs_length].
    rewrite Hids, Hpts. rewrite take_ge by lia. rewrite Hchange. cbn [mbind Run_bind].
    replace (Z.of_nat (length before) + Z.of_nat (length vs - 1) + 1)
      with (Z.of_nat (length before) + Z.of_nat (length vs)) by lia.
    destruct change; [|done].
    rewrite changePolyFaceHoleOrientation_spec
      by (cbn; by rewrite boundary_refs_length).
    done.
Qed.

(** X4: [setPolygonHoleInfos] on a hole given by the count [-n] reads the
    [n] vertices at the position cursor like a face, takes the positions
    of the first three of them as hole points and compares the winding
    with the polygon points: the hole holds the [n] edge references of the
    loop as decoded when [changeHoleOrientation] says no, and the flipped
    list when it says yes.  The count returned for the attribute slices is
    [n], and the cursor is left behind the hole. *)
Theorem setPolygonHoleInfos_boundary `{Scalar real} (mesh : Mesh real)
    (primitiveElement : MeshPrimitive) (edgeIndicesMap : EdgeIndicesMap)
    (polyFace : polyFaces) (before vs after : list Z)
    (polygonPoints holePoints : list (Vector3 real)) (change : bool) :
  getPositionIndices primitiveElement = before ++ vs ++ after ->
  is_size_t (Z.of_nat (length (getPositionIndices primitiveElement))) ->
  Z.of_nat (length vs) < 2 ^ 31 ->
  boundary_present edgeIndicesMap vs ->
  mapM (vertex_point mesh) (take 3 vs) = Done holePoints ->
  changeHoleOrientation polygonPoints holePoints = Done change ->
  setPolygonHoleInfos mesh primitiveElement edgeIndicesMap polyFace
    (- Z.of_nat (length vs)) (Z.of_nat (length before)) polygonPoints =
  Done (set_h polyFace (Z.of_nat (length vs))
          (if change then reverse (toggle <$> boundary_refs edgeIndicesMap vs)
           else boundary_refs edgeIndicesMap vs),
        Z.of_nat (length vs),
        Z.of_nat (length before) + Z.of_nat (length vs)).
Proof. apply setPolygonHoleInfos_loop. Qed.

Lemma setPolygonHoleInfos_boundary_witness :
  setPolygonHoleInfos quad_with_hole_mesh quad_with_hole quad_with_hole_map
    polyFaces_new (-3) 4 [mkVector3 0 0 0; mkVector3 10 0 0; mkVector3 10 10 0] =
  Done (set_h polyFaces_new 3
          (reverse (toggle <$> boundary_refs quad_with_hole_map [4; 5; 6])), 3, 7) /\
  reverse (toggle <$> boundary_refs quad_with_hole_map [4; 5; 6]) = [6; -6; -5].
Proof.
  split; [|by vm_compute].
  apply (setPolygonHoleInfos_boundary quad_with_hole_mesh quad_with_hole
           quad_with_hole_map polyFaces_new [0; 1; 2; 3] [4; 5; 6] []
           [mkVector3 0 0 0; mkVector3 10 0 0; mkVector3 10 10 0]
           [mkVector3 2 2 0; mkVector3 4 2 0; mkVector3 3 4 0] true).
  - reflexivity.
  - by vm_compute.
  - by vm_compute.
  - repeat constructor; eexists; vm_compute; reflexivity.
  - vm_compute. reflexivity.
  - vm_compute. reflexivity.
Defined.

(** ** A flipped hole is the hole walked the other way round *)

Lemma reverse_zip_with {A B C} (f : A -> B -> C) (l : list A) :
  forall k : list B, length l = length k ->
    reverse (zip_with f l k) = zip_with f (reverse l) (reverse k).
Proof.
  induction l as [|x l IH]; intros [|y k] Hlen; try done.
  cbn [zip_with]. rewrite !reverse_cons, IH by (cbn in Hlen; lia).
  rewrite zip_with_app by (rewrite !length_reverse; cbn in Hlen; lia). done.
Qed.

Lemma fmap_zip_with_swap {A C} (t : C -> C) (f : A -> A -> C) (l k : list A) :
  Forall2 (fun a b => t (f a b) = f b a) l k ->
  t <$> zip_with f l k = zip_with f k l.
Proof. induction 1 as [|a b l k Hab _ IH]; [done|]. cbn. by rewrite Hab, IH. Qed.

(** The reference of an edge taken in the other direction is the toggled
    reference. *)
Lemma toggle_edge_ref (edgeIndicesMap : EdgeIndicesMap) (a b : Z) :
  edge_present edgeIndicesMap a b -> to_int a <> to_int b ->
  toggle (edge_ref edgeIndicesMap a b) = edge_ref edgeIndicesMap b a.
Proof.
  unfold edge_present, edge_ref. intros [i Hi] Hne.
  destruct (decide (to_int a < to_int b)) as [Hlt|Hlt].
  - rewrite Edge_new_forward in * by done.
    rewrite (Edge_new_backward (to_int a) (to_int b)) by done.
    rewrite (getEdgeIndex_hit _ _ i), (getEdgeIndex_hit _ _ i) by done.
    cbn. by rewrite toggle_negate.
  - rewrite (Edge_new_backward (to_int b) (to_int a)) in * by lia.
    rewrite (Edge_new_forward (to_int b) (to_int a)) by lia.
    rewrite (getEdgeIndex_hit _ _ i), (getEdgeIndex_hit _ _ i) by done.
    cbn. rewrite toggle_negate. apply toggle_toggle, to_int_is_int.
Qed.

Lemma next_vertices_cons (v0 : Z) (rest : list Z) :
  next_vertices (v0 :: rest) = rest ++ [v0].
Proof. unfold next_vertices. cbn. by rewrite drop_0. Qed.

Lemma flipped_boundary_refs (edgeIndicesMap : EdgeIndicesMap) (v0 : Z) (rest : list Z) :
  boundary_present edgeIndicesMap (v0 :: rest) ->
  no_degenerate_edge (v0 :: rest) ->
  reverse (toggle <$> boundary_refs edgeIndicesMap (v0 :: rest))
  = boundary_refs edgeIndicesMap (v0 :: reverse rest).
Proof.
  unfold boundary_present, no_degenerate_edge, boundary_refs.
  rewrite !next_vertices_cons. intros Hpresent Hedges.
  rewrite (fmap_zip_with_swap toggle).
  2:{ apply Forall2_same_length_lookup. split; [by eapply Forall2_length|].
      intros i a b Ha Hb. apply toggle_edge_ref.
      - eapply Forall2_lookup_lr; eauto.
      - eapply (Forall2_lookup_lr _ _ _ _ _ _ Hedges); eauto. }
  rewrite reverse_zip_with by (rewrite length_app; cbn; lia).
  by rewrite reverse_snoc, reverse_cons.
Qed.

(** X5: flipping the hole decoded from the vertex loop [v0, v1, ...,
    v(n-1)] gives exactly the hole decoded from the loop walked the other
    way round from the same first vertex, [v0, v(n-1), ..., v1]: the same
    edges in reversed order, each taken in the opposite direction.  No
    edge of the loop may join a vertex with itself. *)
Theorem changePolyFaceHoleOrientation_reversed_loop (edgeIndicesMap : EdgeIndicesMap)
    (polyFace : polyFaces) (v0 : Z) (rest : list Z) :
  boundary_present edgeIndicesMap (v0 :: rest) ->
  no_degenerate_edge (v0 :: rest) ->
  changePolyFaceHoleOrientation
    (set_h polyFace (Z.of_nat (length (v0 :: rest)))
       (boundary_refs edgeIndicesMap (v0 :: rest))) =
  Done (set_h polyFace (Z.of_nat (length (v0 :: reverse rest)))
          (boundary_refs edgeIndicesMap (v0 :: reverse rest))).
Proof.
  intros Hpresent Hedges.
  rewrite changePolyFaceHoleOrientation_spec
    by (cbn [h_holeEdgeCount h_edgeIdValue set_h]; by rewrite boundary_refs_length).
  unfold set_h_edgeIdValue, set_h.
  cbn [f_faceEdgeCount f_edgeIdValue h_holeEdgeCount h_edgeIdValue mu muCount mc mcCount].
  rewrite flipped_boundary_refs by done. cbn [length]. by rewrite length_reverse.
Qed.

Lemma changePolyFaceHoleOrientation_reversed_loop_witness :
  changePolyFaceHoleOrientation
    (set_h polyFaces_new 3 (boundary_refs quad_with_hole_map [4; 5; 6])) =
  Done (set_h polyFaces_new 3 (boundary_refs quad_with_hole_map [4; 6; 5])) /\
  boundary_refs quad_with_hole_map [4; 5; 6] = [4; 5; -7] /\
  boundary_refs quad_with_hole_map [4; 6; 5] = [6; -6; -5].
Proof.
  split; [|by vm_compute].
  apply (changePolyFaceHoleOrientation_reversed_loop quad_with_hole_map polyFaces_new
           4 [5; 6]).
  - repeat constructor; eexists; vm_compute; reflexivity.
  - repeat constructor; by vm_compute.
Defined.

(** ** The polygon decoder on a primitive without holes *)

Lemma polygon_faces_app {real} (mesh : Mesh real) (primitiveElement : MeshPrimitive)
    (edgeIndicesMap : EdgeIndicesMap) (l1 l2 : list (list Z)) :
  forall cursor,
    polygon_faces mesh primitiveElement edgeIndicesMap cursor (l1 ++ l2) =
    polygon_faces mesh primitiveElement edgeIndicesMap cursor l1 ++
    polygon_faces mesh primitiveElement edgeIndicesMap
      (cursor + Z.of_nat (length (mjoin l1))) l2.
Proof.
  induction l1 as [|vs l1 IH]; intros cursor; cbn.
  - by rewrite Z.add_0_r.
  - rewrite IH, length_app, Nat2Z.inj_add, Z.add_assoc. done.
Qed.

Lemma join_cons {A} (l : list A) (ls : list (list A)) : mjoin (l :: ls) = l ++ mjoin ls.
Proof. reflexivity. Qed.

Lemma stream_covers_part (indexList : IndexList) (total cursor n : Z) :
  stream_covers 0 total indexList -> 0 <= cursor -> cursor + n <= total ->
  stream_covers cursor n indexList.
Proof.
  intros Hcov Hc Hn j Hj. specialize (Hcov (j + cursor)).
  rewrite Z.add_0_r in Hcov. apply Hcov. lia.
Qed.

(** One round of the loop of [appendPolygonPolyFaces] on a face. *)
Lemma polygon_group_face `{Scalar real} (mesh : Mesh real)
    (primitiveElement : MeshPrimitive) (edgeIndicesMap : EdgeIndicesMap)
    (done todo : list (list Z)) (vs after : list Z) (st : PolyState real) :
  let cursor := Z.of_nat (length (mjoin done)) in
  let total := Z.of_nat (length (mjoin (done ++ vs :: todo))) in
  getPositionIndices primitiveElement = mjoin (done ++ vs :: todo) ++ after ->
  getGroupedVerticesVertexCountArray primitiveElement
  = (fun vs => Z.of_nat (length vs)) <$> (done ++ vs :: todo) ->
  is_size_t (Z.of_nat (length (getPositionIndices primitiveElement))) ->
  Z.of_nat (length done) < 2 ^ 31 ->
  (1 <= length vs)%nat -> Z.of_nat (length vs) < 2 ^ 31 ->
  boundary_present edgeIndicesMap vs ->
  (getPrimitiveType primitiveElement = POLYGONS ->
   exists points, mapM (vertex_point mesh) (take 3 vs) = Done points) ->
  Forall (stream_covers 0 total) (getUVCoordIndicesArray primitiveElement) ->
  Forall (stream_covers 0 total) (getColorIndicesArray primitiveElement) ->
  ps_positionIndex st = cursor -> ps_uvSetIndicesIndex st = cursor ->
  ps_colorIndicesIndex st = cursor ->
  exists points,
    polygon_group mesh primitiveElement edgeIndicesMap (Z.of_nat (length done)) st =
    Done (mkPolyState (cursor + Z.of_nat (length vs)) (cursor + Z.of_nat (length vs))
            (cursor + Z.of_nat (length vs)) points
            (ps_meshNode st ++
             [polygon_face mesh primitiveElement edgeIndicesMap vs cursor cursor])).
Proof.
  intros cursor total Hpositions Hcounts Hlength Hdone Hn Hcount Hpresent Hpoints
    Huv Hcolor Hp Hcu Hcc.
  assert (Htotal : total = cursor + Z.of_nat (length vs) + Z.of_nat (length (mjoin todo))).
  { unfold total, cursor. rewrite join_app, join_cons, !length_app. lia. }
  assert (Hlen : total <= Z.of_nat (length (getPositionIndices primitiveElement)))
    by (rewrite Hpositions, length_app; unfold total; lia).
  assert (Hpos' : getPositionIndices primitiveElement
                  = mjoin done ++ vs ++ (mjoin todo ++ after)).
  { rewrite Hpositions, join_app, join_cons, <- !app_assoc. done. }
  assert (Hfetch : exists points,
             if decide (getPrimitiveType primitiveElement = POLYGONS)
             then mapM (vertex_point mesh) (take 3 vs) = Done points
             else points = ps_polygonPoints st).
  { case_decide; [by apply Hpoints|by eexists]. }
  destruct Hfetch as (points & Hfetch). exists points.
  unfold polygon_group, getGroupedVerticesVertexCount.
  rewrite to_size_t_id by (unfold_ints; lia).
  rewrite (read_nat _ _ (Z.of_nat (length vs))).
  2:{ rewrite Hcounts, list_lookup_fmap, lookup_app_r by lia.
      by rewrite Nat.sub_diag. }
  cbn [mbind Run_bind]. rewrite to_int_id by (unfold_ints; lia).
  rewrite decide_True by lia. rewrite Hp, Hcu, Hcc. unfold cursor in *.
  rewrite (setPolygonFaceInfos_loop mesh primitiveElement edgeIndicesMap polyFaces_new
             (mjoin done) vs (mjoin todo ++ after) (ps_polygonPoints st) points)
    by done.
  cbn [mbind Run_bind].
  rewrite setUVSetInfos_spec.
  2:{ eapply Forall_impl; [exact Huv|]. intros il Hil.
      apply (stream_covers_part il total); [done|lia|lia]. }
  cbn [mbind Run_bind].
  rewrite setColorInfos_spec.
  2:{ eapply Forall_impl; [exact Hcolor|]. intros il Hil.
      apply (stream_covers_part il total); [done|lia|lia]. }
  cbn [mbind Run_bind].
  rewrite to_size_t_id by (unfold_ints; lia). done.
Qed.

Lemma appendPolygonPolyFaces_run `{Scalar real} (mesh : Mesh real)
    (primitiveElement : MeshPrimitive) (edgeIndicesMap : EdgeIndicesMap)
    (meshNode : list polyFaces) (groups : list (list Z)) (after : list Z) :
  let total := Z.of_nat (length (mjoin groups)) in
  getPositionIndices primitiveElement = mjoin groups ++ after ->
  getGroupedVerticesVertexCountArray primitiveElement
  = (fun vs => Z.of_nat (length vs)) <$> groups ->
  is_size_t (Z.of_nat (length (getPositionIndices primitiveElement))) ->
  Z.of_nat (length groups) < 2 ^ 31 ->
  Forall (fun vs => (1 <= length vs)%nat /\ Z.of_nat (length vs) < 2 ^ 31 /\
                    boundary_present edgeIndicesMap vs) groups ->
  (getPrimitiveType primitiveElement = POLYGONS ->
   Forall (fun vs => exists points, mapM (vertex_point mesh) (take 3 vs) = Done points)
          groups) ->
  Forall (stream_covers 0 total) (getUVCoordIndicesArray primitiveElement) ->
  Forall (stream_covers 0 total) (getColorIndicesArray primitiveElement) ->
  appendPolygonPolyFaces mesh primitiveElement edgeIndicesMap meshNode =
  Done (meshNode ++ polygon_faces mesh primitiveElement edgeIndicesMap 0 groups).
Proof.
  intros total Hpositions Hcounts Hlength Hgroups Hfaces Hpoints Huv Hcolor.
  unfold appendPolygonPolyFaces, getGroupedVertexElementsCount.
  rewrite Hcounts, length_fmap. rewrite to_int_id by (unfold_ints; lia).
  rewrite decide_False by lia. rewrite Nat2Z.id.
  match goal with |- context [for_loop _ 0 ?body ?st0] =>
    destruct (for_loop_total_nat
                (fun k st =>
                   let cursor := Z.of_nat (length (mjoin (take k groups))) in
                   ps_positionIndex st = cursor /\ ps_uvSetIndicesIndex st = cursor /\
                   ps_colorIndicesIndex st = cursor /\
                   ps_meshNode st = meshNode ++
                     polygon_faces mesh primitiveElement edgeIndicesMap 0 (take k groups))
                body (length groups) st0) as (st & Hrun & _ & _ & _ & Hnode)
  end.
  - intros k st Hk (Hp & Hcu & Hcc & Hnode).
    destruct (lookup_lt_is_Some_2 groups k) as [vs Hvs]; [done|].
    pose proof (take_drop_middle _ _ _ Hvs) as Hsplit.
    destruct (Forall_lookup_1 _ _ _ _ Hfaces Hvs) as (Hn & Hcount & Hpresent).
    destruct (polygon_group_face mesh primitiveElement edgeIndicesMap
                (take k groups) (drop (S k) groups) vs after st) as (points & Hstep);
      rewrite ?Hsplit; try done.
    + rewrite length_take. lia.
    + intros Htype.
      exact (Forall_lookup_1 _ _ _ _ (Hpoints Htype) Hvs).
    + rewrite length_take, Nat.min_l in Hstep by lia. rewrite Hstep.
      eexists. split; [reflexivity|]. cbn.
      rewrite (take_S_r _ _ vs) by done.
      rewrite join_app, length_app, polygon_faces_app, Hnode, <- app_assoc. cbn.
      rewrite app_nil_r, Z.add_0_l. repeat split; lia || done.
  - cbn. by rewrite app_nil_r.
  - rewrite Hrun. cbn [mbind Run_bind]. rewrite Hnode. by rewrite firstn_all.
Qed.

(** X6: on a primitive without holes ([POLYLIST], [TRIANGLES], or
    [POLYGONS] whose counts are all positive) whose position stream is the
    concatenation of the vertex loops [groups], one loop per vertex count,
    [appendPolygonPolyFaces] appends exactly one face per loop, in order:
    the face of loop [k] holds the edge references of its closed loop, no
    hole, and from every UV and colour channel the slice that starts where
    the loop starts in the position stream and has the loop's length.  The
    edges must be in the table, the channels must have an entry per vertex,
    and for [POLYGONS] the first three vertices of each face must have a
    position. *)
Theorem appendPolygonPolyFaces_faces `{Scalar real} (mesh : Mesh real)
    (primitiveElement : MeshPrimitive) (edgeIndicesMap : EdgeIndicesMap)
    (meshNode : list polyFaces) (groups : list (list Z)) (after : list Z) :
  let total := Z.of_nat (length (mjoin groups)) in
  getPositionIndices primitiveElement = mjoin groups ++ after ->
  getGroupedVerticesVertexCountArray primitiveElement
  = (fun vs => Z.of_nat (length vs)) <$> groups ->
  is_size_t (Z.of_nat (length (getPositionIndices primitiveElement))) ->
  Z.of_nat (length groups) < 2 ^ 31 ->
  Forall (fun vs => (1 <= length vs)%nat /\ Z.of_nat (length vs) < 2 ^ 31 /\
                    boundary_present edgeIndicesMap vs) groups ->
  (getPrimitiveType primitiveElement = POLYGONS ->
   Forall (fun vs => exists points, mapM (vertex_point mesh) (take 3 vs) = Done points)
          groups) ->
  Forall (stream_covers 0 total) (getUVCoordIndicesArray primitiveElement) ->
  Forall (stream_covers 0 total) (getColorIndicesArray primitiveElement) ->
  appendPolygonPolyFaces mesh primitiveElement edgeIndicesMap meshNode =
  Done (meshNode ++ polygon_faces mesh primitiveElement edgeIndicesMap 0 groups).
Proof. apply appendPolygonPolyFaces_run. Qed.

Lemma appendPolygonPolyFaces_faces_witness :
  appendPolygonPolyFaces (sample_mesh 1 [quad_tri] 2) quad_tri quad_tri_map [] =
  Done ([] ++ polygon_faces (sample_mesh 1 [quad_tri] 2) quad_tri quad_tri_map 0
                [[0; 1; 2; 3]; [0; 2; 4]]) /\
  f_edgeIdValue <$> polygon_faces (sample_mesh 1 [quad_tri] 2) quad_tri quad_tri_map 0
                      [[0; 1; 2; 3]; [0; 2; 4]] = [[0; 1; 2; -4]; [4; 5; -7]] /\
  (fun face => uvIdValue <$> mu face)
    <$> polygon_faces (sample_mesh 1 [quad_tri] 2) quad_tri quad_tri_map 0
          [[0; 1; 2; 3]; [0; 2; 4]] = [[[0; 1; 2; 3]]; [[4; 5; 6]]].
Proof.
  split; [|by vm_compute].
  apply (appendPolygonPolyFaces_faces (sample_mesh 1 [quad_tri] 2) quad_tri quad_tri_map
           [] [[0; 1; 2; 3]; [0; 2; 4]] []).
  - reflexivity.
  - reflexivity.
  - by vm_compute.
  - by vm_compute.
  - repeat constructor; try (cbn; lia); try (by vm_compute);
      eexists; vm_compute; reflexivity.
  - intros Htype. by vm_compute in Htype.
  - repeat constructor. intros j Hj. change (0 <= j < 7) in Hj.
    assert (Hcases : j = 0 \/ j = 1 \/ j = 2 \/ j = 3 \/ j = 4 \/ j = 5 \/ j = 6) by lia.
    destruct Hcases as [->|[->|[->|[->|[->|[->| ->]]]]]]; by vm_compute.
  - constructor.
Defined.

(** ** The decoders only append *)

Lemma for_loop_fmap {St} (g : St -> St) (body : Z -> St -> Run St) (n : nat) :
  (forall i s, body i (g s) = g <$> body i s) ->
  forall j s, for_loop n j body (g s) = g <$> for_loop n j body s.
Proof.
  intros Hbody. induction n as [|n IH]; intros j s; [done|].
  cbn [for_loop]. rewrite Hbody. destruct (body j s) as [s'|e]; [|done].
  cbn. apply IH.
Qed.

Lemma for_each_fmap {A St} (g : St -> St) (body : St -> A -> Run St) (l : list A) :
  (forall s a, body (g s) a = g <$> body s a) ->
  forall s, for_each body (g s) l = g <$> for_each body s l.
Proof.
  intros Hbody. induction l as [|a l IH]; intros s; [done|].
  cbn [for_each]. rewrite Hbody. destruct (body s a) as [s'|e]; [|done].
  cbn. apply IH.
Qed.

Ltac run_cases :=
  repeat first
    [ progress cbn [mbind Run_bind fmap Run_fmap tri_after poly_after
                    st_polyFace st_triangleEdgeCounter st_initialPositionIndex
                    st_positionIndex st_uvSetIndicesIndex st_colorIndicesIndex
                    st_meshNode ps_positionIndex ps_uvSetIndicesIndex
                    ps_colorIndicesIndex ps_polygonPoints ps_meshNode]
    | match goal with
      | |- context [@mbind Run _ _ _ _ ?m] => destruct m as [?|?]
      | |- context [let '(_, _) := ?p in _] => destruct p
      | |- context [if decide ?P then _ else _] => destruct (decide P)
      | |- context [match ?k with Trifans => _ | Tristrips => _ end] => destruct k
      end ].

Lemma tri_edge_after {real} (kind : TriKind) (mesh : Mesh real)
    (primitiveElement : MeshPrimitive) (edgeIndicesMap : EdgeIndicesMap)
    (meshNode : list polyFaces) (st : TriState) :
  tri_edge kind mesh primitiveElement edgeIndicesMap (tri_after meshNode st) =
  tri_after meshNode <$> tri_edge kind mesh primitiveElement edgeIndicesMap st.
Proof.
  unfold tri_edge. run_cases; try done; unfold tri_after; cbn; by rewrite app_assoc.
Qed.

Lemma tri_group_after {real} (kind : TriKind) (mesh : Mesh real)
    (primitiveElement : MeshPrimitive) (edgeIndicesMap : EdgeIndicesMap)
    (meshNode : list polyFaces) (st : TriState) (vertexCount : Z) :
  tri_group kind mesh primitiveElement edgeIndicesMap (tri_after meshNode st) vertexCount =
  tri_after meshNode <$> tri_group kind mesh primitiveElement edgeIndicesMap st vertexCount.
Proof.
  unfold tri_group.
  change (mkTriState polyFaces_new 0 (st_initialPositionIndex (tri_after meshNode st))
            (st_positionIndex (tri_after meshNode st))
            (st_uvSetIndicesIndex (tri_after meshNode st))
            (st_colorIndicesIndex (tri_after meshNode st))
            (st_meshNode (tri_after meshNode st)))
    with (tri_after meshNode
            (mkTriState polyFaces_new 0 (st_initialPositionIndex st) (st_positionIndex st)
               (st_uvSetIndicesIndex st) (st_colorIndicesIndex st) (st_meshNode st))).
  rewrite (for_loop_fmap (tri_after meshNode))
    by (intros _ s; apply tri_edge_after).
  match goal with |- context [for_loop ?n ?j ?body ?s] =>
    destruct (for_loop n j body s) as [st1|e] end; [|done].
  by destruct kind.
Qed.

Lemma tri_decoder_after {real} (kind : TriKind) (mesh : Mesh real)
    (primitiveElement : MeshPrimitive) (edgeIndicesMap : EdgeIndicesMap)
    (meshNode : list polyFaces) :
  (st ← for_each (tri_group kind mesh primitiveElement edgeIndicesMap)
          (tri_start meshNode) (getGroupedVerticesVertexCountArray primitiveElement);
   Done (st_meshNode st)) =
  (fun faces => meshNode ++ faces) <$>
  (st ← for_each (tri_group kind mesh primitiveElement edgeIndicesMap)
          (tri_start []) (getGroupedVerticesVertexCountArray primitiveElement);
   Done (st_meshNode st)).
Proof.
  replace (tri_start meshNode) with (tri_after meshNode (tri_start []))
    by (unfold tri_after, tri_start; cbn; by rewrite app_nil_r).
  rewrite (for_each_fmap (tri_after meshNode))
    by (intros s a; apply tri_group_after).
  by destruct (for_each _ _ _) as [st|e].
Qed.

Lemma polygon_group_after `{Scalar real} (mesh : Mesh real)
    (primitiveElement : MeshPrimitive) (edgeIndicesMap : EdgeIndicesMap)
    (meshNode : list polyFaces) (groupedVtxIndex : Z) (st : PolyState real) :
  polygon_group mesh primitiveElement edgeIndicesMap groupedVtxIndex
    (poly_after meshNode st) =
  poly_after meshNode <$>
  polygon_group mesh primitiveElement edgeIndicesMap groupedVtxIndex st.
Proof.
  unfold polygon_group. run_cases; try done; unfold poly_after; cbn; by rewrite app_assoc.
Qed.

Lemma appendPolygonPolyFaces_after `{Scalar real} (mesh : Mesh real)
    (primitiveElement : MeshPrimitive) (edgeIndicesMap : EdgeIndicesMap)
    (meshNode : list polyFaces) :
  appendPolygonPolyFaces mesh primitiveElement edgeIndicesMap meshNode =
  (fun faces => meshNode ++ faces) <$>
  appendPolygonPolyFaces mesh primitiveElement edgeIndicesMap [].
Proof.
  unfold appendPolygonPolyFaces.
  replace (mkPolyState (real := real) 0 0 0 [] meshNode)
    with (poly_after meshNode (mkPolyState (real := real) 0 0 0 [] []))
    by (unfold poly_after; cbn; by rewrite app_nil_r).
  rewrite (for_loop_fmap (poly_after meshNode))
    by (intros i s; apply polygon_group_after).
  by destruct (for_loop _ _ _ _) as [st|e].
Qed.

Lemma appendTrifansPolyFaces_after {real} (mesh : Mesh real)
    (primitiveElement : MeshPrimitive) (edgeIndicesMap : EdgeIndicesMap)
    (meshNode : list polyFaces) :
  appendTrifansPolyFaces mesh primitiveElement edgeIndicesMap meshNode =
  (fun faces => meshNode ++ faces) <$>
  appendTrifansPolyFaces mesh primitiveElement edgeIndicesMap [].
Proof. apply (tri_decoder_after Trifans). Qed.

Lemma appendTristripsPolyFaces_after {real} (mesh : Mesh real)
    (primitiveElement : MeshPrimitive) (edgeIndicesMap : EdgeIndicesMap)
    (meshNode : list polyFaces) :
  appendTristripsPolyFaces mesh primitiveElement edgeIndicesMap meshNode =
  (fun faces => meshNode ++ faces) <$>
  appendTristripsPolyFaces mesh primitiveElement edgeIndicesMap [].
Proof. apply (tri_decoder_after Tristrips). Qed.

(** X7: the three decoders only append: run on a mesh node that already
    holds faces, each of them fails exactly when it fails on an empty mesh
    node, and otherwise leaves the faces that were there untouched and in
    front of the faces it produces on an empty mesh node.  What a primitive
    is decoded to does not depend on the primitives decoded before it. *)
Theorem decoders_only_append `{Scalar real} (mesh : Mesh real)
    (primitiveElement : MeshPrimitive) (edgeIndicesMap : EdgeIndicesMap)
    (meshNode : list polyFaces) :
  appendTrifansPolyFaces mesh primitiveElement edgeIndicesMap meshNode =
    ((fun faces => meshNode ++ faces) <$>
     appendTrifansPolyFaces mesh primitiveElement edgeIndicesMap []) /\
  appendTristripsPolyFaces mesh primitiveElement edgeIndicesMap meshNode =
    ((fun faces => meshNode ++ faces) <$>
     appendTristripsPolyFaces mesh primitiveElement edgeIndicesMap []) /\
  appendPolygonPolyFaces mesh primitiveElement edgeIndicesMap meshNode =
    ((fun faces => meshNode ++ faces) <$>
     appendPolygonPolyFaces mesh primitiveElement edgeIndicesMap []).
Proof.
  split; [apply appendTrifansPolyFaces_after|].
  split; [apply appendTristripsPolyFaces_after|apply appendPolygonPolyFaces_after].
Qed.

(** ** [writeFaces] primitive by primitive *)

Lemma writeFaces_step `{Scalar real} (mesh : Mesh real) (edgeIndicesMap : EdgeIndicesMap)
    (meshNode : list polyFaces) (primitiveElement : MeshPrimitive) :
  match getPrimitiveType primitiveElement with
  | TRIANGLE_FANS =>
      appendTrifansPolyFaces mesh primitiveElement edgeIndicesMap meshNode
  | TRIANGLE_STRIPS =>
      appendTristripsPolyFaces mesh primitiveElement edgeIndicesMap meshNode
  | POLYGONS | POLYLIST | TRIANGLES =>
      appendPolygonPolyFaces mesh primitiveElement edgeIndicesMap meshNode
  | OTHER_PRIMITIVE_TYPE => Done meshNode
  end = ((fun faces => meshNode ++ faces) <$>
         decode_primitive mesh edgeIndicesMap primitiveElement).
Proof.
  unfold decode_primitive. destruct (getPrimitiveType primitiveElement).
  - apply appendPolygonPolyFaces_after.
  - apply appendPolygonPolyFaces_after.
  - apply appendPolygonPolyFaces_after.
  - apply appendTrifansPolyFaces_after.
  - apply appendTristripsPolyFaces_after.
  - cbn. by rewrite app_nil_r.
Qed.

Lemma for_each_decode {A} (decode : A -> Run (list polyFaces))
    (body : list polyFaces -> A -> Run (list polyFaces)) (l : list A) :
  (forall meshNode a, body meshNode a = ((fun faces => meshNode ++ faces) <$> decode a)) ->
  forall meshNode,
    for_each body meshNode l =
    ((fun parts => meshNode ++ mjoin parts) <$> mapM decode l).
Proof.
  intros Hbody. induction l as [|a l IH]; intros meshNode.
  - cbn. by rewrite app_nil_r.
  - cbn [for_each mapM]. rewrite Hbody.
    destruct (decode a) as [faces|e]; [|done]. cbn.
    rewrite IH. destruct (mapM decode l) as [parts|e]; [|done]. cbn.
    by rewrite app_assoc.
Qed.

(** X8: the faces that [writeFaces] writes are the concatenation, in the
    order of the primitives, of the faces that each primitive is decoded to
    on its own, and the first primitive that cannot be decoded makes the
    whole call fail.  A primitive of an unsupported type contributes no
    face, and for a mesh whose face count is not positive nothing is
    decoded at all. *)
Theorem writeFaces_concat `{Scalar real} (mesh : Mesh real)
    (edgeIndicesMap : EdgeIndicesMap) :
  writeFaces mesh edgeIndicesMap =
  if decide (getFacesCount mesh <= 0) then Done []
  else mjoin <$> mapM (decode_primitive mesh edgeIndicesMap) (getMeshPrimitives mesh).
Proof.
  unfold writeFaces. case_decide; [done|].
  rewrite (for_each_decode (decode_primitive mesh edgeIndicesMap))
    by (intros meshNode a; apply writeFaces_step).
  done.
Qed.

(** ** Whole fan and strip primitives *)

(** A group of two vertices has no triangle: no edge is read, and the
    cursors move as after any other group. *)
Lemma tri_group_two {real} (kind : TriKind) (mesh : Mesh real)
    (primitiveElement : MeshPrimitive) (edgeIndicesMap : EdgeIndicesMap) (st : TriState) :
  tri_group kind mesh primitiveElement edgeIndicesMap st 2 =
  Done (mkTriState polyFaces_new 0
          (match kind with
           | Trifans => to_size_t (st_initialPositionIndex st + 2)
           | Tristrips => to_size_t (st_positionIndex st + 2)
           end)
          (to_size_t (st_positionIndex st + 2))
          (cursor_after kind (st_uvSetIndicesIndex st) 2)
          (cursor_after kind (st_colorIndicesIndex st) 2)
          (st_meshNode st)).
Proof.
  unfold tri_group, cursor_after. change (to_uint ((2 - 3) * 3 + 3)) with 0.
  cbn [Z.to_nat for_loop mbind Run_bind st_polyFace st_triangleEdgeCounter
       st_initialPositionIndex st_positionIndex st_uvSetIndicesIndex
       st_colorIndicesIndex st_meshNode].
  destruct kind; [done|].
  by replace (st_uvSetIndicesIndex st + 2 - 4) with (st_uvSetIndicesIndex st - 2) by lia;
     replace (st_colorIndicesIndex st + 2 - 4) with (st_colorIndicesIndex st - 2) by lia.
Qed.

(** A group of [k >= 2] vertices. *)
Lemma tri_group_any {real} (kind : TriKind) (mesh : Mesh real)
    (primitiveElement : MeshPrimitive) (edgeIndicesMap : EdgeIndicesMap)
    (st : TriState) (k : Z) :
  let p := st_positionIndex st in
  let cu := st_uvSetIndicesIndex st in
  let cc := st_colorIndicesIndex st in
  let len := Z.of_nat (length (getPositionIndices primitiveElement)) in
  st_initialPositionIndex st = p ->
  2 <= k -> 3 * (k - 2) < 2 ^ 32 ->
  0 <= p -> p + k <= len -> is_size_t len -> is_size_t cu -> is_size_t cc ->
  (forall i, (i < Z.to_nat (k - 2))%nat ->
     triangle_edges_present kind primitiveElement edgeIndicesMap p p i /\
     triangle_attributes_covered primitiveElement cu cc i) ->
  exists pf',
    tri_group kind mesh primitiveElement edgeIndicesMap st k =
    Done (mkTriState pf' 0 (p + k) (p + k)
            (cursor_after kind cu k) (cursor_after kind cc k)
            (st_meshNode st ++
             (group_triangle kind mesh primitiveElement edgeIndicesMap p p cu cc
              <$> seq 0 (Z.to_nat (k - 2))))).
Proof.
  intros p cu cc len Hinit Hk Hk32 Hp Hpk Hlen Hcu Hcc Hok.
  destruct (decide (k = 2)) as [->|Hk2].
  - exists polyFaces_new. rewrite tri_group_two, Hinit. fold p cu cc.
    cbn [Z.to_nat Z.sub Z.add Z.opp Z.pos_sub seq fmap list_fmap].
    rewrite app_nil_r, (to_size_t_id (p + 2)) by (unfold_ints; lia).
    by destruct kind.
  - apply tri_group_spec; try done; try lia.
    + intros i Hi. by apply Hok.
    + intros i Hi. by apply Hok.
Qed.

Lemma cursor_after_size_t (kind : TriKind) (cursor k : Z) :
  is_size_t (cursor_after kind cursor k).
Proof. unfold cursor_after. destruct kind; solve_ints. Qed.

(** The loop over the groups of a fan or strip primitive. *)
Lemma tri_groups_run {real} (kind : TriKind) (mesh : Mesh real)
    (primitiveElement : MeshPrimitive) (edgeIndicesMap : EdgeIndicesMap)
    (groups : list (list Z)) :
  forall (st : TriState),
    let p := st_positionIndex st in
    let len := Z.of_nat (length (getPositionIndices primitiveElement)) in
    st_initialPositionIndex st = p ->
    0 <= p -> p + Z.of_nat (length (mjoin groups)) <= len -> is_size_t len ->
    is_size_t (st_uvSetIndicesIndex st) -> is_size_t (st_colorIndicesIndex st) ->
    Forall (fun vs => (2 <= length vs)%nat /\ 3 * (Z.of_nat (length vs) - 2) < 2 ^ 32)
           groups ->
    tri_groups_decodable kind primitiveElement edgeIndicesMap p
      (st_uvSetIndicesIndex st) (st_colorIndicesIndex st) groups ->
    exists st',
      for_each (tri_group kind mesh primitiveElement edgeIndicesMap) st
        ((fun vs => Z.of_nat (length vs)) <$> groups) = Done st' /\
      st_meshNode st' =
      st_meshNode st ++
      tri_faces kind mesh primitiveElement edgeIndicesMap p
        (st_uvSetIndicesIndex st) (st_colorIndicesIndex st) groups.
Proof.
  induction groups as [|vs groups IH]; intros st p len Hinit Hp Hlen Hsz Hcu Hcc Hks Hok.
  - exists st. cbn. by rewrite app_nil_r.
  - apply Forall_cons in Hks as [[Hk Hk32] Hks]. destruct Hok as [Hvs Hok].
    rewrite join_cons, length_app in Hlen.
    destruct (tri_group_any kind mesh primitiveElement edgeIndicesMap st
                (Z.of_nat (length vs))) as (pf' & Hgroup); try done; try lia.
    { intros i Hi. apply Hvs. lia. }
    replace (Z.to_nat (Z.of_nat (length vs) - 2)) with (length vs - 2)%nat in Hgroup by lia.
    edestruct (IH (mkTriState pf' 0 (p + Z.of_nat (length vs)) (p + Z.of_nat (length vs))
                     (cursor_after kind (st_uvSetIndicesIndex st) (Z.of_nat (length vs)))
                     (cursor_after kind (st_colorIndicesIndex st) (Z.of_nat (length vs)))
                     (st_meshNode st ++
                      (group_triangle kind mesh primitiveElement edgeIndicesMap p p
                         (st_uvSetIndicesIndex st) (st_colorIndicesIndex st)
                       <$> seq 0 (length vs - 2)))))
      as (st' & Hrun & Hfaces); cbn [st_positionIndex st_initialPositionIndex
                                     st_uvSetIndicesIndex st_colorIndicesIndex];
      try done; try lia; try apply cursor_after_size_t.
    exists st'. cbn [fmap list_fmap for_each]. fold p. rewrite Hgroup.
    cbn [mbind Run_bind]. split; [exact Hrun|].
    rewrite Hfaces. cbn [st_meshNode tri_faces]. by rewrite <- app_assoc.
Qed.

Lemma fan_groups_decodable (primitiveElement : MeshPrimitive)
    (edgeIndicesMap : EdgeIndicesMap) (after : list Z) (groups : list (list Z)) :
  forall before : list Z,
    let c := Z.of_nat (length before) in
    let total := c + Z.of_nat (length (mjoin groups)) in
    getPositionIndices primitiveElement = before ++ mjoin groups ++ after ->
    is_size_t (Z.of_nat (length (getPositionIndices primitiveElement))) ->
    Forall (fan_edges_present edgeIndicesMap) groups ->
    Forall (stream_covers 0 total) (getUVCoordIndicesArray primitiveElement) ->
    Forall (stream_covers 0 total) (getColorIndicesArray primitiveElement) ->
    tri_groups_decodable Trifans primitiveElement edgeIndicesMap c c c groups.
Proof.
  induction groups as [|vs groups IH]; intros before c total Hpos Hsz Hedges Huv Hcol;
    [done|].
  apply Forall_cons in Hedges as [Hvs Hedges].
  assert (Hlen : total <= Z.of_nat (length (getPositionIndices primitiveElement)))
    by (rewrite Hpos, !length_app; unfold total, c; lia).
  assert (Htotal : total = c + Z.of_nat (length vs) + Z.of_nat (length (mjoin groups)))
    by (unfold total; rewrite join_cons, length_app; lia).
  rewrite join_cons, <- app_assoc in Hpos.
  cbn [tri_groups_decodable]. split.
  - intros i Hi. split.
    + destruct (lookup_lt_is_Some_2 vs 0) as [v0 Hv0]; [lia|].
      destruct (lookup_lt_is_Some_2 vs (S i)) as [vi Hvi]; [lia|].
      destruct (lookup_lt_is_Some_2 vs (S (S i))) as [vj Hvj]; [lia|].
      unfold triangle_edges_present.
      pose proof (position_at_group _ _ _ _ _ _ Hpos Hv0) as H0.
      pose proof (position_at_group _ _ _ _ _ _ Hpos Hvi) as Hi'.
      pose proof (position_at_group _ _ _ _ _ _ Hpos Hvj) as Hj'.
      rewrite Z.add_0_r in H0. fold c in H0, Hi', Hj'.
      replace (c + 1 + Z.of_nat i) with (c + Z.of_nat (S i)) by lia.
      replace (c + 2 + Z.of_nat i) with (c + Z.of_nat (S (S i))) by lia.
      rewrite H0, Hi', Hj'. apply (Hvs (S i)); done || lia.
    + unfold triangle_attributes_covered.
      rewrite to_size_t_id by (unfold_ints; unfold c; lia).
      split; (eapply Forall_impl; [eassumption|]); intros il Hil;
        apply (stream_covers_part il total); done || (unfold c; lia) || lia.
  - unfold cursor_after. rewrite to_size_t_id by (unfold_ints; unfold c; lia).
    replace (c + Z.of_nat (length vs)) with (Z.of_nat (length (before ++ vs)))
      by (rewrite length_app; unfold c; lia).
    apply IH; rewrite ?length_app, <- ?app_assoc; try done.
    + by replace (Z.of_nat (length before + length vs) + Z.of_nat (length (mjoin groups)))
        with total by (unfold c in *; lia).
    + by replace (Z.of_nat (length before + length vs) + Z.of_nat (length (mjoin groups)))
        with total by (unfold c in *; lia).
Qed.

Lemma fan_faces_offsets {real} (mesh : Mesh real) (primitiveElement : MeshPrimitive)
    (edgeIndicesMap : EdgeIndicesMap) (groups : list (list Z)) :
  forall c, 0 <= c -> c + Z.of_nat (length (mjoin groups)) < 2 ^ 64 ->
    tri_faces Trifans mesh primitiveElement edgeIndicesMap c c c groups =
    offset_faces Trifans mesh primitiveElement edgeIndicesMap c groups.
Proof.
  induction groups as [|vs groups IH]; intros c Hc Hlen; [done|].
  rewrite join_cons, length_app in Hlen.
  cbn [tri_faces offset_faces cursor_after].
  rewrite to_size_t_id by (unfold_ints; lia). by rewrite IH by lia.
Qed.

(** The fan decoder on a whole primitive. *)
Lemma appendTrifansPolyFaces_run {real} (mesh : Mesh real)
    (primitiveElement : MeshPrimitive) (edgeIndicesMap : EdgeIndicesMap)
    (meshNode : list polyFaces) (groups : list (list Z)) (after : list Z) :
  let total := Z.of_nat (length (mjoin groups)) in
  getPositionIndices primitiveElement = mjoin groups ++ after ->
  getGroupedVerticesVertexCountArray primitiveElement
  = (fun vs => Z.of_nat (length vs)) <$> groups ->
  is_size_t (Z.of_nat (length (getPositionIndices primitiveElement))) ->
  Forall (fun vs => (2 <= length vs)%nat /\ 3 * (Z.of_nat (length vs) - 2) < 2 ^ 32)
         groups ->
  Forall (fan_edges_present edgeIndicesMap) groups ->
  Forall (stream_covers 0 total) (getUVCoordIndicesArray primitiveElement) ->
  Forall (stream_covers 0 total) (getColorIndicesArray primitiveElement) ->
  appendTrifansPolyFaces mesh primitiveElement edgeIndicesMap meshNode =
  Done (meshNode ++ offset_faces Trifans mesh primitiveElement edgeIndicesMap 0 groups).
Proof.
  intros total Hpos Hcounts Hsz Hks Hedges Huv Hcol.
  assert (Hlen : total <= Z.of_nat (length (getPositionIndices primitiveElement)))
    by (rewrite Hpos, length_app; unfold total; lia).
  destruct (tri_groups_run Trifans mesh primitiveElement edgeIndicesMap groups
              (tri_start meshNode)) as (st' & Hrun & Hfaces);
    cbn [tri_start st_positionIndex st_initialPositionIndex st_uvSetIndicesIndex
         st_colorIndicesIndex]; try done; try (fold total; lia); try (unfold_ints; lia).
  { by apply (fan_groups_decodable primitiveElement edgeIndicesMap after groups []). }
  unfold appendTrifansPolyFaces. rewrite Hcounts.
  change (appendTrifansPolyFaces_group mesh primitiveElement edgeIndicesMap)
    with (tri_group Trifans mesh primitiveElement edgeIndicesMap).
  rewrite Hrun. cbn [mbind Run_bind]. rewrite Hfaces.
  cbn [tri_start st_meshNode st_positionIndex st_uvSetIndicesIndex st_colorIndicesIndex].
  rewrite fan_faces_offsets; [done|lia|]. fold total. unfold_ints. lia.
Qed.

(** X9: on a [TRIANGLE_FANS] primitive whose position stream is the
    concatenation of its fans (each of at least two vertices),
    [appendTrifansPolyFaces] appends, fan after fan, the [k - 2] triangles
    of each fan of [k] vertices: in the fan that starts at place [c] of the
    position stream, triangle [i] joins the vertices at the places [c],
    [c + 1 + i] and [c + 2 + i] and takes from every UV and colour channel
    the three entries from place [c + i] on.  A fan of two vertices gives
    no triangle.  The edges must be in the table and the channels must have
    an entry per vertex. *)
Theorem appendTrifansPolyFaces_faces {real} (mesh : Mesh real)
    (primitiveElement : MeshPrimitive) (edgeIndicesMap : EdgeIndicesMap)
    (meshNode : list polyFaces) (groups : list (list Z)) (after : list Z) :
  let total := Z.of_nat (length (mjoin groups)) in
  getPositionIndices primitiveElement = mjoin groups ++ after ->
  getGroupedVerticesVertexCountArray primitiveElement
  = (fun vs => Z.of_nat (length vs)) <$> groups ->
  is_size_t (Z.of_nat (length (getPositionIndices primitiveElement))) ->
  Forall (fun vs => (2 <= length vs)%nat /\ 3 * (Z.of_nat (length vs) - 2) < 2 ^ 32)
         groups ->
  Forall (fan_edges_present edgeIndicesMap) groups ->
  Forall (stream_covers 0 total) (getUVCoordIndicesArray primitiveElement) ->
  Forall (stream_covers 0 total) (getColorIndicesArray primitiveElement) ->
  appendTrifansPolyFaces mesh primitiveElement edgeIndicesMap meshNode =
  Done (meshNode ++ offset_faces Trifans mesh primitiveElement edgeIndicesMap 0 groups).
Proof. apply appendTrifansPolyFaces_run. Qed.

Lemma appendTrifansPolyFaces_faces_witness :
  appendTrifansPolyFaces (sample_mesh 1 [two_fans_uv] 3) two_fans_uv
    (edges_of two_fans_uv) [] =
  Done ([] ++ offset_faces Trifans (sample_mesh 1 [two_fans_uv] 3) two_fans_uv
                (edges_of two_fans_uv) 0 [[0; 1; 2]; [3; 4; 5; 6]]) /\
  (fun face => (f_edgeIdValue face, uvIdValue <$> mu face))
    <$> offset_faces Trifans (sample_mesh 1 [two_fans_uv] 3) two_fans_uv
          (edges_of two_fans_uv) 0 [[0; 1; 2]; [3; 4; 5; 6]] =
  [([0; 1; -3], [[0; 1; 2]]); ([3; 4; -6], [[3; 4; 5]]); ([5; 6; -8], [[4; 5; 6]])].
Proof.
  split; [|by vm_compute].
  apply (appendTrifansPolyFaces_faces (sample_mesh 1 [two_fans_uv] 3) two_fans_uv
           (edges_of two_fans_uv) [] [[0; 1; 2]; [3; 4; 5; 6]] []).
  - reflexivity.
  - reflexivity.
  - by vm_compute.
  - repeat constructor; cbn; lia.
  - apply Forall_cons. split; [|apply Forall_cons; split; [|constructor]].
    + intros i v0 vi vj Hi H0 Hvi Hvj. cbn in Hi.
      assert (i = 1%nat) as -> by lia.
      injection H0 as <-. injection Hvi as <-. injection Hvj as <-.
      repeat split; eexists; vm_compute; reflexivity.
    + intros i v0 vi vj Hi H0 Hvi Hvj. cbn in Hi.
      assert (i = 1 \/ i = 2)%nat as [-> | ->] by lia;
        injection H0 as <-; injection Hvi as <-; injection Hvj as <-;
        repeat split; eexists; vm_compute; reflexivity.
  - repeat constructor. intros j Hj. change (0 <= j < 7) in Hj.
    assert (Hcases : j = 0 \/ j = 1 \/ j = 2 \/ j = 3 \/ j = 4 \/ j = 5 \/ j = 6) by lia.
    destruct Hcases as [->|[->|[->|[->|[->|[->| ->]]]]]]; by vm_compute.
  - constructor.
Defined.

Lemma strip_groups_decodable (primitiveElement : MeshPrimitive)
    (edgeIndicesMap : EdgeIndicesMap) (after : list Z) (groups : list (list Z)) :
  getUVCoordIndicesArray primitiveElement = [] ->
  getColorIndicesArray primitiveElement = [] ->
  Forall (strip_edges_present edgeIndicesMap) groups ->
  forall (before : list Z) (cu cc : Z),
    getPositionIndices primitiveElement = before ++ mjoin groups ++ after ->
    tri_groups_decodable Tristrips primitiveElement edgeIndicesMap
      (Z.of_nat (length before)) cu cc groups.
Proof.
  intros Huv Hcol Hedges.
  induction Hedges as [|vs groups Hvs _ IH]; intros before cu cc Hpos; [done|].
  rewrite join_cons, <- app_assoc in Hpos.
  cbn [tri_groups_decodable]. split.
  - intros i Hi. split.
    + destruct (lookup_lt_is_Some_2 vs i) as [a Ha]; [lia|].
      destruct (lookup_lt_is_Some_2 vs (S i)) as [b Hb]; [lia|].
      destruct (lookup_lt_is_Some_2 vs (S (S i))) as [c Hc]; [lia|].
      unfold triangle_edges_present.
      pose proof (position_at_group _ _ _ _ _ _ Hpos Ha) as Ha'.
      pose proof (position_at_group _ _ _ _ _ _ Hpos Hb) as Hb'.
      pose proof (position_at_group _ _ _ _ _ _ Hpos Hc) as Hc'.
      replace (Z.of_nat (length before) + 1 + Z.of_nat i)
        with (Z.of_nat (length before) + Z.of_nat (S i)) by lia.
      replace (Z.of_nat (length before) + 2 + Z.of_nat i)
        with (Z.of_nat (length before) + Z.of_nat (S (S i))) by lia.
      rewrite Ha', Hb', Hc'. by apply (Hvs i).
    + unfold triangle_attributes_covered. rewrite Huv, Hcol. split; constructor.
  - replace (Z.of_nat (length before) + Z.of_nat (length vs))
      with (Z.of_nat (length (before ++ vs))) by (rewrite length_app; lia).
    apply IH. by rewrite <- app_assoc.
Qed.

Lemma strip_faces_offsets {real} (mesh : Mesh real) (primitiveElement : MeshPrimitive)
    (edgeIndicesMap : EdgeIndicesMap) (groups : list (list Z)) :
  getUVCoordIndicesArray primitiveElement = [] ->
  getColorIndicesArray primitiveElement = [] ->
  forall c cu cc,
    tri_faces Tristrips mesh primitiveElement edgeIndicesMap c cu cc groups =
    offset_faces Tristrips mesh primitiveElement edgeIndicesMap c groups.
Proof.
  intros Huv Hcol. induction groups as [|vs groups IH]; intros c cu cc; [done|].
  cbn [tri_faces offset_faces]. rewrite IH. f_equal.
  apply list_fmap_ext. intros _ i _.
  unfold group_triangle, triangle_face, uv_slices, color_slices.
  by rewrite Huv, Hcol.
Qed.

(** X10: on a [TRIANGLE_STRIPS] primitive without UV and colour channels
    whose position stream is the concatenation of its strips (each of at
    least two vertices), [appendTristripsPolyFaces] appends, strip after
    strip, the [k - 2] triangles of each strip of [k] vertices: in the
    strip that starts at place [c], triangle [i] is the window of the
    vertices at the places [c + i], [c + 1 + i], [c + 2 + i], with the
    edges taken in this order whatever the parity of [i].  The edges must
    be in the table. *)
Theorem appendTristripsPolyFaces_faces {real} (mesh : Mesh real)
    (primitiveElement : MeshPrimitive) (edgeIndicesMap : EdgeIndicesMap)
    (meshNode : list polyFaces) (groups : list (list Z)) (after : list Z) :
  getPositionIndices primitiveElement = mjoin groups ++ after ->
  getGroupedVerticesVertexCountArray primitiveElement
  = (fun vs => Z.of_nat (length vs)) <$> groups ->
  is_size_t (Z.of_nat (length (getPositionIndices primitiveElement))) ->
  getUVCoordIndicesArray primitiveElement = [] ->
  getColorIndicesArray primitiveElement = [] ->
  Forall (fun vs => (2 <= length vs)%nat /\ 3 * (Z.of_nat (length vs) - 2) < 2 ^ 32)
         groups ->
  Forall (strip_edges_present edgeIndicesMap) groups ->
  appendTristripsPolyFaces mesh primitiveElement edgeIndicesMap meshNode =
  Done (meshNode ++ offset_faces Tristrips mesh primitiveElement edgeIndicesMap 0 groups).
Proof.
  intros Hpos Hcounts Hsz Huv Hcol Hks Hedges.
  assert (Hlen : Z.of_nat (length (mjoin groups))
                 <= Z.of_nat (length (getPositionIndices primitiveElement)))
    by (rewrite Hpos, length_app; lia).
  destruct (tri_groups_run Tristrips mesh primitiveElement edgeIndicesMap groups
              (tri_start meshNode)) as (st' & Hrun & Hfaces);
    cbn [tri_start st_positionIndex st_initialPositionIndex st_uvSetIndicesIndex
         st_colorIndicesIndex]; try done; try lia; try (unfold_ints; lia).
  { by apply (strip_groups_decodable primitiveElement edgeIndicesMap after groups
                Huv Hcol Hedges []). }
  unfold appendTristripsPolyFaces. rewrite Hcounts.
  change (appendTristripsPolyFaces_group mesh primitiveElement edgeIndicesMap)
    with (tri_group Tristrips mesh primitiveElement edgeIndicesMap).
  rewrite Hrun. cbn [mbind Run_bind]. rewrite Hfaces.
  cbn [tri_start st_meshNode st_positionIndex st_uvSetIndicesIndex st_colorIndicesIndex].
  by rewrite strip_faces_offsets.
Qed.

Lemma appendTristripsPolyFaces_faces_witness :
  appendTristripsPolyFaces (sample_mesh 1 [two_strips] 2) two_strips
    (edges_of two_strips) [] =
  Done ([] ++ offset_faces Tristrips (sample_mesh 1 [two_strips] 2) two_strips
                (edges_of two_strips) 0 [[0; 1; 2]; [3; 4; 5]]) /\
  f_edgeIdValue
    <$> offset_faces Tristrips (sample_mesh 1 [two_strips] 2) two_strips
          (edges_of two_strips) 0 [[0; 1; 2]; [3; 4; 5]] =
  [[0; 1; -3]; [3; 4; -6]].
Proof.
  split; [|by vm_compute].
  apply (appendTristripsPolyFaces_faces (sample_mesh 1 [two_strips] 2) two_strips
           (edges_of two_strips) [] [[0; 1; 2]; [3; 4; 5]] []).
  - reflexivity.
  - reflexivity.
  - by vm_compute.
  - reflexivity.
  - reflexivity.
  - repeat constructor; cbn; lia.
  - apply Forall_cons. split; [|apply Forall_cons; split; [|constructor]];
      intros i a b c Ha Hb Hc;
      (destruct i as [|i]; [|destruct i; discriminate]);
      injection Ha as <-; injection Hb as <-; injection Hc as <-;
      repeat split; eexists; vm_compute; reflexivity.
Defined.

(** ** The attribute cursors at the end of a group *)

(** X11: a fan or strip group of [k >= 2] vertices, entered with both
    position cursors at [p] and the attribute cursors at [cu] and [cc],
    leaves both position cursors at [p + k].  A fan leaves the attribute
    cursors at [cu + k] and [cc + k], the entry of the next group's first
    vertex; a strip leaves them at [cu + k - 4] and [cc + k - 4] (modulo
    [2^64]), four entries before it. *)
Theorem group_decoder_cursors {real} (kind : TriKind) (mesh : Mesh real)
    (primitiveElement : MeshPrimitive) (edgeIndicesMap : EdgeIndicesMap)
    (st : TriState) (k : Z) :
  let p := st_positionIndex st in
  let cu := st_uvSetIndicesIndex st in
  let cc := st_colorIndicesIndex st in
  let len := Z.of_nat (length (getPositionIndices primitiveElement)) in
  st_initialPositionIndex st = p ->
  2 <= k -> 3 * (k - 2) < 2 ^ 32 ->
  0 <= p -> p + k <= len -> is_size_t len -> is_size_t cu -> is_size_t cc ->
  (forall i, (i < Z.to_nat (k - 2))%nat ->
     triangle_edges_present kind primitiveElement edgeIndicesMap p p i /\
     triangle_attributes_covered primitiveElement cu cc i) ->
  exists st',
    group_decoder kind mesh primitiveElement edgeIndicesMap st k = Done st' /\
    st_positionIndex st' = p + k /\
    st_initialPositionIndex st' = p + k /\
    st_uvSetIndicesIndex st' =
      match kind with
      | Trifans => to_size_t (cu + k)
      | Tristrips => to_size_t (cu + k - 4)
      end /\
    st_colorIndicesIndex st' =
      match kind with
      | Trifans => to_size_t (cc + k)
      | Tristrips => to_size_t (cc + k - 4)
      end.
Proof.
  intros p cu cc len Hinit Hk Hk32 Hp Hpk Hlen Hcu Hcc Hok.
  destruct (tri_group_any kind mesh primitiveElement edgeIndicesMap st k)
    as (pf' & Hrun); try done.
  eexists. rewrite group_decoder_common. split; [exact Hrun|].
  cbn. by destruct kind.
Qed.

Lemma group_decoder_cursors_witness :
  exists st',
    group_decoder Tristrips (sample_mesh 1 [two_strips_uv] 2) two_strips_uv
      (edges_of two_strips_uv) (tri_start []) 3 = Done st' /\
    st_positionIndex st' = 3 /\
    st_uvSetIndicesIndex st' = 18446744073709551615.
Proof.
  destruct (group_decoder_cursors Tristrips (sample_mesh 1 [two_strips_uv] 2)
              two_strips_uv (edges_of two_strips_uv) (tri_start []) 3)
    as (st' & Hrun & Hp & _ & Hcu & _).
  - reflexivity.
  - lia.
  - reflexivity.
  - cbn. lia.
  - cbn. lia.
  - cbn. unfold_ints. lia.
  - cbn. unfold_ints. lia.
  - cbn. unfold_ints. lia.
  - intros i Hi. change (Z.to_nat (3 - 2)) with 1%nat in Hi.
    assert (i = 0%nat) as -> by lia. split.
    + repeat split; eexists; vm_compute; reflexivity.
    + split; [|constructor]. apply Forall_singleton. intros j Hj.
      assert (Hcases : j = 0 \/ j = 1 \/ j = 2) by lia.
      destruct Hcases as [->|[->| ->]]; by vm_compute.
  - exists st'. split; [exact Hrun|]. split; [exact Hp|]. rewrite Hcu. reflexivity.
Defined.

(** ** Groups of fewer than two vertices *)

(** In a loop that runs to its end, every round starts in a state that
    satisfies an invariant of the loop body. *)
Lemma for_loop_Done_at {St} (I : Z -> St -> Prop) (body : Z -> St -> Run St) (n : nat) :
  forall (j : Z) (s s' : St),
    for_loop n j body s = Done s' -> I j s ->
    (forall i t t', j <= i < j + Z.of_nat n -> I i t -> body i t = Done t' -> I (i + 1) t') ->
    forall i : nat, (i < n)%nat ->
      exists t t', I (j + Z.of_nat i) t /\ body (j + Z.of_nat i) t = Done t'.
Proof.
  induction n as [|n IH]; intros j s s' Hrun Hj Hbody i Hi; [lia|].
  cbn [for_loop] in Hrun. apply bind_Done in Hrun as (s1 & Hs1 & Hrun).
  destruct i as [|i].
  - exists s, s1. by replace (j + Z.of_nat 0) with j by lia.
  - destruct (IH (j + 1) s1 s' Hrun) with (i := i) as (t & t' & Ht & Hstep); [| |lia|].
    + apply (Hbody j s s1); [lia|done|done].
    + intros k u u' Hk. apply Hbody. lia.
    + exists t, t'. by replace (j + Z.of_nat (S i)) with (j + 1 + Z.of_nat i) by lia.
Qed.

(** What an edge step that succeeds does to the edge counter and to the
    position cursor: the first two edges of a triangle move the cursor one
    place forward and read the vertex there, the third moves it one place
    back. *)
Lemma tri_edge_Done_position {real} (kind : TriKind) (mesh : Mesh real)
    (primitiveElement : MeshPrimitive) (edgeIndicesMap : EdgeIndicesMap)
    (st st' : TriState) :
  tri_edge kind mesh primitiveElement edgeIndicesMap st = Done st' ->
  let c := to_size_t (st_triangleEdgeCounter st + 1) in
  (c < 3 ->
   st_triangleEdgeCounter st' = c /\
   st_positionIndex st' = to_size_t (st_positionIndex st + 1) /\
   to_size_t (st_positionIndex st + 1)
   < Z.of_nat (length (getPositionIndices primitiveElement))) /\
  (c = 3 ->
   st_triangleEdgeCounter st' = 0 /\
   st_positionIndex st' = to_size_t (st_positionIndex st - 1)).
Proof.
  intros Hrun c. unfold tri_edge in Hrun. fold c in Hrun.
  apply bind_Done in Hrun as (a & _ & Hrun).
  apply bind_Done in Hrun as ([b q] & Hend & Hrun).
  apply bind_Done in Hrun as (r & _ & Hrun).
  split; intros Hc.
  - rewrite decide_True in Hend by done. rewrite decide_False in Hrun by lia.
    apply bind_Done in Hend as (v & Hv & Hend). injection Hend as <- <-.
    injection Hrun as <-. cbn. split; [done|]. split; [done|].
    apply read_inv in Hv as [Hpos Hv]. apply lookup_lt_Some in Hv. lia.
  - rewrite decide_False in Hend by lia. rewrite decide_True in Hrun by done.
    apply bind_Done in Hend as (v & _ & Hend). injection Hend as <- <-.
    apply bind_Done in Hrun as ([pf1 cu'] & _ & Hrun).
    apply bind_Done in Hrun as ([pf2 cc'] & _ & Hrun).
    injection Hrun as <-. done.
Qed.

(** X13: a fan or strip group whose vertex count is 0 or 1 cannot be
    decoded: the edge count [(vertexCount - 3) * 3 + 3] is computed in
    [unsigned int] and wraps to [2^32 - 6] or [2^32 - 3], so the edge loop
    walks triangle after triangle through the position stream until it
    reads behind its end (or misses an edge before).  With a position
    stream of fewer than [2^30] entries the group step fails, whatever the
    edge table holds. *)
Theorem degenerate_group_fails {real} (kind : TriKind) (mesh : Mesh real)
    (primitiveElement : MeshPrimitive) (edgeIndicesMap : EdgeIndicesMap)
    (st : TriState) (vertexCount : Z) :
  vertexCount = 0 \/ vertexCount = 1 ->
  Z.of_nat (length (getPositionIndices primitiveElement)) < 2 ^ 30 ->
  0 <= st_positionIndex st < 2 ^ 63 ->
  exists e,
    group_decoder kind mesh primitiveElement edgeIndicesMap st vertexCount = Abort e.
Proof.
  intros Hcount Hlen Hq. rewrite group_decoder_common.
  destruct (tri_group kind mesh primitiveElement edgeIndicesMap st vertexCount)
    as [st'|e] eqn:Hrun; [exfalso|by exists e].
  unfold tri_group in Hrun. apply bind_Done in Hrun as (s1 & Hloop & _).
  set (q := st_positionIndex st) in *.
  set (len := length (getPositionIndices primitiveElement)) in *.
  assert (Hn : (3 * len < Z.to_nat (to_uint ((vertexCount - 3) * 3 + 3)))%nat).
  { destruct Hcount as [-> | ->].
    - change (to_uint ((0 - 3) * 3 + 3)) with 4294967290. change (2 ^ 30) with 1073741824 in Hlen. lia.
    - change (to_uint ((1 - 3) * 3 + 3)) with 4294967293. change (2 ^ 30) with 1073741824 in Hlen. lia. }
  assert (Hn32 : Z.of_nat (Z.to_nat (to_uint ((vertexCount - 3) * 3 + 3))) < 2 ^ 32).
  { destruct Hcount as [-> | ->].
    - change (to_uint ((0 - 3) * 3 + 3)) with 4294967290. change (2 ^ 32) with 4294967296. lia.
    - change (to_uint ((1 - 3) * 3 + 3)) with 4294967293. change (2 ^ 32) with 4294967296. lia. }
  destruct (for_loop_Done_at
              (fun i t => 0 <= i /\ st_triangleEdgeCounter t = i mod 3 /\
                          st_positionIndex t = q + i / 3 + i mod 3)
              _ _ _ _ _ Hloop) with (i := (3 * len)%nat)
    as (t & t' & (_ & Hcounter & Hpos) & Hstep).
  - cbn. split; [lia|]. split; [done|]. change (0 / 3) with 0. change (0 mod 3) with 0. lia.
  - intros i t t' Hi (Hi0 & Hcounter & Hpos) Hstep.
    apply tri_edge_Done_position in Hstep as [Hlt Heq].
    rewrite Hcounter, Hpos in Hlt, Heq.
    assert (Hmod : 0 <= i mod 3 < 3) by (apply Z.mod_pos_bound; lia).
    assert (Hc : to_size_t (i mod 3 + 1) = i mod 3 + 1) by (apply to_size_t_id; unfold_ints; lia).
    rewrite Hc in Hlt, Heq. split; [lia|].
    change (2 ^ 63) with 9223372036854775808 in Hq.
    change (2 ^ 32) with 4294967296 in Hn32.
    destruct (decide (i mod 3 + 1 < 3)) as [Hr|Hr].
    + destruct (Hlt Hr) as (-> & -> & _).
      rewrite to_size_t_id by (unfold_ints; Z.div_mod_to_equations; lia).
      Z.div_mod_to_equations. lia.
    + destruct Heq as (-> & ->); [lia|].
      rewrite to_size_t_id by (unfold_ints; Z.div_mod_to_equations; lia).
      Z.div_mod_to_equations. lia.
  - lia.
  - apply tri_edge_Done_position in Hstep as [Hlt _].
    rewrite Hcounter, Hpos in Hlt.
    replace (0 + Z.of_nat (3 * len)) with (3 * Z.of_nat len) in Hlt by lia.
    replace (3 * Z.of_nat len mod 3) with 0 in Hlt
      by (symmetry; rewrite Z.mul_comm; apply Z.mod_mul; lia).
    replace (3 * Z.of_nat len / 3) with (Z.of_nat len) in Hlt
      by (symmetry; rewrite Z.mul_comm; apply Z.div_mul; lia).
    change (to_size_t (0 + 1)) with 1 in Hlt.
    destruct Hlt as (_ & _ & Hread); [lia|].
    change (2 ^ 63) with 9223372036854775808 in Hq.
    change (2 ^ 30) with 1073741824 in Hlen.
    rewrite to_size_t_id in Hread by (unfold_ints; lia). fold len in Hread. lia.
Qed.

Lemma degenerate_group_fails_witness :
  exists e,
    group_decoder Trifans (sample_mesh 1 [fan5] 3) fan5 fan_map (tri_start []) 1 = Abort e.
Proof.
  apply (degenerate_group_fails Trifans (sample_mesh 1 [fan5] 3) fan5 fan_map
           (tri_start []) 1).
  - by right.
  - by vm_compute.
  - by vm_compute.
Defined.

(** ** The object groups of a mesh without empty primitives *)

(** X14: for a mesh with [m > 1] primitives, none of them empty, and [n]
    instances, [writeObjectGroups] writes [n * m] component lists: entry
    [j * m + t] is for instance [j] and primitive [t], and its face range
    starts at the number of faces of the primitives before [t] and ends
    just before the range of primitive [t + 1] starts, so that the ranges
    of an instance are adjacent, do not overlap and have the lengths of the
    primitives' counts. *)
Theorem writeObjectGroups_ranges {real} (mesh : Mesh real) (numNodeInstances : Z) :
  (1 < length (getMeshPrimitives mesh))%nat ->
  Forall (fun p => 1 <= getGroupedVertexElementsCount p) (getMeshPrimitives mesh) ->
  elements_count (getMeshPrimitives mesh) < 2 ^ 64 ->
  length (writeObjectGroups mesh numNodeInstances)
  = (Z.to_nat numNodeInstances * length (getMeshPrimitives mesh))%nat /\
  forall (j t : nat) p,
    Z.of_nat j < numNodeInstances ->
    getMeshPrimitives mesh !! t = Some p ->
    exists r,
      writeObjectGroups mesh numNodeInstances
        !! (j * length (getMeshPrimitives mesh) + t)%nat = Some r /\
      og_instance r = Z.of_nat j /\ og_group r = Z.of_nat t /\
      og_first r = elements_count (take t (getMeshPrimitives mesh)) /\
      og_last r + 1 = elements_count (take (S t) (getMeshPrimitives mesh)).
Proof.
  intros Hm Hpos Hsum. split.
  - unfold writeObjectGroups. rewrite decide_False by lia.
    generalize (seqZ 0 numNodeInstances) (length_seqZ 0 numNodeInstances).
    intros l <-. induction l as [|j l IH]; [done|].
    rewrite fmap_cons, join_cons, length_app, objectGroups_from_length, IH.
    cbn [length]. lia.
  - intros j t p Hj Hp.
    destruct (writeObjectGroups_partition mesh numNodeInstances Hm Hpos Hsum j t p Hj Hp)
      as (r & Hr & Hinst & Hgroup & Hfirst & Hlen).
    exists r. split; [done|]. split; [done|]. split; [done|]. split; [done|].
    unfold range_length in Hlen. unfold elements_count.
    rewrite (take_S_r _ _ p) by done. rewrite foldr_app. cbn [foldr].
    fold (elements_count (take t (getMeshPrimitives mesh))) in Hfirst.
    assert (Hshift : forall (l : list MeshPrimitive) a,
               foldr (fun p acc => getGroupedVertexElementsCount p + acc) a l
               = elements_count l + a).
    { intros l a. unfold elements_count. induction l as [|q l IH]; cbn; lia. }
    rewrite Hshift. lia.
Qed.

Lemma writeObjectGroups_ranges_witness :
  writeObjectGroups five_faces 2 =
  [ mkObjectGrpCompList 0 0 0 1; mkObjectGrpCompList 0 1 2 4;
    mkObjectGrpCompList 1 0 0 1; mkObjectGrpCompList 1 1 2 4 ] /\
  length (writeObjectGroups five_faces 2)
  = (Z.to_nat 2 * length (getMeshPrimitives five_faces))%nat.
Proof.
  split; [by vm_compute|].
  apply (writeObjectGroups_ranges five_faces 2).
  - cbn. lia.
  - repeat constructor; by vm_compute.
  - by vm_compute.
Defined.

(** ** The edge references of the written faces, read back *)

Lemma reference_index_refers (edgeIndicesMap : EdgeIndicesMap) (numEdges r : Z) :
  (forall key i, edgeIndicesMap !! key = Some i -> 0 <= i < numEdges) ->
  numEdges <= 2 ^ 31 ->
  refers_to edgeIndicesMap r ->
  exists key, edgeIndicesMap !! key = Some (reference_index r).
Proof.
  intros Hrange Hn (key & i & Hi & Hr). exists key. rewrite Hi. f_equal.
  pose proof (Hrange key i Hi) as Hbound.
  assert (Hint : is_int i) by (unfold_ints; lia).
  rewrite (to_int_id i Hint) in Hr. rewrite (toggle_spec i Hint) in Hr.
  unfold reference_index. destruct Hr as [-> | ->].
  - rewrite decide_False by lia. done.
  - rewrite decide_True by lia. lia.
Qed.

(** X15: when the edge table numbers its edges below [numEdges <= 2^31],
    every edge reference that [writeFaces] writes, in a face or in a hole
    and flipped or not, reads back as the index of an edge of the table:
    with [r >= 0] denoting edge [r] and [r < 0] denoting edge [-(r+1)]
    taken backwards, the index lies in [0, numEdges) and some vertex pair
    is stored under it. *)
Theorem writeFaces_references_in_table `{Scalar real} (mesh : Mesh real)
    (edgeIndicesMap : EdgeIndicesMap) (numEdges : Z) (faces : list polyFaces) :
  (forall key i, edgeIndicesMap !! key = Some i -> 0 <= i < numEdges) ->
  numEdges <= 2 ^ 31 ->
  writeFaces mesh edgeIndicesMap = Done faces ->
  forall face r,
    face ∈ faces -> r ∈ f_edgeIdValue face ++ h_edgeIdValue face ->
    0 <= reference_index r < numEdges /\
    exists key, edgeIndicesMap !! key = Some (reference_index r).
Proof.
  intros Hrange Hn Hrun face r Hface Hr.
  apply writeFaces_resolved in Hrun.
  destruct (proj1 (Forall_forall _ _) Hrun face Hface) as [Hf Hh].
  assert (Href : refers_to edgeIndicesMap r).
  { apply elem_of_app in Hr as [Hr|Hr].
    - by apply (proj1 (Forall_forall _ _) Hf).
    - by apply (proj1 (Forall_forall _ _) Hh). }
  destruct (reference_index_refers edgeIndicesMap numEdges r Hrange Hn Href) as [key Hkey].
  split; [by apply (Hrange key)|by exists key].
Qed.

Lemma writeFaces_references_in_table_witness :
  exists faces,
    writeFaces quad_with_hole_mesh quad_with_hole_map = Done faces /\
    forall face r,
      face ∈ faces -> r ∈ f_edgeIdValue face ++ h_edgeIdValue face ->
      0 <= reference_index r < 7 /\
      exists key, quad_with_hole_map !! key = Some (reference_index r).
Proof.
  destruct (writeFaces quad_with_hole_mesh quad_with_hole_map) as [faces|e] eqn:Hrun;
    [|by vm_compute in Hrun].
  exists faces. split; [done|].
  apply (writeFaces_references_in_table quad_with_hole_mesh quad_with_hole_map 7 faces);
    [|by vm_compute|exact Hrun].
  intros key i Hi.
  assert (Hall : map_Forall (fun _ i => 0 <= i < 7) quad_with_hole_map).
  { apply map_Forall_to_list. set (l := map_to_list quad_with_hole_map).
    vm_compute in l. subst l. repeat (apply Forall_cons; split; [cbn; lia|]).
    constructor. }
  exact (Hall key i Hi).
Defined.

(** ** The faces of a fan primitive and its vertex groups *)






(** ** The value streams *)

(** A strided loop over [n] whole elements whose rounds succeed: round
    [k] runs at [i = stride * k]. *)
Lemma for_stride_run {St} (g : nat -> St -> St) (body : Z -> St -> Run St)
    (stride count : Z) (n : nat) :
  1 <= stride -> stride * Z.of_nat n < 2 ^ 64 ->
  stride * (Z.of_nat n - 1) < count <= stride * Z.of_nat n ->
  (forall (k : nat) s, (k < n)%nat -> body (stride * Z.of_nat k) s = Done (g k s)) ->
  forall (m k : nat) (fuel : nat) (s : St),
    (k + m = n)%nat -> (m <= fuel)%nat ->
    for_stride fuel (stride * Z.of_nat k) count stride body s =
    Done (foldl (fun s k => g k s) s (seq k m)).
Proof.
  intros Hstride Hwrap Hcount Hbody.
  induction m as [|m IH]; intros k fuel s Hk Hfuel.
  - destruct fuel as [|fuel]; [done|]. cbn [for_stride seq foldl].
    rewrite decide_False; [done|]. nia.
  - destruct fuel as [|fuel]; [lia|]. cbn [for_stride seq foldl].
    rewrite decide_True by nia. rewrite Hbody by lia. cbn [mbind Run_bind].
    replace (to_size_t (stride * Z.of_nat k + stride)) with (stride * Z.of_nat (S k)).
    2:{ rewrite to_size_t_id; [lia|]. unfold_ints. nia. }
    apply IH; lia.
Qed.

Lemma for_stride_all {St} (g : nat -> St -> St) (body : Z -> St -> Run St)
    (stride count : Z) (n fuel : nat) (s : St) :
  1 <= stride -> stride * Z.of_nat n < 2 ^ 64 ->
  stride * (Z.of_nat n - 1) < count <= stride * Z.of_nat n ->
  (forall (k : nat) s, (k < n)%nat -> body (stride * Z.of_nat k) s = Done (g k s)) ->
  (n <= fuel)%nat ->
  for_stride fuel 0 count stride body s = Done (foldl (fun s k => g k s) s (seq 0 n)).
Proof.
  intros Hstride Hwrap Hcount Hbody Hfuel.
  replace 0 with (stride * Z.of_nat 0) by lia.
  by apply (for_stride_run g body stride count n).
Qed.

Lemma foldl_append {B} (f : nat -> list B) (l : list nat) (s : list B) :
  foldl (fun s k => s ++ f k) s l = s ++ mjoin (f <$> l).
Proof.
  revert s. induction l as [|k l IH]; intros s; cbn.
  - by rewrite app_nil_r.
  - by rewrite IH, app_assoc.
Qed.

Lemma vertex_values_lookup {real} (pts : list (real * real * real)) (k : nat)
    (x y z : real) :
  pts !! k = Some (x, y, z) ->
  mjoin (vertex_values <$> pts) !! (3 * k)%nat = Some x /\
  mjoin (vertex_values <$> pts) !! (3 * k + 1)%nat = Some y /\
  mjoin (vertex_values <$> pts) !! (3 * k + 2)%nat = Some z.
Proof.
  revert k. induction pts as [|[[a b] c] pts IH]; intros k Hk; [done|].
  destruct k as [|k].
  - injection Hk as -> -> ->. done.
  - cbn in Hk. destruct (IH k Hk) as (Hx & Hy & Hz).
    replace (3 * S k)%nat with (S (S (S (3 * k)))) by lia. cbn. done.
Qed.

Lemma vertex_values_length {real} (pts : list (real * real * real)) :
  length (mjoin (vertex_values <$> pts)) = (3 * length pts)%nat.
Proof.
  induction pts as [|[[a b] c] pts IH]; [done|].
  rewrite fmap_cons, join_cons, length_app, IH. cbn. lia.
Qed.

Lemma round_commands_all {A B} (commands : A -> list B) (elements : list A) :
  round_commands commands elements <$> seq 0 (length elements) = commands <$> elements.
Proof.
  apply list_eq. intros k. rewrite !list_lookup_fmap. unfold round_commands.
  destruct (elements !! k) as [element|] eqn:Hk.
  - rewrite lookup_seq_lt by (by eapply lookup_lt_Some). cbn. by rewrite Hk.
  - rewrite lookup_seq_ge by (by apply lookup_ge_None). done.
Qed.

(** Round [k] of the loop of [writeVertexPositions] on a vertex that is
    complete. *)
Lemma vertex_round `{Units real} (pts : list (real * real * real))
    (k : nat) (s : list (MeshCommand real)) :
  3 * Z.of_nat (length pts) + 2 < 2 ^ 64 ->
  (k < length pts)%nat ->
  (x ← read (mjoin (vertex_values <$> pts)) (3 * Z.of_nat k);
   y ← read (mjoin (vertex_values <$> pts)) (to_size_t (3 * Z.of_nat k + 1));
   z ← read (mjoin (vertex_values <$> pts)) (to_size_t (3 * Z.of_nat k + 2));
   let converted := toLinearUnit x y z in
   Done (s ++ [appendVrts (to_float (vx converted));
               appendVrts (to_float (vy converted));
               appendVrts (to_float (vz converted))])) =
  Done (s ++ round_commands vertex_commands pts k).
Proof.
  intros Hwrap Hk. destruct (lookup_lt_is_Some_2 pts k Hk) as [[[x y] z] Hxyz].
  destruct (vertex_values_lookup pts k x y z Hxyz) as (Hx & Hy & Hz).
  rewrite !to_size_t_id by (unfold_ints; lia).
  rewrite (read_Done _ (3 * Z.of_nat k) x);
    [|lia|by replace (Z.to_nat (3 * Z.of_nat k)) with (3 * k)%nat by lia].
  cbn [mbind Run_bind].
  rewrite (read_Done _ (3 * Z.of_nat k + 1) y);
    [|lia|by replace (Z.to_nat (3 * Z.of_nat k + 1)) with (3 * k + 1)%nat by lia].
  cbn [mbind Run_bind].
  rewrite (read_Done _ (3 * Z.of_nat k + 2) z);
    [|lia|by replace (Z.to_nat (3 * Z.of_nat k + 2)) with (3 * k + 2)%nat by lia].
  cbn [mbind Run_bind]. unfold round_commands. by rewrite Hxyz.
Qed.

Lemma writeVertexPositions_run `{Units real} (mesh : Mesh real)
    (meshNode : list (MeshCommand real)) (pts : list (real * real * real)) :
  getPositionsType mesh <> DATA_TYPE_UNKNOWN ->
  getPositionValues mesh = mjoin (vertex_values <$> pts) ->
  3 * Z.of_nat (length pts) + 2 < 2 ^ 64 ->
  writeVertexPositions mesh meshNode = Done (meshNode ++ positions_stream pts).
Proof.
  intros Htype Hvalues Hwrap.
  assert (Hbody :
    writeVertexPositions mesh meshNode =
    (s ← for_stride (Z.to_nat (Z.of_nat (3 * length pts))) 0
           (Z.of_nat (3 * length pts)) 3
           (fun i s =>
              x ← read (mjoin (vertex_values <$> pts)) i;
              y ← read (mjoin (vertex_values <$> pts)) (to_size_t (i + 1));
              z ← read (mjoin (vertex_values <$> pts)) (to_size_t (i + 2));
              let converted := toLinearUnit x y z in
              Done (s ++ [appendVrts (to_float (vx converted));
                          appendVrts (to_float (vy converted));
                          appendVrts (to_float (vz converted))]))
           (meshNode ++ [startVrts 0 (to_size_t (Z.of_nat (3 * length pts) / 3 - 1))]);
     Done (s ++ [endVrts]))).
  { unfold writeVertexPositions. rewrite Hvalues, vertex_values_length.
    by destruct (getPositionsType mesh). }
  rewrite Hbody.
  rewrite (for_stride_all (fun k s => s ++ round_commands vertex_commands pts k)
             _ 3 (Z.of_nat (3 * length pts)) (length pts)); [|lia|lia|lia| |lia].
  - cbn [mbind Run_bind].
    rewrite (foldl_append (round_commands vertex_commands pts)), round_commands_all.
    replace (Z.of_nat (3 * length pts) / 3) with (Z.of_nat (length pts))
      by (rewrite Nat2Z.inj_mul, Z.mul_comm, Z.div_mul; lia).
    unfold positions_stream. by rewrite <- !app_assoc.
  - intros k s Hk. by apply vertex_round.
Qed.

(** X17: [writeVertexPositions] on a position array of [n] vertices
    (three values each) declares the vertices [0 .. n-1] and writes, vertex
    by vertex, the three coordinates converted to the linear unit and cast
    to [float].  For an array without values the declared range is
    [0 .. 2^64-1], because [count / 3 - 1] is computed on [size_t]. *)
Theorem writeVertexPositions_vertices `{Units real} (mesh : Mesh real)
    (meshNode : list (MeshCommand real)) (pts : list (real * real * real)) :
  getPositionsType mesh <> DATA_TYPE_UNKNOWN ->
  getPositionValues mesh = mjoin (vertex_values <$> pts) ->
  3 * Z.of_nat (length pts) + 2 < 2 ^ 64 ->
  writeVertexPositions mesh meshNode =
    Done (meshNode ++ [startVrts 0 (to_size_t (Z.of_nat (length pts) - 1))]
            ++ mjoin (vertex_commands <$> pts) ++ [endVrts]) /\
  (pts = [] ->
   writeVertexPositions mesh meshNode =
   Done (meshNode ++ [startVrts 0 18446744073709551615; endVrts])).
Proof.
  intros Htype Hvalues Hwrap.
  pose proof (writeVertexPositions_run mesh meshNode pts Htype Hvalues Hwrap) as Hrun.
  unfold positions_stream in Hrun.
  split; [exact Hrun|]. intros ->. by rewrite Hrun.
Qed.

Lemma writeVertexPositions_vertices_witness :
  writeVertexPositions two_vertices [] =
    Done ([startVrts 0 1; appendVrts 1; appendVrts 2; appendVrts 3;
           appendVrts 4; appendVrts 5; appendVrts 6; endVrts]) /\
  writeVertexPositions no_vertices [] =
    Done [startVrts 0 18446744073709551615; endVrts].
Proof.
  split.
  - apply (proj1 (writeVertexPositions_vertices two_vertices []
                    [(1, 2, 3); (4, 5, 6)] ltac:(done) eq_refl ltac:(by vm_compute))).
  - apply (proj2 (writeVertexPositions_vertices no_vertices [] []
                    ltac:(done) eq_refl ltac:(by vm_compute)) eq_refl).
Defined.

(** The loop over the inputs of a vertex data: the state is the mesh node
    and the place of the input's first value. *)
Lemma sets_loop {B} (commands : nat -> list B) (offset : nat -> Z)
    (body : Z -> list B * Z -> Run (list B * Z)) (n : nat) (meshNode : list B) :
  (forall (k : nat) s, (k < n)%nat ->
     body (Z.of_nat k) (s, offset k) = Done (s ++ commands k, offset (S k))) ->
  for_loop n 0 body (meshNode, offset 0%nat) =
  Done (meshNode ++ mjoin (commands <$> seq 0 n), offset n).
Proof.
  intros Hbody.
  destruct (for_loop_total_nat
              (fun k st => st = (meshNode ++ mjoin (commands <$> seq 0 k), offset k))
              body n (meshNode, offset 0%nat)) as (st & Hrun & ->); [| |done].
  - intros k st Hk ->. rewrite Hbody by done. eexists. split; [reflexivity|].
    rewrite seq_S, fmap_app, join_app. cbn. by rewrite app_nil_r, app_assoc.
  - cbn. by rewrite app_nil_r.
Qed.

Lemma set_round_all {real} (commands : Z -> ValueSet real -> list (MeshCommand real))
    (sets : list (ValueSet real)) :
  set_round commands sets <$> seq 0 (length sets)
  = imap (fun i s => commands (Z.of_nat i) s) sets.
Proof.
  apply list_eq. intros k. rewrite list_lookup_fmap, list_lookup_imap.
  unfold set_round. destruct (sets !! k) as [s|] eqn:Hk.
  - rewrite lookup_seq_lt by (by eapply lookup_lt_Some). cbn. by rewrite Hk.
  - rewrite lookup_seq_ge by (by apply lookup_ge_None). done.
Qed.

(** The place of the first value of the set at place [k]. *)
Lemma sets_split {real} (sets : list (ValueSet real)) (k : nat) (s : ValueSet real) :
  sets !! k = Some s ->
  mjoin (set_values <$> sets) =
  mjoin (set_values <$> take k sets) ++ set_values s
  ++ mjoin (set_values <$> drop (S k) sets).
Proof.
  intros Hk. rewrite <- (take_drop_middle _ _ _ Hk) at 1.
  by rewrite fmap_app, join_app, fmap_cons, join_cons.
Qed.

Lemma set_values_length {real} (s : ValueSet real) :
  set_complete s -> 0 <= set_stride s ->
  Z.of_nat (length (set_values s))
  = set_stride s * Z.of_nat (length (set_elements s)).
Proof.
  unfold set_complete, set_values. intros Hall Hstride.
  induction Hall as [|element elements Helement _ IH]; [cbn; lia|].
  rewrite join_cons, length_app. cbn [length]. lia.
Qed.

(** Component [c] of element [j] of the set at place [k] is read at the
    place [offset + stride * j + c] of the values. *)
Lemma set_component {real} (sets : list (ValueSet real)) (k : nat) (s : ValueSet real)
    (j : nat) (element : list real) (c : nat) (v : real) :
  sets !! k = Some s -> set_complete s -> 1 <= set_stride s ->
  set_elements s !! j = Some element -> element !! c = Some v ->
  Z.of_nat (length (mjoin (set_values <$> sets))) < 2 ^ 64 ->
  read (mjoin (set_values <$> sets))
    (to_size_t (Z.of_nat (length (mjoin (set_values <$> take k sets)))
                + set_stride s * Z.of_nat j + Z.of_nat c)) = Done v.
Proof.
  intros Hk Hcomplete Hstride Hj Hc Hlen.
  pose proof (lookup_lt_Some _ _ _ Hc) as Hclt.
  assert (Helement : Z.of_nat (length element) = set_stride s)
    by (eapply (proj1 (Forall_forall _ _) Hcomplete); by eapply list_elem_of_lookup_2).
  assert (Hin : set_values s !! (j * Z.to_nat (set_stride s) + c)%nat = Some v).
  { unfold set_values. apply join_lookup_Some_same_length'.
    - eapply Forall_impl; [exact Hcomplete|]. intros e He. cbn in He. lia.
    - lia.
    - by exists element. }
  pose proof (lookup_lt_Some _ _ _ Hin) as Hinlt.
  rewrite (sets_split sets k s Hk) in Hlen |- *.
  rewrite !length_app in Hlen.
  rewrite to_size_t_id by (unfold_ints; nia).
  apply read_Done; [lia|].
  replace (Z.to_nat (Z.of_nat (length (mjoin (set_values <$> take k sets)))
                     + set_stride s * Z.of_nat j + Z.of_nat c))
    with (length (mjoin (set_values <$> take k sets))
          + (j * Z.to_nat (set_stride s) + c))%nat by nia.
  rewrite lookup_app_r by lia.
  replace (length (mjoin (set_values <$> take k sets))
           + (j * Z.to_nat (set_stride s) + c)
           - length (mjoin (set_values <$> take k sets)))%nat
    with (j * Z.to_nat (set_stride s) + c)%nat by lia.
  by apply lookup_app_l_Some.
Qed.

Lemma sets_offset_S {real} (sets : list (ValueSet real)) (k : nat) (s : ValueSet real) :
  sets !! k = Some s -> set_complete s -> 0 <= set_stride s ->
  sets_offset sets (S k)
  = sets_offset sets k + set_stride s * Z.of_nat (length (set_elements s)).
Proof.
  intros Hk Hcomplete Hstride. unfold sets_offset.
  rewrite (take_S_r _ _ _ Hk), fmap_app, join_app, length_app. cbn [fmap list_fmap].
  rewrite join_cons. cbn [mjoin list_join]. rewrite app_nil_r.
  rewrite Nat2Z.inj_add, set_values_length by done. lia.
Qed.

Lemma sets_offset_le {real} (sets : list (ValueSet real)) (k : nat) :
  sets_offset sets k <= Z.of_nat (length (mjoin (set_values <$> sets))).
Proof.
  unfold sets_offset. rewrite <- (take_drop k sets) at 2.
  rewrite fmap_app, join_app, length_app. lia.
Qed.


(** The input at place [k] of the UV sets: its name, its range and the
    first two values of every element. *)
Lemma uv_set_round `{Units real} (type : DataType) (sets : list (ValueSet real))
    (k : nat) (s : ValueSet real) (meshNode : list (MeshCommand real)) :
  sets !! k = Some s -> set_complete s -> 2 <= set_stride s <= 4 ->
  Z.of_nat (length (mjoin (set_values <$> sets))) < 2 ^ 64 ->
  writeUVSets_input (vertex_data type sets) (Z.of_nat k) (meshNode, sets_offset sets k)
  = Done (meshNode ++ uv_set_commands type (Z.of_nat k) s, sets_offset sets (S k)).
Proof.
  intros Hk Hcomplete Hstride Hlen.
  pose proof (sets_offset_le sets (S k)) as Hle.
  rewrite (sets_offset_S sets k s) in Hle |- * by (done || lia).
  assert (Hoffset : 0 <= sets_offset sets k) by (unfold sets_offset; lia).
  unfold writeUVSets_input, vertex_data.
  cbn [getType getValues mInputInfosArray].
  rewrite (read_nat _ k (set_info s)) by (by rewrite list_lookup_fmap, Hk).
  cbn [mbind Run_bind set_info mName mStride mLength].
  rewrite decide_True by lia.
  rewrite (for_stride_all
             (fun j m => m ++ round_commands (uv_point_commands type) (set_elements s) j)
             _ (set_stride s) _ (length (set_elements s))); [|lia|nia|nia| |nia].
  - cbn [mbind Run_bind].
    rewrite (foldl_append (round_commands (uv_point_commands type) (set_elements s))).
    rewrite round_commands_all.
    replace (set_stride s * Z.of_nat (length (set_elements s)) / set_stride s)
      with (Z.of_nat (length (set_elements s)))
      by (rewrite Z.mul_comm, Z.div_mul; lia).
    rewrite (to_size_t_id (_ + _)) by (unfold_ints; lia).
    unfold uv_set_commands. by rewrite <- !app_assoc.
  - intros j m Hj.
    destruct (lookup_lt_is_Some_2 (set_elements s) j Hj) as [element Helement].
    assert (Hsize : Z.of_nat (length element) = set_stride s)
      by (eapply (proj1 (Forall_forall _ _) Hcomplete); by eapply list_elem_of_lookup_2).
    destruct element as [|u [|v element]]; cbn [length] in Hsize; [lia|lia|].
    replace (sets_offset sets k + set_stride s * Z.of_nat j)
      with (sets_offset sets k + set_stride s * Z.of_nat j + Z.of_nat 0) by lia.
    unfold sets_offset.
    rewrite (set_component sets k s j (u :: v :: element) 0 u) by (done || lia).
    cbn [mbind Run_bind].
    replace (Z.of_nat (length (mjoin (set_values <$> take k sets)))
             + set_stride s * Z.of_nat j + Z.of_nat 0 + 1)
      with (Z.of_nat (length (mjoin (set_values <$> take k sets)))
            + set_stride s * Z.of_nat j + Z.of_nat 1) by lia.
    rewrite (set_component sets k s j (u :: v :: element) 1 v) by (done || lia).
    cbn [mbind Run_bind]. unfold round_commands. by rewrite Helement.
Qed.

Lemma uv_sets_loop `{Units real} (type : DataType) (sets : list (ValueSet real))
    (meshNode : list (MeshCommand real)) :
  Forall set_complete sets ->
  Forall (fun s => 2 <= set_stride s <= 4) sets ->
  Z.of_nat (length (mjoin (set_values <$> sets))) < 2 ^ 64 ->
  for_loop (length sets) 0 (writeUVSets_input (vertex_data type sets)) (meshNode, 0)
  = Done (meshNode ++ mjoin (imap (fun i s => uv_set_commands type (Z.of_nat i) s) sets),
          sets_offset sets (length sets)).
Proof.
  intros Hcomplete Hstrides Hlen.
  change (meshNode, 0) with (meshNode, sets_offset sets 0).
  rewrite (sets_loop (set_round (uv_set_commands type) sets) (sets_offset sets)).
  - by rewrite set_round_all.
  - intros k m Hk.
    destruct (lookup_lt_is_Some_2 sets k Hk) as [s Hs].
    rewrite (uv_set_round type sets k s m); try done.
    + unfold set_round. by rewrite Hs.
    + eapply (proj1 (Forall_forall _ _) Hcomplete). by eapply list_elem_of_lookup_2.
    + eapply (proj1 (Forall_forall _ _) Hstrides). by eapply list_elem_of_lookup_2.
Qed.


Lemma writeUVSets_run `{Units real} (mesh : Mesh real)
    (meshNode : list (MeshCommand real)) (type : DataType)
    (sets : list (ValueSet real)) :
  getUVCoords mesh = vertex_data type sets ->
  type <> DATA_TYPE_UNKNOWN ->
  Forall set_complete sets ->
  Z.of_nat (length (getValues (getUVCoords mesh))) < 2 ^ 64 ->
  Forall (fun s => 2 <= set_stride s <= 4) sets ->
  writeUVSets mesh meshNode = Done (meshNode ++ uv_stream type sets).
Proof.
  intros Hdata Htype Hcomplete Hlen Hstrides. rewrite Hdata in Hlen.
  cbn [vertex_data getValues] in Hlen.
  destruct (decide (sets = [])) as [->|Hsome].
  { unfold writeUVSets. rewrite Hdata. cbn. by rewrite app_nil_r. }
  unfold writeUVSets. rewrite Hdata.
  unfold getNumInputInfos. cbn [vertex_data mInputInfosArray getType].
  rewrite length_fmap, Nat2Z.id.
  rewrite decide_False by (destruct sets; [done|cbn [length]; lia]).
  pose proof (uv_sets_loop type sets
                (meshNode ++ [setUvSize (Z.of_nat (length sets))])
                Hcomplete Hstrides Hlen) as Hloop.
  cbn [vertex_data] in Hloop.
  assert (Hstream : uv_stream type sets =
            setUvSize (Z.of_nat (length sets))
            :: mjoin (imap (fun i s => uv_set_commands type (Z.of_nat i) s) sets))
    by (by destruct sets).
  rewrite Hstream.
  destruct type; [| |done]; rewrite Hloop; cbn [mbind Run_bind fst];
    by rewrite <- app_assoc.
Qed.



(** The values of one colour element. *)
Lemma color_element_round `{Units real} (type : DataType) (sets : list (ValueSet real))
    (k : nat) (s : ValueSet real) (j : nat) (element : list real)
    (meshNode : list (MeshCommand real)) :
  sets !! k = Some s -> set_complete s -> 1 <= set_stride s ->
  set_elements s !! j = Some element ->
  Z.of_nat (length (mjoin (set_values <$> sets))) < 2 ^ 64 ->
  for_loop (Z.to_nat (set_stride s)) 0
    (fun c meshNode =>
       v ← read (mjoin (set_values <$> sets))
             (to_size_t (sets_offset sets k + set_stride s * Z.of_nat j + c));
       Done (meshNode ++ [appendColorSetPoints (cast_value type v)]))
    meshNode
  = Done (meshNode ++ color_point_commands type element).
Proof.
  intros Hk Hcomplete Hstride Hj Hlen.
  assert (Hsize : Z.of_nat (length element) = set_stride s)
    by (eapply (proj1 (Forall_forall _ _) Hcomplete); by eapply list_elem_of_lookup_2).
  destruct (for_loop_total_nat
              (fun c st => st = meshNode ++ color_point_commands type (take c element))
              (fun c meshNode =>
                 v ← read (mjoin (set_values <$> sets))
                       (to_size_t (sets_offset sets k + set_stride s * Z.of_nat j + c));
                 Done (meshNode ++ [appendColorSetPoints (cast_value type v)]))
              (Z.to_nat (set_stride s)) meshNode) as (st & Hrun & ->).
  - intros c st Hc ->.
    destruct (lookup_lt_is_Some_2 element c ltac:(lia)) as [v Hv].
    unfold sets_offset. rewrite (set_component sets k s j element c v) by (done || lia).
    cbn [mbind Run_bind]. eexists. split; [reflexivity|].
    rewrite (take_S_r _ _ _ Hv). unfold color_point_commands.
    rewrite fmap_app. cbn. by rewrite app_assoc.
  - cbn. by rewrite app_nil_r.
  - rewrite Hrun. by rewrite take_ge by lia.
Qed.

(** The input at place [k] of the colour sets: its name, its
    representation, its range and all values of every element. *)
Lemma color_set_round `{Units real} (type : DataType) (sets : list (ValueSet real))
    (k : nat) (s : ValueSet real) (meshNode : list (MeshCommand real)) :
  sets !! k = Some s -> set_complete s -> 1 <= set_stride s <= 4 ->
  Z.of_nat (length (mjoin (set_values <$> sets))) < 2 ^ 64 ->
  writeColorSets_input (vertex_data type sets) (Z.of_nat k)
    (meshNode, sets_offset sets k)
  = Done (meshNode ++ color_set_commands type (Z.of_nat k) s, sets_offset sets (S k)).
Proof.
  intros Hk Hcomplete Hstride Hlen.
  pose proof (sets_offset_le sets (S k)) as Hle.
  rewrite (sets_offset_S sets k s) in Hle |- * by (done || lia).
  assert (Hoffset : 0 <= sets_offset sets k) by (unfold sets_offset; lia).
  unfold writeColorSets_input, vertex_data.
  cbn [getType getValues mInputInfosArray].
  rewrite (read_nat _ k (set_info s)) by (by rewrite list_lookup_fmap, Hk).
  cbn [mbind Run_bind set_info mName mStride mLength].
  rewrite decide_True by lia.
  rewrite (decide_False (P := set_stride s = 0)) by lia.
  rewrite (for_stride_all
             (fun j m => m ++ round_commands (color_point_commands type) (set_elements s) j)
             _ (set_stride s) _ (length (set_elements s))); [|lia|nia|nia| |nia].
  - cbn [mbind Run_bind].
    rewrite (foldl_append (round_commands (color_point_commands type) (set_elements s))).
    rewrite round_commands_all.
    replace (set_stride s * Z.of_nat (length (set_elements s)) / set_stride s)
      with (Z.of_nat (length (set_elements s)))
      by (rewrite Z.mul_comm, Z.div_mul; lia).
    rewrite (to_size_t_id (_ + _)) by (unfold_ints; lia).
    unfold color_set_commands, representation_of. by rewrite <- !app_assoc.
  - intros j m Hj.
    destruct (lookup_lt_is_Some_2 (set_elements s) j Hj) as [element Helement].
    rewrite (color_element_round type sets k s j element m) by (done || lia).
    unfold round_commands. by rewrite Helement.
Qed.

Lemma color_sets_loop `{Units real} (type : DataType) (sets : list (ValueSet real))
    (meshNode : list (MeshCommand real)) :
  Forall set_complete sets ->
  Forall (fun s => 1 <= set_stride s <= 4) sets ->
  Z.of_nat (length (mjoin (set_values <$> sets))) < 2 ^ 64 ->
  for_loop (length sets) 0 (writeColorSets_input (vertex_data type sets)) (meshNode, 0)
  = Done (meshNode
            ++ mjoin (imap (fun i s => color_set_commands type (Z.of_nat i) s) sets),
          sets_offset sets (length sets)).
Proof.
  intros Hcomplete Hstrides Hlen.
  change (meshNode, 0) with (meshNode, sets_offset sets 0).
  rewrite (sets_loop (set_round (color_set_commands type) sets) (sets_offset sets)).
  - by rewrite set_round_all.
  - intros k m Hk.
    destruct (lookup_lt_is_Some_2 sets k Hk) as [s Hs].
    rewrite (color_set_round type sets k s m); try done.
    + unfold set_round. by rewrite Hs.
    + eapply (proj1 (Forall_forall _ _) Hcomplete). by eapply list_elem_of_lookup_2.
    + eapply (proj1 (Forall_forall _ _) Hstrides). by eapply list_elem_of_lookup_2.
Qed.


Lemma writeColorSets_run `{Units real} (mesh : Mesh real)
    (meshNode : list (MeshCommand real)) (type : DataType)
    (sets : list (ValueSet real)) :
  getColors mesh = vertex_data type sets ->
  type <> DATA_TYPE_UNKNOWN ->
  Forall set_complete sets ->
  Z.of_nat (length (getValues (getColors mesh))) < 2 ^ 64 ->
  Forall (fun s => 1 <= set_stride s <= 4) sets ->
  writeColorSets mesh meshNode = Done (meshNode ++ color_stream type sets).
Proof.
  intros Hdata Htype Hcomplete Hlen Hstrides. rewrite Hdata in Hlen.
  cbn [vertex_data getValues] in Hlen. unfold color_stream.
  destruct (decide (sets = [])) as [->|Hsome].
  { unfold writeColorSets. rewrite Hdata. cbn. by rewrite app_nil_r. }
  unfold writeColorSets. rewrite Hdata.
  unfold getNumInputInfos. cbn [vertex_data mInputInfosArray getType].
  rewrite length_fmap, Nat2Z.id.
  rewrite decide_False by (destruct sets; [done|cbn [length]; lia]).
  pose proof (color_sets_loop type sets meshNode Hcomplete Hstrides Hlen) as Hloop.
  cbn [vertex_data] in Hloop.
  destruct type; [| |done]; by rewrite Hloop.
Qed.



(** ** Normals and edges *)

Lemma for_each_append {A B} (f : A -> list B) (body : list B -> A -> Run (list B))
    (l : list A) :
  Forall (fun a => forall s, body s a = Done (s ++ f a)) l ->
  forall s, for_each body s l = Done (s ++ mjoin (f <$> l)).
Proof.
  induction 1 as [|a l Ha _ IH]; intros s; cbn [for_each].
  - cbn. by rewrite app_nil_r.
  - rewrite Ha. cbn [mbind Run_bind]. rewrite IH, fmap_cons, join_cons.
    by rewrite app_assoc.
Qed.

Lemma join_fmap_join {A B C} (f : A -> list B) (g : C -> list A) (ls : list C) :
  mjoin ((fun l => mjoin (f <$> g l)) <$> ls) = mjoin (f <$> mjoin (g <$> ls)).
Proof.
  induction ls as [|l ls IH]; [done|].
  by rewrite !fmap_cons, !join_cons, fmap_app, join_app, IH.
Qed.

Lemma writeNormals_run `{Units real} (mesh : Mesh real)
    (meshNode : list (MeshCommand real)) (normals : list (real * real * real)) :
  getType (getNormals mesh) <> DATA_TYPE_UNKNOWN ->
  getValues (getNormals mesh) = mjoin (vertex_values <$> normals) ->
  Forall (fun normalIndex => 0 <= normalIndex < Z.of_nat (length normals))
         (normal_indices mesh) ->
  3 * Z.of_nat (length normals) < 2 ^ 32 ->
  0 <= getNormalsCount mesh < 2 ^ 64 ->
  writeNormals mesh meshNode = Done (meshNode ++ normals_stream mesh normals).
Proof.
  intros Htype Hvalues Hindices Hwrap Hcount.
  unfold writeNormals, normals_stream.
  destruct (decide (getNormalsCount mesh > 0)) as [Hpos|Hzero];
    [|by rewrite app_nil_r].
  rewrite to_size_t_id by (unfold_ints; lia).
  unfold appendNormalValues.
  rewrite (for_each_append
             (fun meshPrimitive =>
                mjoin (normal_commands (getType (getNormals mesh)) normals
                         <$> getNormalIndices meshPrimitive))).
  { cbn [mbind Run_bind].
    rewrite (join_fmap_join (normal_commands (getType (getNormals mesh)) normals)
               getNormalIndices).
    fold (normal_indices mesh). by rewrite <- !app_assoc. }
  unfold normal_indices in Hindices.
  induction (getMeshPrimitives mesh) as [|meshPrimitive l IH]; [constructor|].
  rewrite fmap_cons, join_cons in Hindices. apply Forall_app in Hindices as [Hp Hl].
  constructor; [|by apply IH].
  intros s. apply for_each_append.
  eapply Forall_impl; [exact Hp|]. intros normalIndex Hindex m. cbn beta in Hindex.
  destruct (lookup_lt_is_Some_2 normals (Z.to_nat normalIndex) ltac:(lia))
    as [[[x y] z] Hxyz].
  destruct (vertex_values_lookup normals (Z.to_nat normalIndex) x y z Hxyz)
    as (Hx & Hy & Hz).
  rewrite Hvalues.
  assert (Hpos3 : to_uint (normalIndex * 3) = normalIndex * 3)
    by (unfold_ints; rewrite Z.mod_small; lia).
  rewrite Hpos3.
  assert (H1 : to_uint (normalIndex * 3 + 1) = normalIndex * 3 + 1)
    by (unfold_ints; rewrite Z.mod_small; lia).
  assert (H2 : to_uint (normalIndex * 3 + 2) = normalIndex * 3 + 2)
    by (unfold_ints; rewrite Z.mod_small; lia).
  rewrite H1, H2.
  rewrite (read_Done _ (normalIndex * 3) x);
    [|lia|by replace (Z.to_nat (normalIndex * 3))
            with (3 * Z.to_nat normalIndex)%nat by lia].
  cbn [mbind Run_bind].
  rewrite (read_Done _ (normalIndex * 3 + 1) y);
    [|lia|by replace (Z.to_nat (normalIndex * 3 + 1))
            with (3 * Z.to_nat normalIndex + 1)%nat by lia].
  cbn [mbind Run_bind].
  rewrite (read_Done _ (normalIndex * 3 + 2) z);
    [|lia|by replace (Z.to_nat (normalIndex * 3 + 2))
            with (3 * Z.to_nat normalIndex + 2)%nat by lia].
  cbn [mbind Run_bind]. unfold normal_commands. rewrite Hxyz.
  by destruct (getType (getNormals mesh)).
Qed.


(** X20: [writeNormals] of a mesh whose normal indices all point at one of
    its normals.  With a normals count of 0 nothing is written; otherwise
    the range [0 .. count-1] is declared and then, for every normal index
    of every primitive in order, the three values of the normal at that
    index are written. *)
Theorem writeNormals_normals `{Units real} (mesh : Mesh real)
    (meshNode : list (MeshCommand real)) (normals : list (real * real * real)) :
  getType (getNormals mesh) <> DATA_TYPE_UNKNOWN ->
  getValues (getNormals mesh) = mjoin (vertex_values <$> normals) ->
  Forall (fun normalIndex => 0 <= normalIndex < Z.of_nat (length normals))
         (normal_indices mesh) ->
  3 * Z.of_nat (length normals) < 2 ^ 32 ->
  0 <= getNormalsCount mesh < 2 ^ 64 ->
  (getNormalsCount mesh = 0 -> writeNormals mesh meshNode = Done meshNode) /\
  (0 < getNormalsCount mesh ->
   writeNormals mesh meshNode =
   Done (meshNode ++ [startNormals 0 (getNormalsCount mesh - 1)]
           ++ mjoin (normal_commands (getType (getNormals mesh)) normals
                       <$> normal_indices mesh)
           ++ [endNormals])).
Proof.
  intros Htype Hvalues Hindices Hwrap Hcount.
  pose proof (writeNormals_run mesh meshNode normals Htype Hvalues Hindices Hwrap Hcount)
    as Hrun.
  unfold normals_stream in Hrun. split.
  - intros Hzero. rewrite decide_False in Hrun by lia. by rewrite app_nil_r in Hrun.
  - intros Hpos. by rewrite decide_True in Hrun by lia.
Qed.

Lemma writeNormals_normals_witness :
  writeNormals normals_mesh [] =
    Done [startNormals 0 3;
          appendNormals 0; appendNormals 0; appendNormals 1;
          appendNormals 0; appendNormals 0; appendNormals 1;
          appendNormals 0; appendNormals 1; appendNormals 0;
          appendNormals 0; appendNormals 1; appendNormals 0;
          endNormals].
Proof.
  apply (proj2 (writeNormals_normals normals_mesh [] [(0, 0, 1); (0, 1, 0)]
                  ltac:(done) eq_refl
                  ltac:(repeat (apply Forall_cons; split; [cbn; lia|]); constructor)
                  ltac:(by vm_compute) ltac:(cbn; lia))).
  cbn. lia.
Defined.

(** X21: [writeEdges] writes nothing for an empty edge list; otherwise it
    declares the range [0 .. n-1] of the [n] edges and writes for every
    edge, in the order of the list, its two vertex indices and the
    hardness 0. *)
Theorem writeEdges_edges {real} (edgeIndices : list Edge)
    (meshNode : list (MeshCommand real)) :
  Z.of_nat (length edgeIndices) < 2 ^ 64 ->
  (edgeIndices = [] -> writeEdges edgeIndices meshNode = meshNode) /\
  (edgeIndices <> [] ->
   writeEdges edgeIndices meshNode =
   meshNode ++ [startEdge 0 (Z.of_nat (length edgeIndices) - 1)]
     ++ mjoin (edge_commands <$> edgeIndices) ++ [endEdge]).
Proof.
  intros Hlen. split.
  - by intros ->.
  - intros Hsome. unfold writeEdges.
    assert (Hpos : 0 < Z.of_nat (length edgeIndices))
      by (destruct edgeIndices; [done|cbn [length]; lia]).
    rewrite decide_True by lia.
    rewrite to_size_t_id by (unfold_ints; lia).
    rewrite (app_assoc meshNode [startEdge _ _]).
    generalize (meshNode ++ [startEdge 0 (Z.of_nat (length edgeIndices) - 1)]).
    intros m. rewrite (app_assoc m). f_equal.
    revert m. clear. induction edgeIndices as [|edge l IH]; intros m; cbn [foldl].
    + cbn. by rewrite app_nil_r.
    + rewrite IH, fmap_cons, join_cons. unfold edge_commands at 2, Edge_at.
      cbn. by rewrite <- !app_assoc.
Qed.

Lemma writeEdges_edges_witness :
  writeEdges (real := Z) [Edge_new 0 1; Edge_new 1 2; Edge_new 2 0] [] =
    [startEdge 0 2;
     appendEdge 0; appendEdge 1; appendEdge 0;
     appendEdge 1; appendEdge 2; appendEdge 0;
     appendEdge 0; appendEdge 2; appendEdge 0;
     endEdge].
Proof.
  apply (proj2 (writeEdges_edges (real := Z) [Edge_new 0 1; Edge_new 1 2; Edge_new 2 0] []
                  ltac:(by vm_compute))).
  done.
Defined.

(** ** The value streams in [createMesh] *)



(** X23: the value streams of a mesh with well-formed value data are
    written without a failure, one after the other: the vertex positions,
    the normals, the UV sets (strides 2 to 4) and the colour sets (strides
    1 to 4). *)
Theorem value_streams_written `{Units real} (mesh : Mesh real)
    (pts normals : list (real * real * real)) (uvType colorType : DataType)
    (uvSets colorSets : list (ValueSet real)) :
  positions_of mesh pts ->
  normals_of mesh normals ->
  sets_of (getUVCoords mesh) uvType uvSets 2 ->
  sets_of (getColors mesh) colorType colorSets 1 ->
  value_streams mesh =
  Done (positions_stream pts ++ normals_stream mesh normals
          ++ uv_stream uvType uvSets ++ color_stream colorType colorSets).
Proof.
  intros (Hptype & Hpvalues & Hpwrap) (Hntype & Hnvalues & Hnindices & Hnwrap & Hncount)
         (Hudata & Hutype & Hucomplete & Hulen & Hustrides)
         (Hcdata & Hctype & Hccomplete & Hclen & Hcstrides).
  unfold value_streams.
  rewrite (writeVertexPositions_run mesh [] pts) by done. cbn [mbind Run_bind].
  rewrite (writeNormals_run mesh _ normals) by done. cbn [mbind Run_bind].
  rewrite (writeUVSets_run mesh _ uvType uvSets) by done. cbn [mbind Run_bind].
  rewrite (writeColorSets_run mesh _ colorType colorSets) by done.
  by rewrite <- !app_assoc.
Qed.

Lemma value_streams_written_witness :
  value_streams valued_mesh =
  Done [startVrts 0 4;
        appendVrts 0; appendVrts 0; appendVrts 0;
        appendVrts 2; appendVrts 0; appendVrts 0;
        appendVrts 2; appendVrts 2; appendVrts 0;
        appendVrts 0; appendVrts 2; appendVrts 0;
        appendVrts (-2); appendVrts 2; appendVrts 0;
        endVrts;
        startNormals 0 0;
        appendNormals 0; appendNormals 0; appendNormals 1;
        appendNormals 0; appendNormals 0; appendNormals 1;
        appendNormals 0; appendNormals 0; appendNormals 1;
        appendNormals 0; appendNormals 0; appendNormals 1;
        appendNormals 0; appendNormals 0; appendNormals 1;
        endNormals;
        setUvSize 1; setUvSetName 0 "map1"; startUvSetPoints 0 0 4;
        appendUvSetPoints 0; appendUvSetPoints 0;
        appendUvSetPoints 1; appendUvSetPoints 0;
        appendUvSetPoints 1; appendUvSetPoints 1;
        appendUvSetPoints 0; appendUvSetPoints 1;
        appendUvSetPoints 2; appendUvSetPoints 1;
        endUvSetPoints;
        setColorName 0 "colorSet1"; setRepresentation 0 3; startColorSetPoints 0 0 2;
        appendColorSetPoints 255; appendColorSetPoints 0; appendColorSetPoints 0;
        appendColorSetPoints 0; appendColorSetPoints 255; appendColorSetPoints 0;
        appendColorSetPoints 0; appendColorSetPoints 0; appendColorSetPoints 255;
        endColorSetPoints].
Proof.
  rewrite (value_streams_written valued_mesh
             [(0, 0, 0); (2, 0, 0); (2, 2, 0); (0, 2, 0); (-2, 2, 0)] [(0, 0, 1)]
             DATA_TYPE_FLOAT DATA_TYPE_DOUBLE
             [mkValueSet "map1" 2 [[0; 0]; [1; 0]; [1; 1]; [0; 1]; [2; 1]]]
             [mkValueSet "colorSet1" 3 [[255; 0; 0]; [0; 255; 0]; [0; 0; 255]]]).
  - by vm_compute.
  - split; [done|]. split; [reflexivity|by vm_compute].
  - split; [done|]. split; [reflexivity|]. split.
    + repeat (apply Forall_cons; split; [cbn; lia|]). constructor.
    + split; [by vm_compute|cbn; lia].
  - split; [reflexivity|]. split; [done|]. split; [repeat constructor|].
    split; [by vm_compute|repeat constructor; cbn; lia].
  - split; [reflexivity|]. split; [done|]. split; [repeat constructor|].
    split; [by vm_compute|repeat constructor; cbn; lia].
Defined.
